(** * FloatChat ARGO ingestion pipeline: extractor, catalog client, runner

    A shallow embedding of [src/floatchat/pipeline/processor.py],
    [client.py] and [runner.py], with the properties of the pipeline
    specification stated and proved over it. *)

From Stdlib Require Import ZArith NArith List Bool Lia.
From Stdlib Require Import Floats Sorted.
From stdpp Require Import gmap strings.
Import ListNotations.

Open Scope Z_scope.

(** ** Python results: a value, or a raised exception *)

Inductive exn :=
| IndexError | TypeError | ValueError | UnicodeDecodeError | OverflowError
| OutOfBoundsDatetime | RequestException | HTTPError | ParserError
| OperationalError | OSError.

Inductive result (A : Type) :=
| Ok (a : A)
| Raise (e : exn).
Arguments Ok {A} a.
Arguments Raise {A} e.

Definition bind {A B} (r : result A) (k : A -> result B) : result B :=
  match r with
  | Ok a => k a
  | Raise e => Raise e
  end.

Notation "x <- r ;; k" := (bind r (fun x => k))
  (at level 100, r at next level, right associativity).

(** [try: body except: handler] with a bare [except]. *)
Definition try_except {A} (body : result A) (handler : result A) : result A :=
  match body with
  | Ok a => Ok a
  | Raise _ => handler
  end.

(** ** Text *)

(** A Python [str] is a sequence of Unicode code points, a [bytes] a
    sequence of bytes. *)
Definition pystr := list N.
Definition pybytes := list Byte.byte.

Definition lit (s : string) : pystr :=
  map Ascii.N_of_ascii (String.list_ascii_of_string s).

(** [str.isspace] for one character (CPython's [_PyUnicode_IsWhitespace]). *)
Definition isspace (c : N) : bool :=
  ((0x09 <=? c) && (c <=? 0x0D) || (0x1C <=? c) && (c <=? 0x20)
   || (c =? 0x85) || (c =? 0xA0) || (c =? 0x1680)
   || (0x2000 <=? c) && (c <=? 0x200A)
   || (c =? 0x2028) || (c =? 0x2029) || (c =? 0x202F) || (c =? 0x205F)
   || (c =? 0x3000))%N.

Fixpoint lstrip_with (p : N -> bool) (s : pystr) : pystr :=
  match s with
  | c :: s' => if p c then lstrip_with p s' else s
  | [] => []
  end.

Definition strip_with (p : N -> bool) (s : pystr) : pystr :=
  rev (lstrip_with p (rev (lstrip_with p s))).

(** [s.strip()] *)
Definition strip (s : pystr) : pystr := strip_with isspace s.

(** [bytes.decode('utf-8')]: the strict decoder; ill-formed input raises
    [UnicodeDecodeError]. *)
Definition cont (b : N) : bool := ((0x80 <=? b) && (b <=? 0xBF))%N.

Fixpoint utf8_decode (bs : list N) : result pystr :=
  match bs with
  | [] => Ok []
  | b0 :: r0 =>
    if (b0 <=? 0x7F)%N then
      s <- utf8_decode r0 ;; Ok (b0 :: s)
    else if ((0xC2 <=? b0) && (b0 <=? 0xDF))%N then
      match r0 with
      | b1 :: r1 =>
        if cont b1 then
          s <- utf8_decode r1 ;;
          Ok (((b0 - 0xC0) * 64 + (b1 - 0x80))%N :: s)
        else Raise UnicodeDecodeError
      | _ => Raise UnicodeDecodeError
      end
    else if ((0xE0 <=? b0) && (b0 <=? 0xEF))%N then
      match r0 with
      | b1 :: b2 :: r2 =>
        if cont b1 && cont b2
           && (negb (b0 =? 0xE0) || (0xA0 <=? b1))%N
           && (negb (b0 =? 0xED) || (b1 <=? 0x9F))%N
        then
          s <- utf8_decode r2 ;;
          Ok (((b0 - 0xE0) * 4096 + (b1 - 0x80) * 64 + (b2 - 0x80))%N :: s)
        else Raise UnicodeDecodeError
      | _ => Raise UnicodeDecodeError
      end
    else if ((0xF0 <=? b0) && (b0 <=? 0xF4))%N then
      match r0 with
      | b1 :: b2 :: b3 :: r3 =>
        if cont b1 && cont b2 && cont b3
           && (negb (b0 =? 0xF0) || (0x90 <=? b1))%N
           && (negb (b0 =? 0xF4) || (b1 <=? 0x8F))%N
        then
          s <- utf8_decode r3 ;;
          Ok (((b0 - 0xF0) * 262144 + (b1 - 0x80) * 4096
               + (b2 - 0x80) * 64 + (b3 - 0x80))%N :: s)
        else Raise UnicodeDecodeError
      | _ => Raise UnicodeDecodeError
      end
    else Raise UnicodeDecodeError
  end.

Definition decode (b : pybytes) : result pystr :=
  utf8_decode (map Byte.to_N b).

(** ** Floating-point numbers

    numpy's [floating] scalars and Python's [float] are IEEE 754 binary
    numbers; every binary32 value is a binary64 value, so cells are
    modelled as binary64 ([spec_float] at precision 53). *)

Definition is_nan (f : spec_float) : bool :=
  match f with
  | S754_nan => true
  | _ => false
  end.

Definition is_finite (f : spec_float) : bool :=
  match f with
  | S754_zero _ | S754_finite _ _ _ => true
  | _ => false
  end.

(** Python float literals, read as the nearest binary64 value. *)
#[local] Set Warnings "-inexact-float".
Definition f_1e10 : spec_float := Prim2SF 1e10%float.
Definition f_1e12 : spec_float := Prim2SF 1e12%float.
Definition f_99999_9 : spec_float := Prim2SF 99999.9%float.
Definition f_15_3 : spec_float := Prim2SF 15.3%float.
Definition f_100 : spec_float := Prim2SF 100.0%float.

(** [abs(value) > 1e10] *)
Definition abs_gt_1e10 (f : spec_float) : bool := SFltb f_1e10 (SFabs f).

(** ** Datasets *)

(** An n-dimensional array: a scalar item (0-d), or an axis of sub-arrays. *)
#[warnings="-register-all"]
Inductive ndarray (A : Type) :=
| Item (a : A)
| Axis (l : list (ndarray A)).
Arguments Item {A} a.
Arguments Axis {A} l.

(** The [values] of a variable, by dtype kind: 'f', 'i'/'u', 'S', 'U'. *)
Inductive DataArray :=
| FloatArray (a : ndarray spec_float)
| IntArray (a : ndarray Z)
| BytesArray (a : ndarray pybytes)
| StrArray (a : ndarray pystr).

(** An in-memory [xr.Dataset]: dimension sizes and named variables. *)
Record Dataset := {
  sizes : gmap string nat;
  variables : gmap string DataArray
}.

(** The values the extractor handles. [PArray] is a numpy array that is
    not 0-d; [PArrayStr d] is the Python string [str(d).strip()] of such an
    array, kept symbolic (numpy's array printing is not modelled). *)
Inductive pyvalue :=
| PNone
| PFloat (f : spec_float)
| PInt (z : Z)
| PBytes (b : pybytes)
| PStr (s : pystr)
| PArray (d : DataArray)
| PArrayStr (d : DataArray).

(** The index argument of [_get_value]: an int [i] or a tuple [(i, j)]. *)
Inductive index :=
| IInt (i : nat)
| ITuple (l : list nat).

Definition index_list (ix : index) : list nat :=
  match ix with
  | IInt i => [i]
  | ITuple l => l
  end.

(** [a[index]] on a numpy array; the indices the extractor passes are never
    negative.  Too many indices, or one out of bounds, raise [IndexError]. *)
Fixpoint getitem {A} (a : ndarray A) (ix : list nat) : result (ndarray A) :=
  match ix with
  | [] => Ok a
  | i :: ix' =>
    match a with
    | Item _ => Raise IndexError
    | Axis l =>
      match nth_error l i with
      | Some sub => getitem sub ix'
      | None => Raise IndexError
      end
    end
  end.

(** What indexing hands back: a numpy scalar for a 0-d result, the
    sub-array otherwise. *)
Definition scalar_or_array {A} (scalar : A -> pyvalue)
    (array : ndarray A -> DataArray) (r : ndarray A) : pyvalue :=
  match r with
  | Item x => scalar x
  | Axis _ => PArray (array r)
  end.

(** [ds[var_name].values[index]] *)
Definition values_getitem (d : DataArray) (ix : index) : result pyvalue :=
  match d with
  | FloatArray a =>
    r <- getitem a (index_list ix) ;; Ok (scalar_or_array PFloat FloatArray r)
  | IntArray a =>
    r <- getitem a (index_list ix) ;; Ok (scalar_or_array PInt IntArray r)
  | BytesArray a =>
    r <- getitem a (index_list ix) ;; Ok (scalar_or_array PBytes BytesArray r)
  | StrArray a =>
    r <- getitem a (index_list ix) ;; Ok (scalar_or_array PStr StrArray r)
  end.

(** ** ArgoStreamProcessor._get_value *)

(** Lines 96-99: bytes are decoded and stripped, arrays of dtype kind 'S'
    or 'U' are printed and stripped. *)
Definition decode_text (value : pyvalue) : result pyvalue :=
  match value with
  | PBytes b => s <- decode b ;; Ok (PStr (strip s))
  | PArray (BytesArray a) => Ok (PArrayStr (BytesArray a))
  | PArray (StrArray a) => Ok (PArrayStr (StrArray a))
  | _ => Ok value
  end.

(** Lines 101-104: a float scalar that is NaN or exceeds 1e10 in magnitude
    becomes None. *)
Definition sanitize (value : pyvalue) : pyvalue :=
  match value with
  | PFloat f => if is_nan f || abs_gt_1e10 f then PNone else value
  | _ => value
  end.

Definition _get_value (ds : Dataset) (var_name : string) (ix : index)
  : result pyvalue :=
  match variables ds !! var_name with
  | None => Ok PNone
  | Some d =>
    try_except
      (value <- values_getitem d ix ;;
       value <- decode_text value ;;
       Ok (sanitize value))
      (Ok PNone)
  end.

(** ** numpy and pandas operations used by the extractor *)

Fixpoint flatten {A} (a : ndarray A) : list A :=
  match a with
  | Item x => [x]
  | Axis l => flat_map flatten l
  end.

(** The result of [np.isnan]: a numpy bool for a scalar, a bool array for
    an array. *)
Inductive npbool :=
| BScalar (b : bool)
| BArray (l : list bool).

(** [np.isnan(v)]: defined on numbers and numeric arrays; text and None
    raise [TypeError]. *)
Definition np_isnan (v : pyvalue) : result npbool :=
  match v with
  | PFloat f => Ok (BScalar (is_nan f))
  | PInt _ => Ok (BScalar false)
  | PArray (FloatArray a) => Ok (BArray (map is_nan (flatten a)))
  | PArray (IntArray a) => Ok (BArray (map (fun _ => false) (flatten a)))
  | _ => Raise TypeError
  end.

(** [not b]: the truth value of an array is that of its single element;
    an array of any other size has none ([ValueError]). *)
Definition py_not (b : npbool) : result bool :=
  match b with
  | BScalar b => Ok (negb b)
  | BArray [b] => Ok (negb b)
  | BArray _ => Raise ValueError
  end.

(** [v is not None and not np.isnan(v)] *)
Definition present_not_nan (v : pyvalue) : result bool :=
  match v with
  | PNone => Ok false
  | _ => b <- np_isnan v ;; py_not b
  end.

(** ** The installed numpy and pandas

    [setup.py] admits every numpy from 1.24 and every pandas from 2.0 on,
    and their releases differ in two corners that the extractor reaches:
    [float(a)] of a one-element array [a] (older numpy returns the
    element, newer numpy raises [TypeError]), and [pd.Timedelta(days=d)]
    added to a [Timestamp] when the span is not a whole number of seconds
    or lies outside what 64-bit nanoseconds hold (truncated, rounded,
    kept at a coarser unit, or refused). What the releases share is
    modelled below; in these two corners the model asks the
    installation. *)
Class Installed := {
  float_of_array : bool;
  timedelta_edge : spec_float -> result Z
}.

(** [float(v)]. The extractor calls it only after [np.isnan(v)] has
    returned, so never on text. *)
Definition py_float {lib : Installed} (v : pyvalue) : result spec_float :=
  match v with
  | PFloat f => Ok f
  | PInt z => Ok (binary_normalize prec emax z 0 false)
  | PArray (FloatArray a) =>
    if float_of_array then
      match flatten a with
      | [f] => Ok f
      | _ => Raise TypeError
      end
    else Raise TypeError
  | PArray (IntArray a) =>
    if float_of_array then
      match flatten a with
      | [z] => Ok (binary_normalize prec emax z 0 false)
      | _ => Raise TypeError
      end
    else Raise TypeError
  | _ => Raise TypeError
  end.

(** pandas keeps a [Timestamp] and a [Timedelta] as a count in an int64,
    the smallest int64 being reserved for NaT; instants and spans are
    given here in nanoseconds. *)
Definition NS_PER_DAY : Z := 86400 * 10 ^ 9.
Definition INT64_MAX : Z := 2 ^ 63 - 1.

Definition in_ns_range (ns : Z) : bool :=
  (- INT64_MAX <=? ns) && (ns <=? INT64_MAX).

(** Multiplication of Python floats: binary64, rounded to nearest. *)
Definition fmul (x y : spec_float) : spec_float := SFmul prec emax x y.

Definition f_24 : spec_float := Prim2SF 24%float.
Definition f_3600 : spec_float := Prim2SF 3600%float.
Definition f_1e9 : spec_float := Prim2SF 1e9%float.

(** The nanoseconds of [d] days as [pd.Timedelta(days=d)] computes them:
    [d * 24 * 3600 * 1_000_000_000], in floating point. *)
Definition days_ns (d : spec_float) : spec_float :=
  fmul (fmul (fmul d f_24) f_3600) f_1e9.

(** The integer that a float is, when it is one. *)
Definition whole (x : spec_float) : option Z :=
  match x with
  | S754_zero _ => Some 0
  | S754_finite s m e =>
    if 0 <=? e then Some ((if s then -1 else 1) * (Z.pos m * 2 ^ e))
    else if Z.pos m mod 2 ^ (- e) =? 0
         then Some ((if s then -1 else 1) * (Z.pos m / 2 ^ (- e)))
         else None
  | _ => None
  end.

(** Days from 1970-01-01 to a civil (proleptic Gregorian) date. *)
Definition days_from_civil (y m d : Z) : Z :=
  let y' := if m <=? 2 then y - 1 else y in
  let era := y' / 400 in
  let yoe := y' - era * 400 in
  let doy := (153 * (if 2 <? m then m - 3 else m + 9) + 2) / 5 + d - 1 in
  let doe := yoe * 365 + yoe / 4 - yoe / 100 + doy in
  era * 146097 + doe - 719468.

(** [pd.Timestamp('yyyy-mm-dd')]: midnight of that day. *)
Definition Timestamp (y m d : Z) : Z := days_from_civil y m d * NS_PER_DAY.

(** [pd.isna] on one cell. *)
Definition isna (v : pyvalue) : bool :=
  match v with
  | PNone => true
  | PFloat f => is_nan f
  | _ => false
  end.

(** [for x in xs: body], threading the loop's state. *)
Fixpoint for_in {A S} (xs : list A) (body : A -> S -> result S) (s : S)
  : result S :=
  match xs with
  | [] => Ok s
  | x :: xs' => s' <- body x s ;; for_in xs' body s'
  end.

(** ** ArgoStreamProcessor.extract_profiles *)

Record Profile := {
  float_id : pystr;
  data_center : pystr;
  profile_id : nat;
  cycle_number : pyvalue;
  platform_number : pyvalue;
  latitude : pyvalue;
  longitude : pyvalue;
  juld : pyvalue;
  datetime : option Z
}.

Definition reference_date : Z := Timestamp 1950 1 1.

(** The span of [d] days on which every release agrees: the nanoseconds
    computed are a whole number of seconds, and both the span and the
    instant it leads to from the reference date fit the int64 of
    nanoseconds. *)
Definition agreed_span (d : spec_float) : option Z :=
  match whole (days_ns d) with
  | Some ns =>
    if (ns mod 10 ^ 9 =? 0) && in_ns_range ns
       && in_ns_range (reference_date + ns)
    then Some ns else None
  | None => None
  end.

(** [reference_date + pd.Timedelta(days=d)] *)
Definition add_days {lib : Installed} (d : spec_float) : result Z :=
  match agreed_span d with
  | Some ns => Ok (reference_date + ns)
  | None => timedelta_edge d
  end.

(** Lines 46-47: [reference_date + pd.Timedelta(days=float(juld))]. *)
Definition julian_to_timestamp {lib : Installed} (juld : pyvalue)
  : result Z :=
  d <- py_float juld ;;
  add_days d.

(** Lines 43-51: the Julian date as a datetime, None when it is missing,
    NaN, or cannot be converted. The test of line 44 is outside the [try]. *)
Definition juld_to_datetime {lib : Installed} (juld : pyvalue)
  : result (option Z) :=
  ok <- present_not_nan juld ;;
  if ok then
    try_except (t <- julian_to_timestamp juld ;; Ok (Some t)) (Ok None)
  else Ok None.

(** The body of the loop over [range(n_prof)]. *)
Definition build_profile {lib : Installed} (ds : Dataset) (fid dc : pystr)
    (i : nat)
  : result Profile :=
  cycle <- _get_value ds "CYCLE_NUMBER" (IInt i) ;;
  platform <- _get_value ds "PLATFORM_NUMBER" (IInt i) ;;
  lat <- _get_value ds "LATITUDE" (IInt i) ;;
  lon <- _get_value ds "LONGITUDE" (IInt i) ;;
  jd <- _get_value ds "JULD" (IInt i) ;;
  dt <- juld_to_datetime jd ;;
  Ok {| float_id := fid; data_center := dc; profile_id := i;
        cycle_number := cycle; platform_number := platform;
        latitude := lat; longitude := lon; juld := jd; datetime := dt |}.

Definition n_prof_of (ds : Dataset) : nat := default 1%nat (sizes ds !! "N_PROF").
Definition n_levels_of (ds : Dataset) : nat := default 0%nat (sizes ds !! "N_LEVELS").

(** The rows are the list [profiles_data] that line 55 hands to
    [pd.DataFrame], each cell the Python value the loop stored; the column
    typing of the frame is pandas' and is not modelled. *)
Definition extract_profiles {lib : Installed} (ds : Dataset) (fid dc : pystr)
  : result (list Profile) :=
  for_in (seq 0 (n_prof_of ds))
    (fun i profiles_data =>
       profile <- build_profile ds fid dc i ;;
       Ok (profiles_data ++ [profile]))
    [].

(** ** ArgoStreamProcessor.extract_measurements *)

Record Measurement := {
  meas_float_id : pystr;
  meas_profile_id : nat;
  level : nat;
  pressure : pyvalue;
  temperature : pyvalue;
  salinity : pyvalue
}.

(** The body of the inner loop: the row is appended only when its pressure
    passes the test of line 75. *)
Definition build_measurement (ds : Dataset) (fid : pystr)
    (prof_idx level_idx : nat) (measurements : list Measurement)
  : result (list Measurement) :=
  pres <- _get_value ds "PRES" (ITuple [prof_idx; level_idx]) ;;
  temp <- _get_value ds "TEMP" (ITuple [prof_idx; level_idx]) ;;
  psal <- _get_value ds "PSAL" (ITuple [prof_idx; level_idx]) ;;
  let meas := {| meas_float_id := fid; meas_profile_id := prof_idx;
                 level := level_idx; pressure := pres;
                 temperature := temp; salinity := psal |} in
  keep <- present_not_nan pres ;;
  if keep then Ok (measurements ++ [meas]) else Ok measurements.

(** [df.dropna(subset=['pressure','temperature','salinity'], how='all')] *)
Definition dropna_all (df : list Measurement) : list Measurement :=
  List.filter (fun m => negb (isna (pressure m) && isna (temperature m)
                         && isna (salinity m))) df.

(** The rows are the list [measurements] that line 78 hands to
    [pd.DataFrame], after the [dropna] of line 82, each cell the Python
    value the loop stored; the column typing of the frame is pandas' and
    is not modelled. *)
Definition extract_measurements (ds : Dataset) (fid : pystr)
  : result (list Measurement) :=
  measurements <-
    for_in (seq 0 (n_prof_of ds))
      (fun prof_idx =>
         for_in (seq 0 (n_levels_of ds))
           (fun level_idx => build_measurement ds fid prof_idx level_idx))
      [] ;;
  match measurements with
  | [] => Ok measurements
  | _ => Ok (dropna_all measurements)
  end.

(** ** Predicates of the statements *)

(** A value that is null or a scalar number. *)
Definition number_or_none (v : pyvalue) : Prop :=
  match v with
  | PNone | PFloat _ | PInt _ => True
  | _ => False
  end.

(** The claim's reading of a finite pressure: a scalar number, finite. *)
Definition finite_number (v : pyvalue) : bool :=
  match v with
  | PFloat f => is_finite f
  | PInt _ => true
  | _ => false
  end.

(** A row the test of line 75 lets through: its pressure is the value
    read at its (profile, level), and passes the test. *)
Definition row_kept (ds : Dataset) (m : Measurement) : Prop :=
  _get_value ds "PRES" (ITuple [meas_profile_id m; level m]) = Ok (pressure m)
  /\ present_not_nan (pressure m) = Ok true.

(** A profile row built by the loop body at the row's own index. *)
Definition row_built {lib : Installed} (ds : Dataset) (fid dc : pystr)
    (p : Profile) : Prop :=
  build_profile ds fid dc (profile_id p) = Ok p.

(** ** ArgoStreamProcessor.stream_to_sql and stream_to_parquet *)

(** The relational tables and the Parquet files, by file name. *)
Record Store := {
  profiles : list Profile;
  measurements : list Measurement;
  profile_files : gmap pystr (list Profile);
  measurement_files : gmap pystr (list Measurement)
}.

Definition empty_store : Store :=
  {| profiles := []; measurements := [];
     profile_files := ∅; measurement_files := ∅ |}.

(** What the storage back ends do with one unit's writes: each write goes
    through, or raises. *)
Record Backend := {
  sql_profiles : result unit;
  sql_measurements : result unit;
  parquet_profiles : result unit;
  parquet_measurements : result unit
}.

Definition healthy : Backend :=
  {| sql_profiles := Ok tt; sql_measurements := Ok tt;
     parquet_profiles := Ok tt; parquet_measurements := Ok tt |}.

(** A storing operation: the store it leaves, and how it ended. *)
Definition storing := (Store * result unit)%type.

Definition stream_to_sql {lib : Installed} (ds : Dataset) (fid dc : pystr)
    (be : Backend)
    (st : Store) : storing :=
  match extract_profiles ds fid dc with
  | Raise e => (st, Raise e)
  | Ok profiles_df =>
    match extract_measurements ds fid with
    | Raise e => (st, Raise e)
    | Ok measurements_df =>
      match profiles_df with
      | [] => (st, Ok tt)
      | _ =>
        match sql_profiles be with
        | Raise e => (st, Raise e)
        | Ok _ =>
          let st1 := {| profiles := profiles st ++ profiles_df;
                        measurements := measurements st;
                        profile_files := profile_files st;
                        measurement_files := measurement_files st |} in
          match measurements_df with
          | [] => (st1, Ok tt)
          | _ =>
            match sql_measurements be with
            | Raise e => (st1, Raise e)
            | Ok _ =>
              ({| profiles := profiles st1;
                  measurements := measurements st1 ++ measurements_df;
                  profile_files := profile_files st1;
                  measurement_files := measurement_files st1 |}, Ok tt)
            end
          end
        end
      end
    end
  end.

(** [f"profiles_{data_center}_{float_id}.parquet"] and its sibling. *)
Definition parquet_name (table dc fid : pystr) : pystr :=
  table ++ lit "_" ++ dc ++ lit "_" ++ fid ++ lit ".parquet".

Definition stream_to_parquet {lib : Installed} (ds : Dataset)
    (fid dc : pystr) (be : Backend)
    (st : Store) : storing :=
  match extract_profiles ds fid dc with
  | Raise e => (st, Raise e)
  | Ok profiles_df =>
    match extract_measurements ds fid with
    | Raise e => (st, Raise e)
    | Ok measurements_df =>
      let write_profiles : storing :=
        match profiles_df with
        | [] => (st, Ok tt)
        | _ =>
          match parquet_profiles be with
          | Raise e => (st, Raise e)
          | Ok _ =>
            ({| profiles := profiles st;
                measurements := measurements st;
                profile_files :=
                  <[parquet_name (lit "profiles") dc fid := profiles_df]>
                    (profile_files st);
                measurement_files := measurement_files st |}, Ok tt)
          end
        end in
      match write_profiles with
      | (st1, Raise e) => (st1, Raise e)
      | (st1, Ok _) =>
        match measurements_df with
        | [] => (st1, Ok tt)
        | _ =>
          match parquet_measurements be with
          | Raise e => (st1, Raise e)
          | Ok _ =>
            ({| profiles := profiles st1;
                measurements := measurements st1;
                profile_files := profile_files st1;
                measurement_files :=
                  <[parquet_name (lit "measurements") dc fid := measurements_df]>
                    (measurement_files st1) |}, Ok tt)
          end
        end
      end
    end
  end.

(** ** Text operations of the catalog client *)

Fixpoint startswith (p s : pystr) : bool :=
  match p, s with
  | [], _ => true
  | _ :: _, [] => false
  | a :: p', b :: s' => (a =? b)%N && startswith p' s'
  end.

(** [s.endswith(p)] *)
Definition endswith (p s : pystr) : bool := startswith (rev p) (rev s).

(** [p in s], for a pattern that is not empty. *)
Fixpoint contains (p s : pystr) : bool :=
  match s with
  | [] => startswith p []
  | _ :: s' => startswith p s || contains p s'
  end.

(** [s.partition(sep)]: the text before and after the leftmost [sep]. *)
Fixpoint partition (sep s : pystr) : option (pystr * pystr) :=
  if startswith sep s then Some ([], skipn (length sep) s)
  else
    match s with
    | [] => None
    | c :: s' =>
      match partition sep s' with
      | Some (before, after) => Some (c :: before, after)
      | None => None
      end
    end.

(** [s.split(sep)[1]]: what lies between the first and the second [sep]. *)
Definition split_second (sep s : pystr) : result pystr :=
  match partition sep s with
  | None => Raise IndexError
  | Some (_, after) =>
    match partition sep after with
    | Some (middle, _) => Ok middle
    | None => Ok after
    end
  end.

(** [x in xs] on a list of strings. *)
Definition str_in (x : pystr) (xs : list pystr) : bool :=
  existsb (fun y => if decide (x = y) then true else false) xs.

(** Code point order, which [sorted] uses on strings. *)
Fixpoint str_leb (a b : pystr) : bool :=
  match a, b with
  | [], _ => true
  | _ :: _, [] => false
  | x :: a', y :: b' => (x <? y)%N || (x =? y)%N && str_leb a' b'
  end.

Fixpoint insert_sorted (x : pystr) (xs : list pystr) : list pystr :=
  match xs with
  | [] => [x]
  | y :: ys => if str_leb x y then x :: xs else y :: insert_sorted x ys
  end.

(** [sorted(xs)] *)
Definition sorted (xs : list pystr) : list pystr :=
  fold_right insert_sorted [] xs.

(** [list(set(xs))], up to the order that [sorted] then fixes. *)
Fixpoint set_list (xs : list pystr) : list pystr :=
  match xs with
  | [] => []
  | x :: xs' => if str_in x xs' then set_list xs' else x :: set_list xs'
  end.

(** ** The remote catalog *)

(** What BeautifulSoup hands to the client: an anchor with its [href]
    attribute and its text; an image with its [alt] attribute and, when it
    has an enclosing table row, the first anchor of that row. *)
Record Anchor := {
  href : option pystr;
  text : pystr
}.

Record Img := {
  alt : option pystr;
  parent_tr : option (option Anchor)
}.

Record Soup := {
  imgs : list Img;
  anchors : list Anchor
}.

(** An HTTP response: its status, and what parsing its body gives. *)
Record Response := {
  status_code : Z;
  parsed : result Soup
}.

(** The remote side: [session.get(url, timeout=30)] returns a response or
    raises (connection error, timeout, retries exhausted). *)
Definition Web := pystr -> result Response.

(** [response.raise_for_status()] *)
Definition raise_for_status (r : Response) : result unit :=
  if (400 <=? status_code r) && (status_code r <? 600) then Raise HTTPError
  else Ok tt.

(** The first three statements of each [try] block of the client. *)
Definition fetch_page (web : Web) (url : pystr) : result Soup :=
  response <- web url ;;
  _ <- raise_for_status response ;;
  parsed response.

(** A network or parse failure on a page: the request raises, the status
    is an error status, or the body does not parse. *)
Definition page_fails (web : Web) (url : pystr) : Prop :=
  (exists e, web url = Raise e)
  \/ (exists r, web url = Ok r /\ 400 <= status_code r < 600)
  \/ (exists r e, web url = Ok r /\ parsed r = Raise e).

(** ** ArgoAPIClient *)

Record ArgoAPIClient := {
  base_url : pystr
}.

Definition catalog_base (self : ArgoAPIClient) : pystr :=
  base_url self ++ lit "/catalog/argo/gadr".

Definition opendap_base (self : ArgoAPIClient) : pystr :=
  base_url self ++ lit "/dodsC/argo/gadr".

Definition default_client : ArgoAPIClient :=
  {| base_url := lit "https://www.ncei.noaa.gov/thredds-ocean" |}.

(** [img.get('alt') in ['[DIR]', 'Folder']] *)
Definition is_dir (img : Img) : bool :=
  match alt img with
  | Some a => str_in a [lit "[DIR]"; lit "Folder"]
  | None => false
  end.

(** The name of a directory entry: [link.text.strip().strip('/')] of the
    first anchor of the image's row, when all three exist. *)
Definition entry_name (img : Img) : option pystr :=
  if is_dir img then
    match parent_tr img with
    | Some (Some link) =>
      Some (strip_with (fun c => (c =? 47)%N) (strip (text link)))
    | _ => None
    end
  else None.

Definition known_centers : list pystr :=
  map lit ["aoml"; "atlantic"; "bodc"; "coriolis"; "csio"; "csiro";
           "incois"; "indian"; "jma"; "kiost"; "kma"; "kordi";
           "meds"; "nmdis"; "pacific"]%string.

(** The loop of lines 42-51. *)
Fixpoint scan_centers (l : list Img) (centers : list pystr) : list pystr :=
  match l with
  | [] => centers
  | img :: l' =>
    match entry_name img with
    | Some center_name =>
      if negb (bool_decide (center_name = [])) && negb (str_in center_name centers)
      then scan_centers l' (centers ++ [center_name])
      else scan_centers l' centers
    | None => scan_centers l' centers
    end
  end.

Definition list_data_centers (self : ArgoAPIClient) (web : Web)
  : result (list pystr) :=
  let catalog_url := catalog_base self ++ lit "/catalog.html" in
  try_except
    (soup <- fetch_page web catalog_url ;;
     let centers := scan_centers (imgs soup) [] in
     Ok (sorted (set_list centers)))
    (Ok known_centers).

Section Digits.

(** The Unicode table behind [str.isdigit], for one character. *)
Variable isdigit_char : N -> bool.

(** [s.isdigit()] *)
Definition isdigit (s : pystr) : bool :=
  negb (bool_decide (s = [])) && forallb isdigit_char s.

(** [max_floats and len(floats) >= max_floats] *)
Definition reached (max_floats : option Z) (floats : list pystr) : bool :=
  match max_floats with
  | Some n => negb (n =? 0) && (n <=? Z.of_nat (length floats))
  | None => false
  end.

(** The loop of lines 72-83, which [break]s once enough ids are found. *)
Fixpoint scan_floats (max_floats : option Z) (l : list Img)
    (floats : list pystr) : list pystr :=
  match l with
  | [] => floats
  | img :: l' =>
    match entry_name img with
    | Some float_id =>
      if isdigit float_id then
        let floats' := floats ++ [float_id] in
        if reached max_floats floats' then floats'
        else scan_floats max_floats l' floats'
      else scan_floats max_floats l' floats
    | None => scan_floats max_floats l' floats
    end
  end.

Definition list_floats (self : ArgoAPIClient) (web : Web)
    (data_center : pystr) (max_floats : option Z) : result (list pystr) :=
  let catalog_url :=
    catalog_base self ++ lit "/" ++ data_center ++ lit "/catalog.html" in
  try_except
    (soup <- fetch_page web catalog_url ;;
     let floats := scan_floats max_floats (imgs soup) [] in
     Ok (sorted floats))
    (Ok []).

End Digits.

(** [link.get('href', '')] *)
Definition href_of (link : Anchor) : pystr := default [] (href link).

(** The test of lines 105 and 108 together: a catalog link to a profile
    file that carries a dataset path. *)
Definition dataset_link (link : Anchor) : bool :=
  contains (lit "prof.nc") (href_of link)
  && contains (lit "catalog.html") (href_of link)
  && contains (lit "dataset=") (href_of link).

(** The test of line 115. *)
Definition profile_text (link : Anchor) : bool :=
  endswith (lit "prof.nc") (strip (text link)).

(** The loop of lines 103-110: the URL of the first dataset link. *)
Fixpoint first_dataset_url (self : ArgoAPIClient) (l : list Anchor)
  : result (option pystr) :=
  match l with
  | [] => Ok None
  | link :: l' =>
    if dataset_link link then
      dataset_path <- split_second (lit "dataset=") (href_of link) ;;
      Ok (Some (base_url self ++ lit "/dodsC/" ++ dataset_path))
    else first_dataset_url self l'
  end.

(** The loop of lines 113-117: the URL of the first link whose text names
    a profile file. *)
Fixpoint first_text_url (self : ArgoAPIClient) (dc fid : pystr)
    (l : list Anchor) : option pystr :=
  match l with
  | [] => None
  | link :: l' =>
    if profile_text link then
      Some (opendap_base self ++ lit "/" ++ dc ++ lit "/" ++ fid
            ++ lit "/" ++ strip (text link))
    else first_text_url self dc fid l'
  end.

(** Line 123: the standard name, with the unit id as the file's stem. *)
Definition standard_url (self : ArgoAPIClient) (dc fid : pystr) : pystr :=
  opendap_base self ++ lit "/" ++ dc ++ lit "/" ++ fid ++ lit "/" ++ fid
  ++ lit "_prof.nc".

(** Line 96: the unit's own catalog page. *)
Definition unit_catalog_url (self : ArgoAPIClient) (dc fid : pystr) : pystr :=
  catalog_base self ++ lit "/" ++ dc ++ lit "/" ++ fid ++ lit "/catalog.html".

(** The body of the [try]: the URL it returns, or None when it falls
    through to the statement after the [try]. *)
Definition resolve_from_catalog (self : ArgoAPIClient) (web : Web)
    (dc fid : pystr) : result (option pystr) :=
  let catalog_url := unit_catalog_url self dc fid in
  soup <- fetch_page web catalog_url ;;
  found <- first_dataset_url self (anchors soup) ;;
  match found with
  | Some url => Ok (Some url)
  | None => Ok (first_text_url self dc fid (anchors soup))
  end.

Definition get_opendap_url (self : ArgoAPIClient) (web : Web)
    (dc fid : pystr) : result pystr :=
  match resolve_from_catalog self web dc fid with
  | Ok (Some url) => Ok url
  | Ok None | Raise _ => Ok (standard_url self dc fid)
  end.

(** ** The pipeline runner: stream_multiple_floats

    The run is a transition system over the threads of the function: the
    main thread, the pool's fetch workers and the writer thread, one step
    of one thread at a time. What lies outside the program (the archive,
    the storage back ends) is given by an environment. The constructors
    of lines 27-28 and the starting of threads are taken to succeed. *)

(** What one fetch worker meets on the remote side. *)
Record FetchEnv := {
  fetch_float_data : option Dataset * option pystr;
  has_data_vars : bool;
  load : result unit;
  download_file : option pystr;
  open_downloaded : result Dataset
}.

(** [fetch_worker]: the dataset it puts on the queue, or None when it
    returns False. [if ds:] is the truth value of a Dataset, which holds
    when the dataset has data variables; a streamed handle is loaded, and
    on a failed load the file is downloaded and opened instead. *)
Definition fetch_worker (w : FetchEnv) : option Dataset :=
  match fetch_float_data w with
  | (Some ds, local_file) =>
    if has_data_vars w then
      match local_file with
      | Some _ => Some ds
      | None =>
        match load w with
        | Ok _ => Some ds
        | Raise _ =>
          match download_file w with
          | Some _ =>
            match open_downloaded w with
            | Ok ds' => Some ds'
            | Raise _ => None
            end
          | None => None
          end
        end
      end
    else None
  | (None, _) => None
  end.

Record RunEnv := {
  env_installed : Installed;
  env_isdigit : N -> bool;
  env_web : Web;
  env_data_center : pystr;
  env_num_floats : Z;
  env_save_parquet : bool;
  env_fetch : pystr -> FetchEnv;
  env_backend : nat -> Backend;
  env_create_indexes : result unit
}.

(** The messages of [write_queue]. *)
Inductive Message :=
| DATA (fid : pystr) (ds : Dataset)
| DONE.

(** Lines 64-77: one unit written by the writer; whether it counted as a
    success. [n] numbers the writes, for the environment. *)
Definition write_unit (env : RunEnv) (n : nat) (fid : pystr) (ds : Dataset)
    (st : Store) : Store * bool :=
  match stream_to_sql (lib := env_installed env) ds fid (env_data_center env)
          (env_backend env n) st with
  | (st1, Raise _) => (st1, false)
  | (st1, Ok _) =>
    if env_save_parquet env then
      match stream_to_parquet (lib := env_installed env) ds fid
              (env_data_center env) (env_backend env n) st1 with
      | (st2, Raise _) => (st2, false)
      | (st2, Ok _) => (st2, true)
      end
    else (st1, true)
  end.

(** Where the main thread is. *)
Inductive MainPc :=
| MStart                (* before [api.list_floats] *)
| MDispatch             (* writer started, pool running *)
| MSignalled            (* DONE put, waiting in [writer_thread.join()] *)
| MJoined               (* before the test of line 158 *)
| MIndexed              (* before the report of line 161 *)
| MReturned             (* the function returned *)
| MRaised (e : exn).    (* an exception left the function *)

(** Where the writer thread is: not started, at the head of its loop with
    its [active] flag, writing one unit, or finished. *)
Inductive WriterPc :=
| WNotStarted
| WLoop (active : bool)
| WWriting (active : bool) (fid : pystr) (ds : Dataset)
| WFinished.

(** What the run does that an observer can see. *)
Inductive Event :=
| ENoFloats
| EWriteBegin (fid : pystr)
| EWriteEnd (fid : pystr) (ok : bool)
| EIndex
| EReport (succeeded attempted : nat).

Inductive Thread :=
| TMain
| TWorker
| TWriter.

Record RunState := {
  main : MainPc;
  floats : list pystr;          (* the units listed *)
  pending : list pystr;         (* submitted, not yet picked by a worker *)
  running : list pystr;         (* being fetched *)
  fetched : nat;                (* workers that returned True *)
  failed : nat;                 (* workers that returned False *)
  queue : list Message;           (* write_queue, oldest first *)
  writer : WriterPc;
  store : Store;
  success_count : nat;
  log : list Event              (* oldest first *)
}.

Definition max_workers : nat := 5.

(** The start of a run over an empty database and an empty Parquet
    directory; [start_state], further down, starts a run over any
    store. *)
Definition init_state : RunState :=
  {| main := MStart; floats := []; pending := []; running := [];
     fetched := 0; failed := 0; queue := []; writer := WNotStarted;
     store := empty_store; success_count := 0; log := [] |}.

(** The writes begun and ended so far. *)
Definition begins (l : list Event) : nat :=
  length (List.filter (fun e => match e with EWriteBegin _ => true | _ => false end) l).

Definition ends (l : list Event) : nat :=
  length (List.filter (fun e => match e with EWriteEnd _ _ => true | _ => false end) l).

(** The times [create_indexes] was invoked. *)
Definition indexings (l : list Event) : nat :=
  length (List.filter (fun e => match e with EIndex => true | _ => false end) l).

Section Run.

Variable env : RunEnv.

Definition list_units : result (list pystr) :=
  list_floats (env_isdigit env) default_client (env_web env)
    (env_data_center env) (Some (env_num_floats env)).

Inductive step : RunState -> Thread -> RunState -> Prop :=
(* lines 32-36: no unit listed, the function returns *)
| main_no_floats s :
    main s = MStart -> list_units = Ok [] ->
    step s TMain
      {| main := MReturned; floats := []; pending := pending s;
         running := running s; fetched := fetched s; failed := failed s;
         queue := queue s; writer := writer s; store := store s;
         success_count := success_count s; log := log s ++ [ENoFloats] |}
| main_list_raises s e :
    main s = MStart -> list_units = Raise e ->
    step s TMain
      {| main := MRaised e; floats := floats s; pending := pending s;
         running := running s; fetched := fetched s; failed := failed s;
         queue := queue s; writer := writer s; store := store s;
         success_count := success_count s; log := log s |}
(* lines 141-147: the writer thread is started, every unit submitted *)
| main_dispatch s f fs :
    main s = MStart -> list_units = Ok (f :: fs) ->
    step s TMain
      {| main := MDispatch; floats := f :: fs; pending := f :: fs;
         running := running s; fetched := fetched s; failed := failed s;
         queue := queue s; writer := WLoop true; store := store s;
         success_count := success_count s; log := log s |}
(* lines 149-154: every future completed, DONE is put *)
| main_signal s :
    main s = MDispatch -> pending s = [] -> running s = [] ->
    step s TMain
      {| main := MSignalled; floats := floats s; pending := pending s;
         running := running s; fetched := fetched s; failed := failed s;
         queue := queue s ++ [DONE]; writer := writer s; store := store s;
         success_count := success_count s; log := log s |}
(* line 155: the join returns once the writer thread has finished *)
| main_join s :
    main s = MSignalled -> writer s = WFinished ->
    step s TMain
      {| main := MJoined; floats := floats s; pending := pending s;
         running := running s; fetched := fetched s; failed := failed s;
         queue := queue s; writer := writer s; store := store s;
         success_count := success_count s; log := log s |}
(* lines 158-159 *)
| main_index s :
    main s = MJoined -> (0 < success_count s)%nat ->
    step s TMain
      {| main := match env_create_indexes env with
                 | Ok _ => MIndexed
                 | Raise e => MRaised e
                 end;
         floats := floats s; pending := pending s;
         running := running s; fetched := fetched s; failed := failed s;
         queue := queue s; writer := writer s; store := store s;
         success_count := success_count s; log := log s ++ [EIndex] |}
| main_no_index s :
    main s = MJoined -> success_count s = 0%nat ->
    step s TMain
      {| main := MIndexed; floats := floats s; pending := pending s;
         running := running s; fetched := fetched s; failed := failed s;
         queue := queue s; writer := writer s; store := store s;
         success_count := success_count s; log := log s |}
(* line 161 *)
| main_report s :
    main s = MIndexed ->
    step s TMain
      {| main := MReturned; floats := floats s; pending := pending s;
         running := running s; fetched := fetched s; failed := failed s;
         queue := queue s; writer := writer s; store := store s;
         success_count := success_count s;
         log := log s ++ [EReport (success_count s) (length (floats s))] |}
(* a free worker of the pool picks the next submitted unit *)
| worker_start s fid rest :
    pending s = fid :: rest -> (length (running s) < max_workers)%nat ->
    step s TWorker
      {| main := main s; floats := floats s; pending := rest;
         running := running s ++ [fid]; fetched := fetched s;
         failed := failed s; queue := queue s; writer := writer s;
         store := store s; success_count := success_count s; log := log s |}
(* lines 127-135: the dataset is put on the queue *)
| worker_put s r1 fid r2 ds :
    running s = r1 ++ fid :: r2 ->
    fetch_worker (env_fetch env fid) = Some ds ->
    step s TWorker
      {| main := main s; floats := floats s; pending := pending s;
         running := r1 ++ r2; fetched := S (fetched s); failed := failed s;
         queue := queue s ++ [DATA fid ds]; writer := writer s;
         store := store s; success_count := success_count s; log := log s |}
(* the worker returns False, nothing is put *)
| worker_fail s r1 fid r2 :
    running s = r1 ++ fid :: r2 ->
    fetch_worker (env_fetch env fid) = None ->
    step s TWorker
      {| main := main s; floats := floats s; pending := pending s;
         running := r1 ++ r2; fetched := fetched s; failed := S (failed s);
         queue := queue s; writer := writer s;
         store := store s; success_count := success_count s; log := log s |}
(* lines 48-51, 79-80: the get times out on an empty queue *)
| writer_timeout s :
    writer s = WLoop true -> queue s = [] ->
    step s TWriter s
(* line 48: the loop ends *)
| writer_exit s :
    writer s = WLoop false -> queue s = [] ->
    step s TWriter
      {| main := main s; floats := floats s; pending := pending s;
         running := running s; fetched := fetched s; failed := failed s;
         queue := queue s; writer := WFinished; store := store s;
         success_count := success_count s; log := log s |}
(* lines 55-58 *)
| writer_done s active q :
    writer s = WLoop active -> queue s = DONE :: q ->
    step s TWriter
      {| main := main s; floats := floats s; pending := pending s;
         running := running s; fetched := fetched s; failed := failed s;
         queue := q; writer := WLoop false; store := store s;
         success_count := success_count s; log := log s |}
(* lines 60-62: a DATA item is taken *)
| writer_take s active fid ds q :
    writer s = WLoop active -> queue s = DATA fid ds :: q ->
    step s TWriter
      {| main := main s; floats := floats s; pending := pending s;
         running := running s; fetched := fetched s; failed := failed s;
         queue := q; writer := WWriting active fid ds; store := store s;
         success_count := success_count s;
         log := log s ++ [EWriteBegin fid] |}
(* lines 64-77: the unit is written *)
| writer_write s active fid ds :
    writer s = WWriting active fid ds ->
    step s TWriter
      (let (st, ok) := write_unit env (ends (log s)) fid ds (store s) in
       {| main := main s; floats := floats s; pending := pending s;
          running := running s; fetched := fetched s; failed := failed s;
          queue := queue s; writer := WLoop active; store := st;
          success_count := if ok then S (success_count s)
                           else success_count s;
          log := log s ++ [EWriteEnd fid ok] |}).

(** The states a run can be in. *)
Inductive reachable : RunState -> Prop :=
| reach_init : reachable init_state
| reach_step s t s' : reachable s -> step s t s' -> reachable s'.

End Run.

(** The run is over. *)
Definition terminal (s : RunState) : Prop :=
  match main s with
  | MReturned | MRaised _ => True
  | _ => False
  end.

(** ** Predicates on runs *)

Definition datas (q : list Message) : nat :=
  length (List.filter (fun m => match m with DATA _ _ => true | DONE => false end) q).

Definition dones (q : list Message) : nat :=
  length (List.filter (fun m => match m with DONE => true | _ => false end) q).

(** The unit the writer is in the middle of writing, if any. *)
Definition writing (w : WriterPc) : option pystr :=
  match w with
  | WWriting _ fid _ => Some fid
  | _ => None
  end.

Definition writes_open (w : WriterPc) : nat :=
  match w with
  | WWriting _ _ _ => 1
  | _ => 0
  end.

(** The writer's [active] flag still holds. *)
Definition writer_active (w : WriterPc) : Prop :=
  match w with
  | WLoop true | WWriting true _ _ => True
  | _ => False
  end.

(** A scan of the log for overlapping writes: the unit whose write is
    open, or a failure when a write begins inside another or ends without
    having begun. *)
Definition scan_event (st : option (option pystr)) (e : Event)
  : option (option pystr) :=
  match st, e with
  | Some None, EWriteBegin f => Some (Some f)
  | Some (Some _), EWriteBegin _ => None
  | Some (Some g), EWriteEnd f _ => if decide (f = g) then Some None else None
  | Some None, EWriteEnd _ _ => None
  | _, _ => st
  end.

Definition scan (l : list Event) : option (option pystr) :=
  fold_left scan_event l (Some None).

(** No two writes of the log overlap in time. *)
Definition serial (l : list Event) : Prop := exists o, scan l = Some o.

(** Every worker is done, the queue is empty and the writer has finished. *)
Definition drained (s : RunState) : Prop :=
  pending s = [] /\ running s = [] /\ queue s = [] /\ writer s = WFinished.

(** What holds of a run at each point of the main thread. *)
Definition phase (env : RunEnv) (s : RunState) : Prop :=
  match main s with
  | MStart => s = init_state
  | MDispatch =>
    floats s <> [] /\ writer_active (writer s) /\ dones (queue s) = 0%nat
    /\ indexings (log s) = 0%nat
  | MSignalled =>
    floats s <> [] /\ pending s = [] /\ running s = []
    /\ indexings (log s) = 0%nat
    /\ ((writer_active (writer s)
         /\ exists q, queue s = q ++ [DONE] /\ dones q = 0%nat)
        \/ ((writer s = WLoop false \/ writer s = WFinished)
            /\ queue s = []))
  | MJoined => floats s <> [] /\ drained s /\ indexings (log s) = 0%nat
  | MIndexed =>
    floats s <> [] /\ drained s
    /\ ((indexings (log s) = 1%nat /\ (0 < success_count s)%nat)
        \/ (indexings (log s) = 0%nat /\ success_count s = 0%nat))
  | MReturned =>
    (floats s = [] /\ writer s = WNotStarted /\ log s = [ENoFloats]
     /\ store s = empty_store /\ success_count s = 0%nat)
    \/ (floats s <> [] /\ drained s
        /\ ((indexings (log s) = 1%nat /\ (0 < success_count s)%nat)
            \/ (indexings (log s) = 0%nat /\ success_count s = 0%nat))
        /\ exists l, log s = l ++ [EReport (success_count s)
                                           (length (floats s))])
  | MRaised e =>
    (list_units env = Raise e /\ floats s = [] /\ writer s = WNotStarted
     /\ log s = [] /\ store s = empty_store)
    \/ (floats s <> [] /\ drained s /\ indexings (log s) = 1%nat
        /\ (0 < success_count s)%nat /\ env_create_indexes env = Raise e)
  end.

(** The invariant of a run. *)
Definition run_invariant (env : RunEnv) (s : RunState) : Prop :=
  (length (pending s) + length (running s) + fetched s + failed s
   = length (floats s))%nat
  /\ (length (running s) <= max_workers)%nat
  /\ (begins (log s) + datas (queue s) = fetched s)%nat
  /\ (begins (log s) = ends (log s) + writes_open (writer s))%nat
  /\ (success_count s <= ends (log s))%nat
  /\ scan (log s) = Some (writing (writer s))
  /\ phase env s.

(** Several steps of a run. *)
Inductive steps (env : RunEnv) : RunState -> RunState -> Prop :=
| steps_refl s : steps env s s
| steps_cons s t s1 s' : step env s t s1 -> steps env s1 s' -> steps env s s'.

(** What is left of a run, at most: every step but the writer's timeout
    lowers it. *)
Definition main_rank (env : RunEnv) (m : MainPc) : nat :=
  match m with
  | MStart =>
    match list_units env with
    | Ok fs => 4 * length fs + 20
    | Raise _ => 20
    end
  | MDispatch => 10
  | MSignalled => 5
  | MJoined => 3
  | MIndexed => 2
  | MReturned | MRaised _ => 0
  end.

Definition writer_rank (w : WriterPc) : nat :=
  match w with
  | WLoop true => 3
  | WWriting true _ _ => 4
  | WLoop false => 1
  | WWriting false _ _ => 2
  | WNotStarted | WFinished => 0
  end.

Definition remaining (env : RunEnv) (s : RunState) : nat :=
  main_rank env (main s) + 4 * length (pending s) + 3 * length (running s)
  + 2 * datas (queue s) + dones (queue s) + writer_rank (writer s).

(** ** One schedule of a run

    The schedule that lets every worker fetch, one at a time, and then the
    writer drain the queue: the next state under it, None when the run is
    over or the chosen thread can only wait. *)
Definition next (env : RunEnv) (s : RunState) : option RunState :=
  match main s with
  | MStart =>
    match list_units env with
    | Ok [] =>
      Some {| main := MReturned; floats := []; pending := pending s;
              running := running s; fetched := fetched s; failed := failed s;
              queue := queue s; writer := writer s; store := store s;
              success_count := success_count s;
              log := log s ++ [ENoFloats] |}
    | Ok (f :: fs) =>
      Some {| main := MDispatch; floats := f :: fs; pending := f :: fs;
              running := running s; fetched := fetched s; failed := failed s;
              queue := queue s; writer := WLoop true; store := store s;
              success_count := success_count s; log := log s |}
    | Raise e =>
      Some {| main := MRaised e; floats := floats s; pending := pending s;
              running := running s; fetched := fetched s; failed := failed s;
              queue := queue s; writer := writer s; store := store s;
              success_count := success_count s; log := log s |}
    end
  | MDispatch =>
    match running s with
    | fid :: r2 =>
      match fetch_worker (env_fetch env fid) with
      | Some ds =>
        Some {| main := main s; floats := floats s; pending := pending s;
                running := r2; fetched := S (fetched s); failed := failed s;
                queue := queue s ++ [DATA fid ds]; writer := writer s;
                store := store s; success_count := success_count s;
                log := log s |}
      | None =>
        Some {| main := main s; floats := floats s; pending := pending s;
                running := r2; fetched := fetched s; failed := S (failed s);
                queue := queue s; writer := writer s;
                store := store s; success_count := success_count s;
                log := log s |}
      end
    | [] =>
      match pending s with
      | fid :: rest =>
        Some {| main := main s; floats := floats s; pending := rest;
                running := running s ++ [fid]; fetched := fetched s;
                failed := failed s; queue := queue s; writer := writer s;
                store := store s; success_count := success_count s;
                log := log s |}
      | [] =>
        Some {| main := MSignalled; floats := floats s; pending := pending s;
                running := running s; fetched := fetched s;
                failed := failed s; queue := queue s ++ [DONE];
                writer := writer s; store := store s;
                success_count := success_count s; log := log s |}
      end
    end
  | MSignalled =>
    match writer s with
    | WWriting active fid ds =>
      Some (let (st, ok) := write_unit env (ends (log s)) fid ds (store s) in
            {| main := main s; floats := floats s; pending := pending s;
               running := running s; fetched := fetched s; failed := failed s;
               queue := queue s; writer := WLoop active; store := st;
               success_count := if ok then S (success_count s)
                                else success_count s;
               log := log s ++ [EWriteEnd fid ok] |})
    | WLoop active =>
      match queue s with
      | DATA fid ds :: q =>
        Some {| main := main s; floats := floats s; pending := pending s;
                running := running s; fetched := fetched s;
                failed := failed s; queue := q;
                writer := WWriting active fid ds; store := store s;
                success_count := success_count s;
                log := log s ++ [EWriteBegin fid] |}
      | DONE :: q =>
        Some {| main := main s; floats := floats s; pending := pending s;
                running := running s; fetched := fetched s;
                failed := failed s; queue := q; writer := WLoop false;
                store := store s; success_count := success_count s;
                log := log s |}
      | [] =>
        if active then None
        else
          Some {| main := main s; floats := floats s; pending := pending s;
                  running := running s; fetched := fetched s;
                  failed := failed s; queue := queue s; writer := WFinished;
                  store := store s; success_count := success_count s;
                  log := log s |}
      end
    | WFinished =>
      Some {| main := MJoined; floats := floats s; pending := pending s;
              running := running s; fetched := fetched s; failed := failed s;
              queue := queue s; writer := writer s; store := store s;
              success_count := success_count s; log := log s |}
    | WNotStarted => None
    end
  | MJoined =>
    match success_count s with
    | O =>
      Some {| main := MIndexed; floats := floats s; pending := pending s;
              running := running s; fetched := fetched s; failed := failed s;
              queue := queue s; writer := writer s; store := store s;
              success_count := success_count s; log := log s |}
    | S _ =>
      Some {| main := match env_create_indexes env with
                      | Ok _ => MIndexed
                      | Raise e => MRaised e
                      end;
              floats := floats s; pending := pending s;
              running := running s; fetched := fetched s; failed := failed s;
              queue := queue s; writer := writer s; store := store s;
              success_count := success_count s; log := log s ++ [EIndex] |}
    end
  | MIndexed =>
    Some {| main := MReturned; floats := floats s; pending := pending s;
            running := running s; fetched := fetched s; failed := failed s;
            queue := queue s; writer := writer s; store := store s;
            success_count := success_count s;
            log := log s ++ [EReport (success_count s) (length (floats s))] |}
  | MReturned | MRaised _ => None
  end.

(** [n] steps of the schedule. *)
Fixpoint run (env : RunEnv) (n : nat) (s : RunState) : RunState :=
  match n with
  | O => s
  | S n' =>
    match next env s with
    | Some s' => run env n' s'
    | None => s
    end
  end.

(** ** Sample datasets *)

(** ** Sample installations *)

(** [int(x)]: the float cut to a whole number. *)
Definition truncated (x : spec_float) : result Z :=
  match x with
  | S754_zero _ => Ok 0
  | S754_finite s m e =>
    Ok ((if s then -1 else 1)
        * (if 0 <=? e then Z.pos m * 2 ^ e else Z.pos m / 2 ^ (- e)))
  | S754_infinity _ => Raise OverflowError
  | S754_nan => Raise ValueError
  end.

(** An installation whose pandas cuts a span to whole nanoseconds and
    refuses what 64-bit nanoseconds cannot hold, and whose numpy converts
    a one-element array. *)
Definition lib_narrow : Installed :=
  {| float_of_array := true;
     timedelta_edge := fun d =>
       ns <- truncated (days_ns d) ;;
       if in_ns_range ns then
         if in_ns_range (reference_date + ns)
         then Ok (reference_date + ns) else Raise OutOfBoundsDatetime
       else Raise OverflowError |}.


Definition bytes_of (s : string) : pybytes := String.list_byte_of_string s.

(** Two profiles of three levels, every pressure valid. *)
Definition ds_argo : Dataset :=
  {| sizes := {[ "N_PROF"%string := 2%nat; "N_LEVELS"%string := 3%nat ]};
     variables := {[
       "PRES"%string :=
         FloatArray (Axis [Axis [Item f_15_3; Item f_100; Item f_99999_9];
                           Axis [Item f_15_3; Item f_100; Item f_100]]);
       "TEMP"%string :=
         FloatArray (Axis [Axis [Item f_15_3; Item S754_nan; Item f_1e12];
                           Axis [Item f_15_3; Item f_100; Item f_100]]);
       "JULD"%string := FloatArray (Axis [Item f_100; Item S754_nan]);
       "CYCLE_NUMBER"%string := IntArray (Axis [Item 1; Item 2]);
       "PLATFORM_NUMBER"%string :=
         BytesArray (Axis [Item (bytes_of "1900722 "); Item [Byte.xff]])
     ]} |}.

(** The same pressures, with a JULD variable that holds text. *)
Definition ds_text_juld : Dataset :=
  {| sizes := sizes ds_argo;
     variables :=
       <["JULD"%string :=
           BytesArray (Axis [Item (bytes_of "n/a"); Item (bytes_of "n/a")])]>
         (variables ds_argo) |}.

(** No dimension and no variable at all. *)
Definition ds_empty : Dataset := {| sizes := ∅; variables := ∅ |}.

(** No N_PROF dimension, and a JULD variable over some other dimension
    that holds text. *)
Definition ds_text_only : Dataset :=
  {| sizes := {[ "N"%string := 1%nat ]};
     variables :=
       {[ "JULD"%string := BytesArray (Axis [Item (bytes_of "n/a")]) ]} |}.

(** A PRES variable with a third axis of length one, holding an infinity. *)
Definition ds_deep_pres : Dataset :=
  {| sizes := {[ "N_PROF"%string := 1%nat; "N_LEVELS"%string := 1%nat;
                 "N_PARAM"%string := 1%nat ]};
     variables :=
       {[ "PRES"%string :=
            FloatArray (Axis [Axis [Axis [Item (S754_infinity false)]]]) ]} |}.




Definition fid0 : pystr := lit "1900722".
Definition dc0 : pystr := lit "aoml".

(** The measurement rows of [ds_argo], and the first row of its second
    profile. *)
Definition ms_argo : list Measurement :=
  Eval vm_compute in
    match extract_measurements ds_argo fid0 with
    | Ok rows => rows
    | Raise _ => []
    end.

Definition m_argo : Measurement :=
  {| meas_float_id := fid0; meas_profile_id := 1; level := 0;
     pressure := PFloat f_15_3; temperature := PFloat f_15_3;
     salinity := PNone |}.

(** The profile rows of [ds_argo], and the first of them. *)
Definition ps_argo : list Profile :=
  Eval vm_compute in
    match extract_profiles (lib := lib_narrow) ds_argo fid0 dc0 with
    | Ok rows => rows
    | Raise _ => []
    end.




(** The row that a dataset without any variable yields. *)
Definition p_null : Profile :=
  {| float_id := fid0; data_center := dc0; profile_id := 0;
     cycle_number := PNone; platform_number := PNone;
     latitude := PNone; longitude := PNone; juld := PNone;
     datetime := None |}.

(** ** Sample catalogs *)

(** An archive that cannot be reached. *)
Definition web_down : Web := fun _ => Raise RequestException.

(** An archive that answers every request with status 404. *)
Definition web_404 : Web :=
  fun _ => Ok {| status_code := 404;
                 parsed := Ok {| imgs := []; anchors := [] |} |}.

(** A unit page whose links name no profile file. *)
Definition web_plain : Web :=
  fun _ => Ok {| status_code := 200;
                 parsed := Ok {| imgs := [];
                                 anchors := [ {| href := Some (lit "catalog.html");
                                                 text := lit "gadr" |};
                                              {| href := None;
                                                 text := lit "1900722_meta.nc" |} ] |} |}.

(** A unit page in the THREDDS layout, the profile file carrying a vendor
    prefix. *)
Definition web_thredds : Web :=
  fun _ => Ok {| status_code := 200;
                 parsed := Ok {| imgs := [];
                                 anchors := [ {| href := Some (lit "catalog.html?dataset=argo/gadr/aoml/1900722/nodc_1900722_prof.nc");
                                                 text := lit "nodc_1900722_prof.nc" |} ] |} |}.

(** A listing page with two directories, a file and a stray image. *)
Definition web_listing : Web :=
  fun _ => Ok {| status_code := 200;
                 parsed := Ok {| imgs := [ {| alt := Some (lit "[DIR]");
                                              parent_tr := Some (Some {| href := None; text := lit " 5900001/ " |}) |};
                                           {| alt := Some (lit "Folder");
                                              parent_tr := Some (Some {| href := None; text := lit "1900722/" |}) |};
                                           {| alt := Some (lit "[TXT]");
                                              parent_tr := Some (Some {| href := None; text := lit "readme" |}) |};
                                           {| alt := None; parent_tr := None |};
                                           {| alt := Some (lit "[DIR]");
                                              parent_tr := Some (Some {| href := None; text := lit "docs/" |}) |} ];
                                 anchors := [] |} |}.

(** The ASCII digits, standing in for the Unicode table in examples. *)
Definition ascii_digit (c : N) : bool := ((48 <=? c) && (c <=? 57))%N.

(** ** Sample runs *)

(** Two units are listed; the first is fetched, the second fails both
    tiers; storage is healthy. *)
Definition env_two : RunEnv :=
  {| env_installed := lib_narrow;
     env_isdigit := ascii_digit;
     env_web := web_listing;
     env_data_center := dc0;
     env_num_floats := 10;
     env_save_parquet := true;
     env_fetch := fun fid =>
       if decide (fid = fid0)
       then {| fetch_float_data := (Some ds_argo, None);
               has_data_vars := true; load := Ok tt;
               download_file := None; open_downloaded := Raise OSError |}
       else {| fetch_float_data := (None, None);
               has_data_vars := false; load := Raise OSError;
               download_file := None; open_downloaded := Raise OSError |};
     env_backend := fun _ => healthy;
     env_create_indexes := Ok tt |}.

(** The same archive with a storage that refuses every write. *)
Definition env_no_storage : RunEnv :=
  {| env_installed := lib_narrow;
     env_isdigit := ascii_digit;
     env_web := web_listing;
     env_data_center := dc0;
     env_num_floats := 10;
     env_save_parquet := true;
     env_fetch := env_fetch env_two;
     env_backend := fun _ =>
       {| sql_profiles := Raise OperationalError;
          sql_measurements := Raise OperationalError;
          parquet_profiles := Raise OSError;
          parquet_measurements := Raise OSError |};
     env_create_indexes := Ok tt |}.

(** An archive that cannot be reached: no unit is listed. *)
Definition env_down : RunEnv :=
  {| env_installed := lib_narrow;
     env_isdigit := ascii_digit;
     env_web := web_down;
     env_data_center := dc0;
     env_num_floats := 10;
     env_save_parquet := true;
     env_fetch := env_fetch env_two;
     env_backend := fun _ => healthy;
     env_create_indexes := Ok tt |}.

(** ** Further predicates *)

(** The (profile, level) of a measurement row. *)
Definition row_key (m : Measurement) : nat * nat :=
  (meas_profile_id m, level m).

(** The pairs the two loops of [extract_measurements] visit, in order. *)
Definition cross (n_prof n_levels : nat) : list (nat * nat) :=
  flat_map (fun p => map (pair p) (seq 0 n_levels)) (seq 0 n_prof).

(** A string that neither begins nor ends with a character of [p]. *)
Definition head_ok (p : N -> bool) (s : pystr) : Prop :=
  match s with
  | [] => True
  | c :: _ => p c = false
  end.

Definition trimmed (p : N -> bool) (s : pystr) : Prop :=
  head_ok p s /\ head_ok p (rev s).

(** A dataset with an N_PROF dimension of size 0. *)
Definition ds_no_profiles : Dataset :=
  {| sizes := {[ "N_PROF"%string := 0%nat; "N_LEVELS"%string := 3%nat ]};
     variables := variables ds_argo |}.

(** [ds_argo] without its PRES variable. *)
Definition ds_no_pres : Dataset :=
  {| sizes := sizes ds_argo;
     variables := delete "PRES"%string (variables ds_argo) |}.

(** A storage whose relational back end accepts the profiles of a unit and
    refuses its measurements. *)
Definition half_healthy : Backend :=
  {| sql_profiles := Ok tt; sql_measurements := Raise OperationalError;
     parquet_profiles := Ok tt; parquet_measurements := Ok tt |}.

(** A store that differs from [st] in its relational tables only. *)
Definition with_tables (st : Store) (ps : list Profile)
    (ms : list Measurement) : Store :=
  {| profiles := ps; measurements := ms;
     profile_files := profile_files st;
     measurement_files := measurement_files st |}.

(** The run of [env_two] over the storage [half_healthy]. *)
Definition env_half : RunEnv :=
  {| env_installed := lib_narrow;
     env_isdigit := ascii_digit;
     env_web := web_listing;
     env_data_center := dc0;
     env_num_floats := 10;
     env_save_parquet := true;
     env_fetch := env_fetch env_two;
     env_backend := fun _ => half_healthy;
     env_create_indexes := Ok tt |}.

(** ** Predicates on listings *)

(** The names of the directory rows of a page, in page order. *)
Definition folder_names (l : list Img) : list pystr :=
  flat_map (fun img => match entry_name img with
                       | Some name => [name]
                       | None => []
                       end) l.

(** Those of them that are unit ids. *)
Definition digit_ids (isdigit_char : N -> bool) (l : list Img) : list pystr :=
  List.filter (isdigit isdigit_char) (folder_names l).

(** In the order of [sorted]. *)
Definition ascending (l : list pystr) : Prop :=
  StronglySorted (fun a b => str_leb a b = true) l.

(** What is left of a limit once [have] ids are found: the number of ids
    the loop of [list_floats] still appends before it breaks, None when it
    never breaks (no limit, or a limit of 0). *)
Definition room (max_floats : option Z) (have : nat) : option nat :=
  match max_floats with
  | Some n =>
    if n =? 0 then None else Some (Z.to_nat (Z.max 1 (n - Z.of_nat have)))
  | None => None
  end.

Definition upto {A} (r : option nat) (l : list A) : list A :=
  match r with
  | Some k => firstn k l
  | None => l
  end.

(** A listing whose page order is not the order of the ids. *)
Definition web_unordered : Web :=
  fun _ => Ok {| status_code := 200;
                 parsed := Ok {| imgs := [ {| alt := Some (lit "[DIR]");
                                              parent_tr := Some (Some {| href := None; text := lit "5900001/" |}) |};
                                           {| alt := Some (lit "[DIR]");
                                              parent_tr := Some (Some {| href := None; text := lit "7900002/" |}) |};
                                           {| alt := Some (lit "[DIR]");
                                              parent_tr := Some (Some {| href := None; text := lit "1900722/" |}) |} ];
                                 anchors := [] |} |}.

(** A unit page on which a link by text precedes the THREDDS link. *)
Definition web_both : Web :=
  fun _ => Ok {| status_code := 200;
                 parsed := Ok {| imgs := [];
                                 anchors := [ {| href := Some (lit "1900722_prof.nc");
                                                 text := lit "1900722_prof.nc" |};
                                              {| href := Some (lit "catalog.html?dataset=argo/gadr/aoml/1900722/nodc_1900722_prof.nc");
                                                 text := lit "nodc_1900722_prof.nc" |} ] |} |}.

(** ** Further predicates on runs *)

(** The units whose write has begun, and those whose write has ended, in
    the order of the log. *)
Definition written (l : list Event) : list pystr :=
  flat_map (fun e => match e with EWriteBegin fid => [fid] | _ => [] end) l.

Definition ended (l : list Event) : list pystr :=
  flat_map (fun e => match e with EWriteEnd fid _ => [fid] | _ => [] end) l.

(** The units waiting on the queue, oldest first. *)
Definition queued (q : list Message) : list pystr :=
  flat_map (fun m => match m with DATA fid _ => [fid] | DONE => [] end) q.

(** The units that workers have put so far: those taken by the writer,
    then those still waiting. *)
Definition put_order (s : RunState) : list pystr :=
  written (log s) ++ queued (queue s).

(** The writes that ended well. *)
Definition successes (l : list Event) : nat :=
  length (List.filter (fun e => match e with
                                | EWriteEnd _ true => true
                                | _ => false
                                end) l).

(** The unit the writer holds. *)
Definition in_hand (w : WriterPc) : list pystr :=
  match w with
  | WWriting _ fid _ => [fid]
  | _ => []
  end.

(** Every dataset on its way to the store is the one that the fetch of
    its unit returned. *)
Definition fetched_by (env : RunEnv) (fid : pystr) (ds : Dataset) : Prop :=
  fetch_worker (env_fetch env fid) = Some ds.

Definition queue_fetched (env : RunEnv) (q : list Message) : Prop :=
  Forall (fun m => match m with
                   | DATA fid ds => fetched_by env fid ds
                   | DONE => True
                   end) q.

Definition writer_fetched (env : RunEnv) (w : WriterPc) : Prop :=
  match w with
  | WWriting _ fid ds => fetched_by env fid ds
  | _ => True
  end.

(** What the run keeps true of the units on their way: no unit is in
    more places than it was listed, every dataset is the one fetched for
    its unit, and the writes begun are the writes ended and the one in
    hand. *)
Definition unit_invariant (env : RunEnv) (s : RunState) : Prop :=
  written (log s) ++ queued (queue s) ++ running s ++ pending s
    ⊆+ floats s
  /\ queue_fetched env (queue s)
  /\ writer_fetched env (writer s)
  /\ written (log s) = ended (log s) ++ in_hand (writer s).

(** The run's state with another store, and the start of a run over a
    database and Parquet directory that earlier runs have filled. *)
Definition set_store (s : RunState) (st : Store) : RunState :=
  {| main := main s; floats := floats s; pending := pending s;
     running := running s; fetched := fetched s; failed := failed s;
     queue := queue s; writer := writer s; store := st;
     success_count := success_count s; log := log s |}.

Definition start_state (st : Store) : RunState := set_store init_state st.

(** A store that holds the rows of [ds_argo] from an earlier run. *)
Definition st_argo : Store := with_tables empty_store ps_argo ms_argo.

(** The rows of a unit: what the two extractions give for the dataset its
    fetch returned, when they return and there is a profile to store. *)
Definition unit_rows (env : RunEnv) (fid : pystr)
  : list Profile * list Measurement :=
  match fetch_worker (env_fetch env fid) with
  | Some ds =>
    match extract_profiles (lib := env_installed env) ds fid
            (env_data_center env),
          extract_measurements ds fid with
    | Ok (p :: ps), Ok ms => (p :: ps, ms)
    | _, _ => ([], [])
    end
  | None => ([], [])
  end.

(** Both extractions return for the dataset fetched for the unit. *)
Definition extracts (env : RunEnv) (fid : pystr) : bool :=
  match fetch_worker (env_fetch env fid) with
  | Some ds =>
    match extract_profiles (lib := env_installed env) ds fid
            (env_data_center env),
          extract_measurements ds fid with
    | Ok _, Ok _ => true
    | _, _ => false
    end
  | None => false
  end.

(** A PRES variable that holds text. *)
Definition ds_text_pres : Dataset :=
  {| sizes := {[ "N_PROF"%string := 1%nat; "N_LEVELS"%string := 1%nat ]};
     variables :=
       {[ "PRES"%string := BytesArray (Axis [Axis [Item (bytes_of "n/a")]]) ]} |}.

(** ** Properties of [_get_value] *)

Lemma get_value_present ds var_name ix d :
  variables ds !! var_name = Some d ->
  _get_value ds var_name ix =
    try_except (value <- values_getitem d ix ;;
                value <- decode_text value ;;
                Ok (sanitize value)) (Ok PNone).
Proof. intros H. unfold _get_value. now rewrite H. Qed.

Lemma try_except_ok {A} (body : result A) (a : A) :
  exists v, try_except body (Ok a) = Ok v.
Proof. destruct body as [v|e]; simpl; eauto. Qed.

(** A float cell: the value read is the cell, nulled when it is NaN or
    larger than 1e10 in magnitude. *)
Lemma get_value_float ds var_name ix d f :
  variables ds !! var_name = Some d ->
  values_getitem d ix = Ok (PFloat f) ->
  _get_value ds var_name ix =
    Ok (if is_nan f || abs_gt_1e10 f then PNone else PFloat f).
Proof.
  intros Hd Hv. rewrite (get_value_present _ _ _ _ Hd), Hv. simpl.
  now destruct (is_nan f || abs_gt_1e10 f).
Qed.

Lemma not_finite_sentinel f :
  is_finite f = false -> is_nan f || abs_gt_1e10 f = true.
Proof.
  destruct f as [s|[|]| |s m e]; intros H; try discriminate H;
    vm_compute; reflexivity.
Qed.

Example sentinel_1e12 : abs_gt_1e10 f_1e12 = true.
Proof. vm_compute. reflexivity. Qed.

Example sentinel_99999_9 : is_nan f_99999_9 || abs_gt_1e10 f_99999_9 = false.
Proof. vm_compute. reflexivity. Qed.

Example sentinel_15_3 : is_nan f_15_3 || abs_gt_1e10 f_15_3 = false.
Proof. vm_compute. reflexivity. Qed.

(** ** Loops *)

Section Loops.
Context {A S : Type}.
Implicit Types (xs : list A) (body : A -> S -> result S).

(** A property of the state kept by every iteration that returns is kept
    by the loop. *)
Lemma for_in_invariant (P : S -> Prop) xs body :
  (forall x s s', In x xs -> P s -> body x s = Ok s' -> P s') ->
  forall s s', P s -> for_in xs body s = Ok s' -> P s'.
Proof.
  induction xs as [|x xs IH]; simpl; intros Hbody s s' Hs Hrun.
  - now inversion Hrun; subst.
  - destruct (body x s) as [s1|e] eqn:Hx; simpl in Hrun; [|discriminate].
    apply IH with (s := s1); eauto.
Qed.

(** When each iteration returns and raises a measure of the state by
    [k], the loop returns and raises it by [k] per element. *)
Lemma for_in_measure (mu : S -> nat) (P : S -> Prop) (k : nat) xs body :
  (forall x s, In x xs -> P s ->
     exists s', body x s = Ok s' /\ P s' /\ mu s' = (mu s + k)%nat) ->
  forall s, P s ->
    exists s', for_in xs body s = Ok s' /\ P s'
               /\ mu s' = (mu s + k * length xs)%nat.
Proof.
  induction xs as [|x xs IH]; simpl; intros Hbody s Hs.
  - exists s. repeat split; auto; lia.
  - destruct (Hbody x s) as (s1 & Hx & Hs1 & Hmu); auto.
    destruct (IH (fun y t Hy => Hbody y t (or_intror Hy)) s1 Hs1)
      as (s' & Hrun & Hs' & Hmu').
    exists s'. rewrite Hx; simpl. repeat split; auto; lia.
Qed.
End Loops.

(** ** Facts on [_get_value] *)

Lemma get_value_total ds var_name ix :
  exists v, _get_value ds var_name ix = Ok v.
Proof.
  unfold _get_value. destruct (variables ds !! var_name) as [d|]; eauto.
  apply try_except_ok.
Qed.

Lemma sanitize_float value f :
  sanitize value = PFloat f -> is_nan f = false /\ abs_gt_1e10 f = false.
Proof.
  destruct value as [|g| | | | |]; simpl; try discriminate.
  destruct (is_nan g || abs_gt_1e10 g) eqn:H; [discriminate|].
  intros [= ->]. now apply orb_false_elim in H.
Qed.

(** A float that [_get_value] returns is finite and within the bound. *)
Lemma get_value_returns_float ds var_name ix f :
  _get_value ds var_name ix = Ok (PFloat f) ->
  is_finite f = true /\ abs_gt_1e10 f = false.
Proof.
  unfold _get_value. destruct (variables ds !! var_name) as [d|]; [|discriminate].
  destruct (values_getitem d ix) as [v|e]; simpl; [|discriminate].
  destruct (decode_text v) as [w|e]; simpl; [|discriminate].
  intros [= H]. apply sanitize_float in H as [Hnan Hgt]. split; auto.
  destruct (is_finite f) eqn:Hfin; auto.
  apply not_finite_sentinel in Hfin. rewrite Hnan, Hgt in Hfin. discriminate.
Qed.

Lemma is_finite_not_nan f : is_finite f = true -> is_nan f = false.
Proof. now destruct f. Qed.

(** ** Facts on the extractor *)

(** Inversion of a bind that returned. *)
Lemma bind_Ok {A B} (r : result A) (k : A -> result B) (b : B) :
  bind r k = Ok b -> exists a, r = Ok a /\ k a = Ok b.
Proof. destruct r as [a|e]; simpl; [eauto | discriminate]. Qed.

Ltac bind_inv H :=
  let a := fresh "v" in
  let Ha := fresh "E" in
  apply bind_Ok in H as (a & Ha & H).

Lemma present_not_nan_true v :
  present_not_nan v = Ok true -> v <> PNone /\ isna v = false.
Proof.
  destruct v as [|f|z|b|s|d|d]; simpl; try discriminate.
  - intros [= H]. split; [discriminate|]. now destruct (is_nan f).
  - intros _. split; [discriminate | reflexivity].
  - intros _. split; [discriminate | reflexivity].
Qed.

Lemma present_not_nan_number v :
  number_or_none v -> exists b, present_not_nan v = Ok b.
Proof. destruct v; simpl; intros H; try contradiction; eauto. Qed.

Lemma build_measurement_kept ds fid p l acc acc' :
  Forall (row_kept ds) acc ->
  build_measurement ds fid p l acc = Ok acc' ->
  Forall (row_kept ds) acc'.
Proof.
  intros Hacc H. unfold build_measurement in H.
  bind_inv H. bind_inv H. bind_inv H. bind_inv H.
  destruct v2; inversion H; subst; auto.
  apply Forall_app; split; auto. constructor; [|constructor].
  split; simpl; auto.
Qed.

Lemma measurement_loops_kept ds fid ps ls acc acc' :
  Forall (row_kept ds) acc ->
  for_in ps (fun prof_idx =>
    for_in ls (fun level_idx => build_measurement ds fid prof_idx level_idx))
    acc = Ok acc' ->
  Forall (row_kept ds) acc'.
Proof.
  intros Hacc. apply for_in_invariant; auto.
  intros p s s' _ Hs. apply for_in_invariant; auto.
  intros l t t' _. apply build_measurement_kept.
Qed.

Lemma dropna_all_incl df m : In m (dropna_all df) -> In m df.
Proof. unfold dropna_all. intros H. now apply filter_In in H. Qed.

Lemma extract_measurements_kept ds fid rows :
  extract_measurements ds fid = Ok rows -> Forall (row_kept ds) rows.
Proof.
  unfold extract_measurements. intros H. bind_inv H.
  apply measurement_loops_kept in E; [|constructor].
  assert (Hsub : forall x, In x rows -> In x v).
  { intros x Hx. destruct v as [|m v]; injection H as <-; [exact Hx|].
    exact (dropna_all_incl (m :: v) x Hx). }
  apply List.Forall_forall. intros x Hx.
  apply (proj1 (List.Forall_forall _ _) E x (Hsub x Hx)).
Qed.

(** When the pressure read is a valid float the row is appended. *)
Lemma build_measurement_append ds fid p l acc f :
  _get_value ds "PRES" (ITuple [p; l]) = Ok (PFloat f) ->
  exists m, build_measurement ds fid p l acc = Ok (acc ++ [m])
            /\ row_kept ds m.
Proof.
  intros Hp. unfold build_measurement. rewrite Hp. simpl.
  destruct (get_value_total ds "TEMP" (ITuple [p; l])) as [t ->].
  destruct (get_value_total ds "PSAL" (ITuple [p; l])) as [s ->]. simpl.
  apply get_value_returns_float in Hp as Hf. destruct Hf as [Hfin _].
  rewrite (is_finite_not_nan _ Hfin). simpl. eexists. split; [reflexivity|].
  split; simpl; auto. now rewrite (is_finite_not_nan _ Hfin).
Qed.

Lemma dropna_all_kept ds df :
  Forall (row_kept ds) df -> dropna_all df = df.
Proof.
  unfold dropna_all. induction 1 as [|m df [_ Hm] _ IH]; simpl; auto.
  apply present_not_nan_true in Hm as [_ ->]. simpl. now rewrite IH.
Qed.

(** With every pressure read a valid float, one row per (profile, level). *)
Lemma extract_measurements_count ds fid :
  (forall i j, (i < n_prof_of ds)%nat -> (j < n_levels_of ds)%nat ->
     exists f, _get_value ds "PRES" (ITuple [i; j]) = Ok (PFloat f)) ->
  exists rows, extract_measurements ds fid = Ok rows
               /\ length rows = (n_prof_of ds * n_levels_of ds)%nat.
Proof.
  intros Hpres. unfold extract_measurements.
  destruct (for_in_measure (@length Measurement) (Forall (row_kept ds))
              (1 * length (seq 0 (n_levels_of ds)))
              (seq 0 (n_prof_of ds))
              (fun prof_idx => for_in (seq 0 (n_levels_of ds))
                 (fun level_idx => build_measurement ds fid prof_idx level_idx)))
    with (s := @nil Measurement) as (rows & Hrun & Hkept & Hlen).
  - intros i s Hi Hs. apply in_seq in Hi.
    apply (for_in_measure (@length Measurement) (Forall (row_kept ds)) 1); auto.
    intros j t Hj Ht. apply in_seq in Hj.
    destruct (Hpres i j) as [f Hf]; [lia | lia |].
    destruct (build_measurement_append ds fid i j t f Hf) as (m & -> & Hm).
    eexists. split; [reflexivity|]. split.
    + apply Forall_app. split; auto.
    + rewrite length_app. simpl. lia.
  - constructor.
  - rewrite Hrun. simpl. rewrite !length_seq in Hlen. simpl in Hlen.
    destruct rows as [|m rows].
    + eexists. split; [reflexivity|]. simpl in *. lia.
    + eexists. split; [reflexivity|].
      rewrite (dropna_all_kept ds _ Hkept). lia.
Qed.

(** Without an N_LEVELS dimension the inner loop has nothing to visit. *)
Lemma for_in_skip {A S} (xs : list A) (s : S) :
  for_in xs (fun _ t => Ok t) s = Ok s.
Proof. induction xs; simpl; auto. Qed.

Lemma extract_measurements_no_levels ds fid :
  sizes ds !! "N_LEVELS" = None -> extract_measurements ds fid = Ok [].
Proof.
  intros H. unfold extract_measurements, n_levels_of. rewrite H. simpl.
  now rewrite for_in_skip.
Qed.

(** *** Profiles *)

Lemma juld_to_datetime_number {lib : Installed} v :
  number_or_none v -> exists dt, juld_to_datetime v = Ok dt.
Proof.
  intros Hv. unfold juld_to_datetime.
  destruct (present_not_nan_number v Hv) as [[|] ->]; simpl; eauto.
  destruct (julian_to_timestamp v); simpl; eauto.
Qed.

(** The loop body returns as soon as the JULD read is null or a number. *)
Lemma build_profile_returns {lib : Installed} ds fid dc i jd :
  _get_value ds "JULD" (IInt i) = Ok jd -> number_or_none jd ->
  exists p, build_profile ds fid dc i = Ok p.
Proof.
  intros Hjd Hnum. unfold build_profile.
  destruct (get_value_total ds "CYCLE_NUMBER" (IInt i)) as [c ->].
  destruct (get_value_total ds "PLATFORM_NUMBER" (IInt i)) as [pl ->].
  destruct (get_value_total ds "LATITUDE" (IInt i)) as [la ->].
  destruct (get_value_total ds "LONGITUDE" (IInt i)) as [lo ->].
  rewrite Hjd. simpl.
  destruct (juld_to_datetime_number jd Hnum) as [dt ->]. simpl. eauto.
Qed.

(** What a row built at index [i] holds. *)
Lemma build_profile_fields {lib : Installed} ds fid dc i p :
  build_profile ds fid dc i = Ok p ->
  float_id p = fid /\ data_center p = dc /\ profile_id p = i
  /\ _get_value ds "CYCLE_NUMBER" (IInt i) = Ok (cycle_number p)
  /\ _get_value ds "PLATFORM_NUMBER" (IInt i) = Ok (platform_number p)
  /\ _get_value ds "LATITUDE" (IInt i) = Ok (latitude p)
  /\ _get_value ds "LONGITUDE" (IInt i) = Ok (longitude p)
  /\ _get_value ds "JULD" (IInt i) = Ok (juld p)
  /\ juld_to_datetime (juld p) = Ok (datetime p).
Proof.
  intros H. unfold build_profile in H.
  bind_inv H. bind_inv H. bind_inv H. bind_inv H. bind_inv H. bind_inv H.
  injection H as <-. simpl. repeat split; auto.
Qed.

Lemma extract_profiles_built {lib : Installed} ds fid dc rows :
  extract_profiles ds fid dc = Ok rows -> Forall (row_built ds fid dc) rows.
Proof.
  unfold extract_profiles. apply for_in_invariant; [|constructor].
  intros i s s' _ Hs H. bind_inv H. injection H as <-.
  apply Forall_app. split; auto. constructor; [|constructor].
  unfold row_built.
  destruct (build_profile_fields _ _ _ _ _ E) as (_ & _ & -> & _). exact E.
Qed.

(** The frame has one row per index, in order. *)
Lemma extract_profiles_ids {lib : Installed} ds fid dc rows :
  extract_profiles ds fid dc = Ok rows ->
  map profile_id rows = seq 0 (n_prof_of ds).
Proof.
  unfold extract_profiles.
  assert (H : forall xs acc rows,
    for_in xs (fun i pd => profile <- build_profile ds fid dc i ;;
                           Ok (pd ++ [profile])) acc = Ok rows ->
    map profile_id rows = map profile_id acc ++ xs).
  { induction xs as [|i xs IH]; simpl; intros acc rows0 H.
    - injection H as <-. now rewrite app_nil_r.
    - bind_inv H. bind_inv E. injection E as <-.
      apply IH in H. rewrite H, map_app. simpl.
      destruct (build_profile_fields _ _ _ _ _ E0) as (_ & _ & -> & _).
      now rewrite <- app_assoc. }
  intros Hrun. now apply H in Hrun.
Qed.

Lemma extract_profiles_returns {lib : Installed} ds fid dc :
  (forall i jd, (i < n_prof_of ds)%nat ->
     _get_value ds "JULD" (IInt i) = Ok jd -> number_or_none jd) ->
  exists rows, extract_profiles ds fid dc = Ok rows
               /\ length rows = n_prof_of ds.
Proof.
  intros Hjuld. unfold extract_profiles.
  destruct (for_in_measure (@length Profile) (fun _ => True) 1
              (seq 0 (n_prof_of ds))
              (fun i pd => profile <- build_profile ds fid dc i ;;
                           Ok (pd ++ [profile])))
    with (s := @nil Profile) as (rows & Hrun & _ & Hlen); auto.
  - intros i s Hi _. apply in_seq in Hi.
    destruct (get_value_total ds "JULD" (IInt i)) as [jd Hjd].
    destruct (build_profile_returns ds fid dc i jd Hjd) as [p ->].
    + apply (Hjuld i); [lia | exact Hjd].
    + simpl. eexists. repeat split. rewrite length_app. simpl. lia.
  - exists rows. split; auto. rewrite length_seq in Hlen. simpl in Hlen. lia.
Qed.

(** ** The extractor's claims *)

(** C9. [_get_value] is total: for every dataset, variable name and index
    it returns a value or None and never raises. In particular it returns
    None for a variable absent from the dataset, for an index that numpy
    rejects (out of bounds, or too many indices), and for bytes that are
    not valid UTF-8. *)
Theorem get_value_never_raises (ds : Dataset) (var_name : string) (ix : index) :
  (exists v, _get_value ds var_name ix = Ok v)
  /\ (variables ds !! var_name = None -> _get_value ds var_name ix = Ok PNone)
  /\ (forall d e, variables ds !! var_name = Some d ->
        values_getitem d ix = Raise e -> _get_value ds var_name ix = Ok PNone)
  /\ (forall d b e, variables ds !! var_name = Some d ->
        values_getitem d ix = Ok (PBytes b) -> decode b = Raise e ->
        _get_value ds var_name ix = Ok PNone).
Proof.
  split; [apply get_value_total|]. split; [|split].
  - intros H. unfold _get_value. now rewrite H.
  - intros d e Hd Hv. rewrite (get_value_present _ _ _ _ Hd), Hv. reflexivity.
  - intros d b e Hd Hv Hb.
    rewrite (get_value_present _ _ _ _ Hd), Hv. simpl. rewrite Hb. reflexivity.
Qed.

Lemma get_value_never_raises_witness :
  _get_value ds_argo "LATITUDE" (IInt 0) = Ok PNone
  /\ _get_value ds_argo "JULD" (IInt 7) = Ok PNone
  /\ _get_value ds_argo "PLATFORM_NUMBER" (IInt 1) = Ok PNone.
Proof.
  split; [|split].
  - apply (get_value_never_raises ds_argo "LATITUDE" (IInt 0)).
    vm_compute. reflexivity.
  - apply (proj1 (proj2 (proj2
      (get_value_never_raises ds_argo "JULD" (IInt 7))))
      (FloatArray (Axis [Item f_100; Item S754_nan])) IndexError);
      vm_compute; reflexivity.
  - apply (proj2 (proj2 (proj2
      (get_value_never_raises ds_argo "PLATFORM_NUMBER" (IInt 1))))
      (BytesArray (Axis [Item (bytes_of "1900722 "); Item [Byte.xff]]))
      [Byte.xff] UnicodeDecodeError);
      vm_compute; reflexivity.
Defined.

(** C2, as the code has it. For a cell that holds a float: 1e12 becomes
    None; 99999.9 is below the 1e10 bound and is returned unchanged, as is
    15.3; any float that is not finite, or whose magnitude exceeds 1e10,
    becomes None, and every other float is returned unchanged. *)
Theorem get_value_sentinel (ds : Dataset) (var_name : string) (ix : index)
    (d : DataArray) (f : spec_float) :
  variables ds !! var_name = Some d ->
  values_getitem d ix = Ok (PFloat f) ->
  (f = f_1e12 -> _get_value ds var_name ix = Ok PNone)
  /\ (f = f_99999_9 -> _get_value ds var_name ix = Ok (PFloat f))
  /\ (f = f_15_3 -> _get_value ds var_name ix = Ok (PFloat f))
  /\ (is_finite f = false \/ abs_gt_1e10 f = true ->
        _get_value ds var_name ix = Ok PNone)
  /\ (is_finite f = true -> abs_gt_1e10 f = false ->
        _get_value ds var_name ix = Ok (PFloat f)).
Proof.
  intros Hd Hv. rewrite (get_value_float _ _ _ _ _ Hd Hv).
  repeat split.
  - intros ->. reflexivity.
  - intros ->. reflexivity.
  - intros ->. reflexivity.
  - intros [H|H].
    + now rewrite (not_finite_sentinel _ H).
    + rewrite H. now rewrite orb_true_r.
  - intros Hfin Hgt. now rewrite (is_finite_not_nan _ Hfin), Hgt.
Qed.

Lemma get_value_sentinel_witness :
  _get_value ds_argo "TEMP" (ITuple [0; 2]%nat) = Ok PNone
  /\ _get_value ds_argo "PRES" (ITuple [0; 2]%nat) = Ok (PFloat f_99999_9).
Proof.
  split.
  - apply (proj1 (get_value_sentinel ds_argo "TEMP" (ITuple [0; 2]%nat)
      (FloatArray (Axis [Axis [Item f_15_3; Item S754_nan; Item f_1e12];
                         Axis [Item f_15_3; Item f_100; Item f_100]]))
      f_1e12 ltac:(vm_compute; reflexivity) ltac:(vm_compute; reflexivity))).
    reflexivity.
  - apply (proj1 (proj2 (get_value_sentinel ds_argo "PRES" (ITuple [0; 2]%nat)
      (FloatArray (Axis [Axis [Item f_15_3; Item f_100; Item f_99999_9];
                         Axis [Item f_15_3; Item f_100; Item f_100]]))
      f_99999_9 ltac:(vm_compute; reflexivity) ltac:(vm_compute; reflexivity)))).
    reflexivity.
Defined.

(** The sentinel test is for floats only: an integer cell of 10^12 is
    returned as it is. *)
Example get_value_int_kept :
  _get_value {| sizes := ∅;
                variables := {[ "CYCLE_NUMBER"%string :=
                                  IntArray (Axis [Item (10 ^ 12)]) ]} |}
             "CYCLE_NUMBER" (IInt 0)
  = Ok (PInt (10 ^ 12)).
Proof. vm_compute. reflexivity. Qed.

(** C2 as stated fails: a cell that holds 99999.9 is not read as None. *)
Lemma get_value_99999_9_not_null :
  exists d,
    variables ds_argo !! "PRES" = Some d
    /\ values_getitem d (ITuple [0; 2]%nat) = Ok (PFloat f_99999_9)
    /\ _get_value ds_argo "PRES" (ITuple [0; 2]%nat) <> Ok PNone.
Proof.
  exists (FloatArray (Axis [Axis [Item f_15_3; Item f_100; Item f_99999_9];
                            Axis [Item f_15_3; Item f_100; Item f_100]])).
  split; [vm_compute; reflexivity|]. split; [vm_compute; reflexivity|].
  vm_compute. discriminate.
Qed.

(** C1, as the code has it. Every row that [extract_measurements] returns
    has a pressure that is not None and not NaN: it is the value
    [_get_value] read at the row's (profile, level). When that value is a
    scalar it is a finite number, a float being at most 1e10 in magnitude;
    so no returned row has pressure, temperature and salinity all null. *)
Theorem extract_measurements_pressure (ds : Dataset) (fid : pystr)
    (rows : list Measurement) (m : Measurement) :
  extract_measurements ds fid = Ok rows -> In m rows ->
  pressure m <> PNone
  /\ isna (pressure m) = false
  /\ _get_value ds "PRES" (ITuple [meas_profile_id m; level m])
     = Ok (pressure m)
  /\ (forall f, pressure m = PFloat f ->
        is_finite f = true /\ abs_gt_1e10 f = false)
  /\ ((forall d, pressure m <> PArray d) -> finite_number (pressure m) = true)
  /\ isna (pressure m) && isna (temperature m) && isna (salinity m) = false.
Proof.
  intros Hrun Hin. apply extract_measurements_kept in Hrun.
  apply (proj1 (List.Forall_forall _ _) Hrun) in Hin as [Hread Hkeep].
  destruct (present_not_nan_true _ Hkeep) as [Hnone Hna].
  assert (Hfloat : forall f, pressure m = PFloat f ->
            is_finite f = true /\ abs_gt_1e10 f = false).
  { intros f Hf. rewrite Hf in Hread.
    now apply get_value_returns_float in Hread. }
  repeat split; auto.
  - now apply Hfloat.
  - now apply Hfloat.
  - intros Harr. destruct (pressure m) as [|f|z|b|s|d|d] eqn:Hp;
      simpl in *; try discriminate; auto.
    + now apply Hfloat.
    + now destruct (Harr d).
  - now rewrite Hna.
Qed.

Lemma extract_measurements_pressure_witness :
  extract_measurements ds_argo fid0 = Ok ms_argo
  /\ In m_argo ms_argo
  /\ pressure m_argo <> PNone
  /\ finite_number (pressure m_argo) = true.
Proof.
  assert (Hrun : extract_measurements ds_argo fid0 = Ok ms_argo)
    by (vm_compute; reflexivity).
  assert (Hin : In m_argo ms_argo) by (vm_compute; tauto).
  destruct (extract_measurements_pressure ds_argo fid0 ms_argo m_argo Hrun Hin)
    as (Hnone & _ & _ & _ & Hfin & _).
  split; [exact Hrun|]. split; [exact Hin|]. split; [exact Hnone|].
  apply Hfin. discriminate.
Defined.

(** C1 as stated fails: a PRES variable with a third axis of length one
    yields a row whose pressure is a one-element array, which the test of
    line 75 accepts although it holds an infinity. *)
Lemma extract_measurements_infinite_pressure :
  exists m,
    extract_measurements ds_deep_pres fid0 = Ok [m]
    /\ pressure m = PArray (FloatArray (Axis [Item (S754_infinity false)]))
    /\ finite_number (pressure m) = false.
Proof.
  eexists. split; [vm_compute; reflexivity|]. split; reflexivity.
Qed.








(** C4, as the code has it. With N_PROF of size 2 and N_LEVELS of size 3
    and every (profile, level) cell of PRES a finite float within the
    sentinel bound, [extract_measurements] returns exactly 6 rows, and
    [extract_profiles] returns exactly 2 rows provided the JULD read of
    each profile is None or a number. Without an N_LEVELS dimension
    [extract_measurements] returns no row. *)
Theorem extract_counts {lib : Installed} (ds : Dataset) (fid dc : pystr) :
  (sizes ds !! "N_PROF" = Some 2%nat ->
   sizes ds !! "N_LEVELS" = Some 3%nat ->
   (forall i j, (i < 2)%nat -> (j < 3)%nat ->
      exists d f, variables ds !! "PRES" = Some d
                  /\ values_getitem d (ITuple [i; j]) = Ok (PFloat f)
                  /\ is_finite f = true /\ abs_gt_1e10 f = false) ->
   (exists ms, extract_measurements ds fid = Ok ms /\ length ms = 6%nat)
   /\ ((forall i jd, (i < 2)%nat ->
          _get_value ds "JULD" (IInt i) = Ok jd -> number_or_none jd) ->
       exists ps, extract_profiles ds fid dc = Ok ps /\ length ps = 2%nat))
  /\ (sizes ds !! "N_LEVELS" = None -> extract_measurements ds fid = Ok []).
Proof.
  split; [|apply extract_measurements_no_levels].
  intros Hp Hl Hpres.
  assert (Hnp : n_prof_of ds = 2%nat) by (unfold n_prof_of; now rewrite Hp).
  assert (Hnl : n_levels_of ds = 3%nat) by (unfold n_levels_of; now rewrite Hl).
  split.
  - destruct (extract_measurements_count ds fid) as (ms & Hrun & Hlen).
    + rewrite Hnp, Hnl. intros i j Hi Hj.
      destruct (Hpres i j Hi Hj) as (d & f & Hd & Hv & Hfin & Hgt).
      exists f. rewrite (get_value_float _ _ _ _ _ Hd Hv).
      now rewrite (is_finite_not_nan _ Hfin), Hgt.
    + exists ms. split; auto. rewrite Hlen, Hnp, Hnl. reflexivity.
  - intros Hjuld. rewrite <- Hnp. apply extract_profiles_returns.
    now rewrite Hnp.
Qed.

Lemma ds_argo_pressures i j :
  (i < 2)%nat -> (j < 3)%nat ->
  exists d f, variables ds_argo !! "PRES" = Some d
              /\ values_getitem d (ITuple [i; j]) = Ok (PFloat f)
              /\ is_finite f = true /\ abs_gt_1e10 f = false.
Proof.
  intros Hi Hj.
  exists (FloatArray (Axis [Axis [Item f_15_3; Item f_100; Item f_99999_9];
                            Axis [Item f_15_3; Item f_100; Item f_100]])).
  destruct i as [|[|i]]; [| |lia];
    (destruct j as [|[|[|j]]]; [| | |lia]);
    eexists; (split; [vm_compute; reflexivity|]);
    (split; [vm_compute; reflexivity|]); split; vm_compute; reflexivity.
Defined.

Lemma extract_counts_witness :
  (exists ms, extract_measurements ds_argo fid0 = Ok ms /\ length ms = 6%nat)
  /\ (exists ps, extract_profiles (lib := lib_narrow) ds_argo fid0 dc0 = Ok ps
                 /\ length ps = 2%nat)
  /\ extract_measurements ds_empty fid0 = Ok [].
Proof.
  destruct (proj1 (extract_counts (lib := lib_narrow) ds_argo fid0 dc0)) as [Hms Hps].
  - vm_compute. reflexivity.
  - vm_compute. reflexivity.
  - exact ds_argo_pressures.
  - split; [exact Hms|]. split.
    + apply Hps. intros i jd Hi.
      destruct i as [|[|i]]; [| |lia]; vm_compute; intros [= <-]; exact I.
    + apply (proj2 (extract_counts (lib := lib_narrow) ds_empty fid0 dc0)). vm_compute. reflexivity.
Defined.

(** C4 as stated fails: [ds_text_juld] has N_PROF of size 2, N_LEVELS of
    size 3 and six valid pressures, yet [extract_profiles] raises, its
    JULD being text that [np.isnan] rejects outside the [try]. *)
Lemma extract_profiles_text_juld :
  sizes ds_text_juld !! "N_PROF" = Some 2%nat
  /\ sizes ds_text_juld !! "N_LEVELS" = Some 3%nat
  /\ (forall i j, (i < 2)%nat -> (j < 3)%nat ->
        exists d f, variables ds_text_juld !! "PRES" = Some d
                    /\ values_getitem d (ITuple [i; j]) = Ok (PFloat f)
                    /\ is_finite f = true /\ abs_gt_1e10 f = false)
  /\ extract_profiles (lib := lib_narrow) ds_text_juld fid0 dc0
     = Raise TypeError.
Proof.
  split; [vm_compute; reflexivity|]. split; [vm_compute; reflexivity|].
  split; [|vm_compute; reflexivity].
  intros i j Hi Hj.
  exists (FloatArray (Axis [Axis [Item f_15_3; Item f_100; Item f_99999_9];
                            Axis [Item f_15_3; Item f_100; Item f_100]])).
  destruct i as [|[|i]]; [| |lia];
    (destruct j as [|[|[|j]]]; [| | |lia]);
    eexists; (split; [vm_compute; reflexivity|]);
    (split; [vm_compute; reflexivity|]); split; vm_compute; reflexivity.
Qed.

Lemma get_value_absent ds var_name ix v :
  variables ds !! var_name = None -> _get_value ds var_name ix = Ok v ->
  v = PNone.
Proof. unfold _get_value. intros ->. congruence. Qed.

(** [stream_to_sql] appends the extracted profile rows whenever both
    extractions return and the profile write goes through. *)
Lemma stream_to_sql_appends {lib : Installed} ds fid dc be st p ps ms :
  extract_profiles ds fid dc = Ok (p :: ps) ->
  extract_measurements ds fid = Ok ms ->
  sql_profiles be = Ok tt ->
  profiles (fst (stream_to_sql ds fid dc be st)) = profiles st ++ p :: ps.
Proof.
  intros Hp Hm Hbe. unfold stream_to_sql. rewrite Hp, Hm, Hbe.
  destruct ms as [|m ms]; [reflexivity|].
  destruct (sql_measurements be); reflexivity.
Qed.

(** C10, as the code has it. For a dataset without an N_PROF dimension
    whose JULD read at index 0 is None or a number, [extract_profiles]
    returns exactly one row, with profile index 0 and the float id and
    data center it was given; each of cycle_number, platform_number,
    latitude, longitude, juld (and with it datetime) is None when its
    variable is absent; and [stream_to_sql] appends that row to the
    profiles table when the measurements extraction returns and the
    write goes through. *)
Theorem extract_profiles_no_n_prof {lib : Installed} (ds : Dataset) (fid dc : pystr) :
  sizes ds !! "N_PROF" = None ->
  (forall jd, _get_value ds "JULD" (IInt 0) = Ok jd -> number_or_none jd) ->
  exists p,
    extract_profiles ds fid dc = Ok [p]
    /\ profile_id p = 0%nat /\ float_id p = fid /\ data_center p = dc
    /\ (variables ds !! "CYCLE_NUMBER" = None -> cycle_number p = PNone)
    /\ (variables ds !! "PLATFORM_NUMBER" = None -> platform_number p = PNone)
    /\ (variables ds !! "LATITUDE" = None -> latitude p = PNone)
    /\ (variables ds !! "LONGITUDE" = None -> longitude p = PNone)
    /\ (variables ds !! "JULD" = None -> juld p = PNone /\ datetime p = None)
    /\ (forall be st ms,
          extract_measurements ds fid = Ok ms -> sql_profiles be = Ok tt ->
          profiles (fst (stream_to_sql ds fid dc be st)) = profiles st ++ [p]).
Proof.
  intros Hsz Hjuld.
  destruct (get_value_total ds "JULD" (IInt 0)) as [jd Hjd].
  destruct (build_profile_returns ds fid dc 0 jd Hjd (Hjuld jd Hjd)) as [p Hp].
  assert (Hrun : extract_profiles ds fid dc = Ok [p]).
  { unfold extract_profiles, n_prof_of. rewrite Hsz. simpl. now rewrite Hp. }
  destruct (build_profile_fields _ _ _ _ _ Hp)
    as (Hf & Hd & Hi & Hc & Hpl & Hla & Hlo & Hj & Hdt).
  exists p. do 4 (split; [assumption|]).
  split; [intros H; exact (get_value_absent _ _ _ _ H Hc)|].
  split; [intros H; exact (get_value_absent _ _ _ _ H Hpl)|].
  split; [intros H; exact (get_value_absent _ _ _ _ H Hla)|].
  split; [intros H; exact (get_value_absent _ _ _ _ H Hlo)|].
  split.
  - intros H. pose proof (get_value_absent _ _ _ _ H Hj) as Hnone.
    split; [exact Hnone|]. rewrite Hnone in Hdt.
    unfold juld_to_datetime in Hdt. simpl in Hdt. congruence.
  - intros be st ms Hm Hbe. now apply stream_to_sql_appends with (ms := ms).
Qed.

Lemma extract_profiles_no_n_prof_witness :
  extract_profiles (lib := lib_narrow) ds_empty fid0 dc0 = Ok [p_null]
  /\ profiles (fst (stream_to_sql (lib := lib_narrow) ds_empty fid0 dc0 healthy empty_store))
     = [p_null].
Proof.
  destruct (extract_profiles_no_n_prof (lib := lib_narrow) ds_empty fid0 dc0) as (p & Hrun & Hrest).
  - vm_compute. reflexivity.
  - vm_compute. intros jd [= <-]. exact I.
  - destruct Hrest as (_ & _ & _ & _ & _ & _ & _ & _ & Hsql).
    assert (Hp : p = p_null).
    { assert (H : extract_profiles (lib := lib_narrow) ds_empty fid0 dc0 = Ok [p_null])
        by (vm_compute; reflexivity).
      congruence. }
    subst p. split; [exact Hrun|].
    apply (Hsql healthy empty_store []); vm_compute; reflexivity.
Defined.

(** C10 as stated fails: [ds_text_only] has no N_PROF dimension, and
    [extract_profiles] raises on its text JULD instead of returning a
    row. *)
Lemma extract_profiles_text_only :
  sizes ds_text_only !! "N_PROF" = None
  /\ extract_profiles (lib := lib_narrow) ds_text_only fid0 dc0 = Raise TypeError.
Proof. split; vm_compute; reflexivity. Qed.

(** ** The catalog client *)

Lemma page_fails_raises web url :
  page_fails web url -> exists e, fetch_page web url = Raise e.
Proof.
  unfold fetch_page. intros [[e H]|[(r & H & Hs)|(r & e & H & Hp)]]; rewrite H; simpl.
  - eauto.
  - unfold raise_for_status.
    replace ((400 <=? status_code r) && (status_code r <? 600)) with true
      by (symmetry; apply andb_true_intro; split; [apply Z.leb_le | apply Z.ltb_lt]; lia).
    simpl. eauto.
  - destruct (raise_for_status r); simpl; eauto.
Qed.

Lemma first_dataset_url_none self l :
  (forall link, In link l -> dataset_link link = false) ->
  first_dataset_url self l = Ok None.
Proof.
  induction l as [|link l IH]; simpl; intros H; auto.
  rewrite (H link (or_introl eq_refl)). apply IH. intros k Hk. apply H. now right.
Qed.

Lemma first_text_url_none self dc fid l :
  (forall link, In link l -> profile_text link = false) ->
  first_text_url self dc fid l = None.
Proof.
  induction l as [|link l IH]; simpl; intros H; auto.
  rewrite (H link (or_introl eq_refl)). apply IH. intros k Hk. apply H. now right.
Qed.

(** C5. [get_opendap_url] always returns a URL and never raises: when the
    fetch of the unit's catalog page fails, or no link of the page matches
    either test, it returns the standard URL
    {opendap_base}/{center}/{unit}/{unit}_prof.nc. *)
Theorem get_opendap_url_never_fails (self : ArgoAPIClient) (web : Web)
    (dc fid : pystr) :
  (exists url, get_opendap_url self web dc fid = Ok url)
  /\ (page_fails web (unit_catalog_url self dc fid) ->
      get_opendap_url self web dc fid = Ok (standard_url self dc fid))
  /\ (forall soup,
        fetch_page web (unit_catalog_url self dc fid) = Ok soup ->
        (forall link, In link (anchors soup) ->
           dataset_link link = false /\ profile_text link = false) ->
        get_opendap_url self web dc fid = Ok (standard_url self dc fid))
  /\ standard_url self dc fid
     = opendap_base self ++ lit "/" ++ dc ++ lit "/" ++ fid ++ lit "/"
       ++ fid ++ lit "_prof.nc".
Proof.
  split; [|split; [|split]].
  - unfold get_opendap_url.
    destruct (resolve_from_catalog self web dc fid) as [[url|]|e]; eauto.
  - intros Hfail. apply page_fails_raises in Hfail as [e He].
    unfold get_opendap_url, resolve_from_catalog. now rewrite He.
  - intros soup Hpage Hlinks.
    unfold get_opendap_url, resolve_from_catalog. rewrite Hpage. simpl.
    rewrite first_dataset_url_none by (intros k Hk; now apply Hlinks).
    simpl. rewrite first_text_url_none by (intros k Hk; now apply Hlinks).
    reflexivity.
  - reflexivity.
Qed.

Lemma get_opendap_url_never_fails_witness :
  get_opendap_url default_client web_down dc0 fid0
  = Ok (lit "https://www.ncei.noaa.gov/thredds-ocean/dodsC/argo/gadr/aoml/1900722/1900722_prof.nc")
  /\ get_opendap_url default_client web_plain dc0 fid0
     = Ok (standard_url default_client dc0 fid0).
Proof.
  split.
  - apply (proj1 (proj2
      (get_opendap_url_never_fails default_client web_down dc0 fid0))).
    left. exists RequestException. reflexivity.
  - refine (proj1 (proj2 (proj2
      (get_opendap_url_never_fails default_client web_plain dc0 fid0)))
      {| imgs := []; anchors := _ |} eq_refl _).
    intros link [<-|[<-|[]]]; split; vm_compute; reflexivity.
Defined.

(** C6. On a network or parse failure [list_data_centers] returns the
    hardcoded list of known centers and [list_floats] returns the empty
    list; neither ever raises. *)
Theorem catalog_listing_fallbacks (isdigit_char : N -> bool)
    (self : ArgoAPIClient) (web : Web) (dc : pystr) (max_floats : option Z) :
  (exists centers, list_data_centers self web = Ok centers)
  /\ (page_fails web (catalog_base self ++ lit "/catalog.html") ->
      list_data_centers self web = Ok known_centers)
  /\ (exists floats,
        list_floats isdigit_char self web dc max_floats = Ok floats)
  /\ (page_fails web (catalog_base self ++ lit "/" ++ dc
                      ++ lit "/catalog.html") ->
      list_floats isdigit_char self web dc max_floats = Ok []).
Proof.
  split; [|split; [|split]].
  - apply try_except_ok.
  - intros Hfail. apply page_fails_raises in Hfail as [e He].
    unfold list_data_centers. now rewrite He.
  - apply try_except_ok.
  - intros Hfail. apply page_fails_raises in Hfail as [e He].
    unfold list_floats. now rewrite He.
Qed.

Lemma catalog_listing_fallbacks_witness :
  list_data_centers default_client web_404 = Ok known_centers
  /\ list_floats ascii_digit default_client web_down dc0 (Some 10) = Ok [].
Proof.
  split.
  - apply (proj1 (proj2 (catalog_listing_fallbacks ascii_digit default_client
                           web_404 dc0 None))).
    right. left. eexists. split; [reflexivity|]. simpl. lia.
  - apply (proj2 (proj2 (proj2 (catalog_listing_fallbacks ascii_digit
                                  default_client web_down dc0 (Some 10))))).
    left. exists RequestException. reflexivity.
Defined.

(** ** The runner *)

Lemma begins_app l e :
  begins (l ++ [e])
  = (begins l + match e with EWriteBegin _ => 1 | _ => 0 end)%nat.
Proof.
  unfold begins. rewrite List.filter_app, length_app. now destruct e.
Qed.

Lemma ends_app l e :
  ends (l ++ [e]) = (ends l + match e with EWriteEnd _ _ => 1 | _ => 0 end)%nat.
Proof.
  unfold ends. rewrite List.filter_app, length_app. now destruct e.
Qed.

Lemma indexings_app l e :
  indexings (l ++ [e]) = (indexings l + match e with EIndex => 1 | _ => 0 end)%nat.
Proof.
  unfold indexings. rewrite List.filter_app, length_app. now destruct e.
Qed.

Lemma datas_app q m :
  datas (q ++ [m]) = (datas q + match m with DATA _ _ => 1 | DONE => 0 end)%nat.
Proof.
  unfold datas. rewrite List.filter_app, length_app. now destruct m.
Qed.

Lemma dones_app q m :
  dones (q ++ [m]) = (dones q + match m with DONE => 1 | _ => 0 end)%nat.
Proof.
  unfold dones. rewrite List.filter_app, length_app. now destruct m.
Qed.

Lemma scan_app l e : scan (l ++ [e]) = scan_event (scan l) e.
Proof. unfold scan. now rewrite fold_left_app. Qed.

Lemma dones_zero_head q m q' :
  dones q = 0%nat -> q ++ [DONE] = m :: q' ->
  (q = [] /\ m = DONE /\ q' = [])
  \/ (exists fid ds r, m = DATA fid ds /\ q = DATA fid ds :: r
                       /\ q' = r ++ [DONE] /\ dones r = 0%nat).
Proof.
  destruct q as [|m0 r]; simpl; intros Hd [= <- <-].
  - left. auto.
  - right. destruct m0 as [fid ds|]; [|discriminate Hd].
    exists fid, ds, r. auto.
Qed.

Lemma datas_cons m q :
  datas (m :: q) = (match m with DATA _ _ => 1 | DONE => 0 end + datas q)%nat.
Proof. unfold datas. now destruct m. Qed.

Lemma dones_cons m q :
  dones (m :: q) = (match m with DONE => 1 | _ => 0 end + dones q)%nat.
Proof. unfold dones. now destruct m. Qed.

Create Rewrite HintDb run.
#[local] Hint Rewrite begins_app ends_app indexings_app datas_app dones_app
  datas_cons dones_cons scan_app length_app : run.

Lemma init_invariant env : run_invariant env init_state.
Proof.
  unfold run_invariant, phase. simpl. repeat split; auto.
  unfold max_workers. lia.
Qed.

Ltac open_state s :=
  destruct s as [m fl pe ru fe fa qu w st sc lg]; simpl in *; subst.

Ltac inv_split :=
  split; [|split; [|split; [|split; [|split; [|split]]]]].

Ltac arith := simpl in *; unfold max_workers in *; lia.

Ltac break_and :=
  repeat match goal with
  | H : _ /\ _ |- _ => destruct H
  end.

Ltac close :=
  break_and; try arith; auto; try solve [repeat split; auto; arith].

(** An event that is not a write leaves the scan where it is. *)
Lemma scan_event_other o e :
  match e with EWriteBegin _ | EWriteEnd _ _ => False | _ => True end ->
  scan_event (Some o) e = Some o.
Proof. destruct e, o; simpl; intros H; try contradiction; reflexivity. Qed.

Lemma main_step_invariant env s s' :
  run_invariant env s -> step env s TMain s' -> run_invariant env s'.
Proof.
  intros Hinv Hstep. inversion Hstep; subst; clear Hstep; open_state s;
    unfold run_invariant, phase, drained in *; simpl in *;
    destruct Hinv as (Hu & Hp & Hw & Ho & Hs & Hscan & Hph);
    autorewrite with run in *; simpl in *.
  - (* main_no_floats *)
    inversion Hph; subst. inv_split; close. left. repeat split; auto.
  - (* main_list_raises *)
    inversion Hph; subst. inv_split; close. left. repeat split; auto.
  - (* main_dispatch *)
    inversion Hph; subst. inv_split; close.
  - (* main_signal *)
    destruct Hph as (Hfl & Hact & Hd & Hix).
    inv_split; close.
    repeat split; auto. left. split; auto. exists qu. auto.
  - (* main_join *)
    destruct Hph as (Hfl & -> & -> & Hix & [[Hact _]|[[Hw'|Hw'] ->]]);
      try contradiction; try discriminate.
    inv_split; close.
  - (* main_index *)
    destruct Hph as (Hfl & (-> & -> & -> & ->) & Hix).
    rewrite Hscan. simpl.
    destruct (env_create_indexes env) as [u|e] eqn:Hce;
      (inv_split; close).
    right. repeat split; auto. arith.
  - (* main_no_index *)
    destruct Hph as (Hfl & Hdr & Hix).
    inv_split; close.
  - (* main_report *)
    destruct Hph as (Hfl & (-> & -> & -> & ->) & Hix).
    rewrite Hscan. simpl.
    inv_split; close.
    right. repeat split; auto.
    + destruct Hix as [[? ?]|[? ?]]; [left | right]; split; auto; arith.
    + eexists. reflexivity.
Qed.

Lemma app_cons_nil {A} (l1 : list A) x l2 : l1 ++ x :: l2 = [] -> False.
Proof. destruct l1; discriminate. Qed.

Ltac impossible :=
  solve [exfalso;
         repeat match goal with
         | H : _ \/ _ |- _ => destruct H
         | H : _ /\ _ |- _ => destruct H
         end;
         subst; simpl in *;
         try discriminate; try congruence; try arith;
         match goal with
         | H : _ ++ _ :: _ = [] |- _ => exact (app_cons_nil _ _ _ H)
         end].

Lemma worker_step_invariant env s s' :
  run_invariant env s -> step env s TWorker s' -> run_invariant env s'.
Proof.
  intros Hinv Hstep. inversion Hstep; subst; clear Hstep; open_state s;
    unfold run_invariant, phase, drained in *; simpl in *;
    destruct Hinv as (Hu & Hp & Hw & Ho & Hs & Hscan & Hph);
    autorewrite with run in *; simpl in *.
  - (* worker_start *)
    inv_split; close.
    destruct m; try solve [inversion Hph]; close; try impossible.
  - (* worker_put *)
    inv_split; close.
    destruct m; try solve [inversion Hph; subst; destruct r1; discriminate];
      close; try impossible.
  - (* worker_fail *)
    inv_split; close.
    destruct m; try solve [inversion Hph; subst; destruct r1; discriminate];
      close; try impossible.
Qed.

Lemma writer_step_invariant env s s' :
  run_invariant env s -> step env s TWriter s' -> run_invariant env s'.
Proof.
  intros Hinv Hstep. inversion Hstep; subst; clear Hstep; auto.
  all: try (destruct (write_unit env (ends (log s)) fid ds (store s))
              as [st' ok]).
  all: open_state s;
    unfold run_invariant, phase, drained in *; simpl in *;
    destruct Hinv as (Hu & Hp & Hw & Ho & Hs & Hscan & Hph);
    autorewrite with run in *; simpl in *.
  - (* writer_exit *)
    inv_split; close.
    destruct m; try solve [inversion Hph]; close; try impossible.
  - (* writer_done *)
    inv_split; close.
    destruct m; try solve [inversion Hph]; close; try impossible.
    repeat split; auto. right. split; auto.
    destruct H3 as [[_ (q0 & Hq & Hd)]|[_ Hq]]; [|discriminate].
    symmetry in Hq.
    destruct (dones_zero_head _ _ _ Hd Hq)
      as [(_ & _ & ->)|(fid & ds & r & Hm & _)]; [reflexivity|discriminate].
  - (* writer_take *)
    inv_split; close.
    + rewrite Hscan. reflexivity.
    + destruct m; try solve [inversion Hph]; close; try impossible.
      do 3 (split; [assumption|]). split; [arith|].
      destruct H3 as [[Hact (q0 & Hq & Hd)]|[_ Hq]]; [|discriminate].
      symmetry in Hq.
      destruct (dones_zero_head _ _ _ Hd Hq)
        as [(_ & Hm & _)|(fid' & ds' & r & _ & _ & -> & Hr)]; [discriminate|].
      left. split; auto. exists r. auto.
  - (* writer_write *)
    inv_split; close.
    + destruct ok; arith.
    + rewrite Hscan. simpl. destruct (decide (fid = fid)); congruence.
    + destruct m; try solve [inversion Hph]; close; try impossible.
      do 3 (split; [assumption|]). split; [arith|].
      destruct H3 as [[Hact Hq]|[[Hq|Hq] _]]; try discriminate.
      left. split; auto.
Qed.

Lemma step_invariant env s t s' :
  run_invariant env s -> step env s t s' -> run_invariant env s'.
Proof.
  destruct t.
  - apply main_step_invariant.
  - apply worker_step_invariant.
  - apply writer_step_invariant.
Qed.

(** The invariant holds of every state a run can be in. *)
Lemma reachable_invariant env s : reachable env s -> run_invariant env s.
Proof.
  induction 1 as [|s t s' _ IH Hstep].
  - apply init_invariant.
  - exact (step_invariant env s t s' IH Hstep).
Qed.

(** *** The schedule *)

Ltac step_by rule :=
  match goal with
  | |- step ?env ?s0 _ _ => eapply (rule env s0); simpl; eauto
  end.

Lemma next_step env s s' : next env s = Some s' -> exists t, step env s t s'.
Proof.
  destruct s as [m fl pe ru fe fa qu w st sc lg]. unfold next. simpl.
  intros H. destruct m; try discriminate.
  - destruct (list_units env) as [[|f fs]|e] eqn:Hl; injection H as <-;
      exists TMain.
    + step_by main_no_floats.
    + step_by main_dispatch.
    + step_by main_list_raises.
  - destruct ru as [|fid r2].
    + destruct pe as [|fid rest]; injection H as <-.
      * exists TMain. step_by main_signal.
      * exists TWorker. step_by worker_start. unfold max_workers. lia.
    + destruct (fetch_worker (env_fetch env fid)) as [ds|] eqn:Hf;
        injection H as <-; exists TWorker.
      * match goal with
        | |- step ?env ?s0 _ _ =>
          apply (worker_put env s0 [] fid r2 ds); simpl; auto
        end.
      * match goal with
        | |- step ?env ?s0 _ _ =>
          apply (worker_fail env s0 [] fid r2); simpl; auto
        end.
  - destruct w as [|active|active fid ds|]; try discriminate.
    + destruct qu as [|[fid ds|] q].
      * destruct active; [discriminate|]. injection H as <-.
        exists TWriter. step_by writer_exit.
      * injection H as <-. exists TWriter. step_by writer_take.
      * injection H as <-. exists TWriter. step_by writer_done.
    + injection H as <-. exists TWriter.
      match goal with
      | |- step ?env ?s0 _ _ => apply (writer_write env s0 active fid ds)
      end. reflexivity.
    + injection H as <-. exists TMain. step_by main_join.
  - destruct sc as [|n]; injection H as <-; exists TMain.
    + step_by main_no_index.
    + step_by main_index. lia.
  - injection H as <-. exists TMain. step_by main_report.
Qed.

Lemma next_remaining env s s' :
  next env s = Some s' -> (remaining env s' < remaining env s)%nat.
Proof.
  destruct s as [m fl pe ru fe fa qu w st sc lg].
  unfold next, remaining. simpl.
  intros H. destruct m; try discriminate.
  - destruct (list_units env) as [[|f fs]|e] eqn:Hl; injection H as <-;
      simpl; rewrite ?Hl; simpl; lia.
  - destruct ru as [|fid r2].
    + destruct pe as [|fid rest]; injection H as <-; simpl;
        autorewrite with run; simpl; lia.
    + destruct (fetch_worker (env_fetch env fid)) as [ds|];
        injection H as <-; simpl; autorewrite with run; simpl; lia.
  - destruct w as [|active|active fid ds|]; try discriminate.
    + destruct qu as [|[fid ds|] q].
      * destruct active; [discriminate|]. injection H as <-. simpl. lia.
      * injection H as <-. autorewrite with run.
        destruct active; simpl; lia.
      * injection H as <-. autorewrite with run.
        destruct active; simpl; lia.
    + injection H as <-.
      destruct (write_unit env (ends lg) fid ds st) as [st' ok]. simpl.
      destruct active; simpl; lia.
    + injection H as <-. simpl. lia.
  - destruct sc as [|n]; injection H as <-; simpl; [lia|].
    destruct (env_create_indexes env); simpl; lia.
  - injection H as <-. simpl. lia.
Qed.

Lemma next_progress env s :
  run_invariant env s -> ~ terminal s -> exists s', next env s = Some s'.
Proof.
  intros (_ & _ & _ & _ & _ & _ & Hph) Hterm.
  destruct s as [m fl pe ru fe fa qu w st sc lg].
  unfold next, terminal, phase, drained in *. simpl in *.
  destruct m; try (exfalso; apply Hterm; exact I).
  - destruct (list_units env) as [[|f fs]|e]; eauto.
  - destruct ru as [|fid r2].
    + destruct pe as [|fid rest]; eauto.
    + destruct (fetch_worker (env_fetch env fid)); eauto.
  - destruct Hph as (_ & _ & _ & _ & [[Hact (q & -> & _)]|[[->| ->] ->]]);
      eauto.
    destruct w as [|active|active fid ds|]; try contradiction; eauto.
    destruct q as [|[fid ds|] q]; simpl; eauto.
  - destruct sc; eauto.
  - eauto.
Qed.

Lemma classic_terminal s : terminal s \/ ~ terminal s.
Proof. unfold terminal. destruct (main s); auto. Qed.

Lemma run_reachable env n s : reachable env s -> reachable env (run env n s).
Proof.
  revert s. induction n as [|n IH]; simpl; intros s Hs; auto.
  destruct (next env s) as [s'|] eqn:Hn; auto.
  apply IH. destruct (next_step env s s' Hn) as [t Ht].
  exact (reach_step env s t s' Hs Ht).
Qed.

(** The schedule ends every run, within [remaining] steps. *)
Lemma run_terminal env n s :
  reachable env s -> (remaining env s <= n)%nat -> terminal (run env n s).
Proof.
  revert s. induction n as [|n IH]; simpl; intros s Hs Hn.
  - destruct (classic_terminal s) as [Ht|Ht]; auto.
    destruct (next_progress env s (reachable_invariant env s Hs) Ht) as [s' H'].
    apply next_remaining in H'. lia.
  - destruct (next env s) as [s'|] eqn:Hnext.
    + apply IH.
      * destruct (next_step env s s' Hnext) as [t Ht].
        exact (reach_step env s t s' Hs Ht).
      * apply next_remaining in Hnext. lia.
    + destruct (classic_terminal s) as [Ht|Ht]; auto.
      destruct (next_progress env s (reachable_invariant env s Hs) Ht)
        as [s' H']. congruence.
Qed.

Lemma run_steps env n s : steps env s (run env n s).
Proof.
  revert s. induction n as [|n IH]; simpl; intros s; [constructor|].
  destruct (next env s) as [s'|] eqn:Hn; [|constructor].
  destruct (next_step env s s' Hn) as [t Ht].
  exact (steps_cons env s t s' _ Ht (IH s')).
Qed.

(** Every step but the writer's timeout lowers what remains of the run. *)
Lemma step_remaining env s t s' :
  step env s t s' -> s' = s \/ (remaining env s' < remaining env s)%nat.
Proof.
  intros Hstep. inversion Hstep; subst; clear Hstep; auto; right.
  all: try (destruct (write_unit env (ends (log s)) fid ds (store s))
              as [st' ok]).
  all: destruct s as [m fl pe ru fe fa qu w st sc lg];
    cbn [main floats pending running fetched failed queue writer store
         success_count log] in *; subst;
    unfold remaining;
    cbn [main floats pending running fetched failed queue writer store
         success_count log];
    autorewrite with run; simpl;
    try (destruct active; simpl); try lia.
  - rewrite H0. simpl. lia.
  - rewrite H0. simpl. lia.
  - rewrite H0. simpl. lia.
  - destruct (env_create_indexes env); simpl; lia.
Qed.

(** Only the writer thread writes: a step that changes the store, or
    begins or ends a write, is a step of the writer. *)
Lemma step_writes env s t s' :
  step env s t s' ->
  store s' <> store s \/ begins (log s') <> begins (log s)
  \/ ends (log s') <> ends (log s) ->
  t = TWriter.
Proof.
  intros Hstep Hdiff. inversion Hstep; subst; clear Hstep; auto; exfalso;
    simpl in *; autorewrite with run in *; simpl in *;
    destruct Hdiff as [H'|[H'|H']]; try (apply H'; reflexivity); lia.
Qed.

(** [list_floats] never raises, so the run never does at its start. *)
Lemma list_units_ok env : exists fs, list_units env = Ok fs.
Proof. unfold list_units, list_floats. apply try_except_ok. Qed.

Lemma all_fetched env s :
  (forall fid, fetch_worker (env_fetch env fid) <> None) ->
  reachable env s -> failed s = 0%nat.
Proof.
  intros Hall. induction 1 as [|s t s' _ IH Hstep]; [reflexivity|].
  inversion Hstep; subst; clear Hstep; simpl; auto.
  - now destruct (Hall fid).
  - destruct (write_unit env (ends (log s)) fid ds (store s)). exact IH.
Qed.

(** ** The runner's claims *)

(** C7. In every run that dispatches K units, the writer begins at most K
    writes, and once the run is over exactly K minus the number of units
    whose fetch failed, each of them ended (so exactly K when no fetch
    fails); no two writes overlap: the log of the run is serial, with at
    most one write open at any time; and only the writer thread changes
    the relational and columnar stores or begins or ends a write, never
    a fetch worker or the main thread. *)
Theorem writer_is_serial (env : RunEnv) (s : RunState) :
  reachable env s ->
  (begins (log s) <= length (floats s))%nat
  /\ (terminal s ->
      begins (log s) = (length (floats s) - failed s)%nat
      /\ ends (log s) = begins (log s))
  /\ ((forall fid, fetch_worker (env_fetch env fid) <> None) ->
      failed s = 0%nat)
  /\ serial (log s)
  /\ (begins (log s) <= ends (log s) + 1)%nat
  /\ (forall t s', step env s t s' ->
        store s' <> store s \/ begins (log s') <> begins (log s)
        \/ ends (log s') <> ends (log s) ->
        t = TWriter).
Proof.
  intros Hreach.
  destruct (reachable_invariant env s Hreach)
    as (Hu & Hp & Hw & Ho & Hs & Hscan & Hph).
  split; [lia|]. split; [|split; [|split; [|split]]].
  - unfold terminal, phase, drained in *. intros Hterm.
    destruct (main s); try contradiction.
    + destruct Hph as [(Hfl & Hwr & Hlog & _)|(_ & (Hpe & Hru & Hq & Hwr) & _)].
      * rewrite Hlog, Hfl. simpl. split; reflexivity.
      * rewrite Hpe, Hru, Hq, Hwr in *. simpl in *.
        unfold datas in Hw. simpl in Hw. lia.
    + destruct Hph as [(_ & Hfl & Hwr & Hlog & _)
                      |(_ & (Hpe & Hru & Hq & Hwr) & _)].
      * rewrite Hlog, Hfl. simpl. split; reflexivity.
      * rewrite Hpe, Hru, Hq, Hwr in *. simpl in *.
        unfold datas in Hw. simpl in Hw. lia.
  - intros Hall. exact (all_fetched env s Hall Hreach).
  - exists (writing (writer s)). exact Hscan.
  - destruct (writer s); simpl in Ho; lia.
  - intros t s'. apply step_writes.
Qed.

Lemma writer_is_serial_witness :
  begins (log (run env_two 28 init_state)) = 1%nat
  /\ ends (log (run env_two 28 init_state)) = 1%nat
  /\ serial (log (run env_two 28 init_state)).
Proof.
  destruct (writer_is_serial env_two (run env_two 28 init_state))
    as (_ & Hterm & _ & Hserial & _).
  - apply run_reachable, reach_init.
  - destruct Hterm as [Hb He]; [vm_compute; exact I|].
    split; [|split]; [| |exact Hserial].
    + rewrite Hb. vm_compute. reflexivity.
    + rewrite He, Hb. vm_compute. reflexivity.
Defined.

(** The units of a run are those that were listed. *)
Lemma reachable_listing env s :
  reachable env s -> floats s = [] \/ list_units env = Ok (floats s).
Proof.
  induction 1 as [|s t s' Hreach IH Hstep]; [now left|].
  inversion Hstep; subst; clear Hstep;
    try (destruct (write_unit env (ends (log s)) fid ds (store s))
           as [st' ok]); simpl; auto.
Qed.

(** C8, as the code has it. In every run [create_indexes] is invoked at
    most once, by the main thread and only once every unit is drained
    (no worker pending or running, the queue empty, the writer finished,
    every write ended), after which nothing more is written; when the run
    is over it has been invoked exactly when at least one unit succeeded.
    A run that listed at least one unit and in which no unit succeeded
    returns without raising, its last act being the report of zero
    succeeded out of the units listed; no run raises before a unit has
    succeeded, and every run can be brought to its end. A run that lists
    no unit returns at once: it is at its start or has returned, its log
    then being the one error message, without a report and with nothing
    stored. *)
Theorem indexes_built_once (env : RunEnv) (s : RunState) :
  reachable env s ->
  (indexings (log s) <= 1)%nat
  /\ (forall t s', step env s t s' ->
        indexings (log s') <> indexings (log s) ->
        t = TMain /\ drained s /\ ends (log s) = begins (log s)
        /\ begins (log s) = fetched s /\ (0 < success_count s)%nat)
  /\ ((0 < indexings (log s))%nat -> forall t s', step env s t s' ->
        store s' = store s /\ begins (log s') = begins (log s))
  /\ (terminal s -> (indexings (log s) = 1%nat <-> (0 < success_count s)%nat))
  /\ (terminal s -> floats s <> [] -> success_count s = 0%nat ->
        main s = MReturned
        /\ exists l, log s = l ++ [EReport 0 (length (floats s))])
  /\ (success_count s = 0%nat -> forall e, main s <> MRaised e)
  /\ (exists s', steps env s s' /\ terminal s')
  /\ (list_units env = Ok [] ->
      (s = init_state \/ (main s = MReturned /\ log s = [ENoFloats]))
      /\ (forall a b, ~ In (EReport a b) (log s))
      /\ store s = empty_store /\ success_count s = 0%nat).
Proof.
  intros Hreach.
  pose proof (reachable_invariant env s Hreach) as Hinv.
  pose proof (reachable_listing env s Hreach) as Hlisted.
  destruct Hinv as (Hu & Hp & Hw & Ho & Hs & Hscan & Hph).
  assert (Hix : (indexings (log s) <= 1)%nat
                /\ ((0 < indexings (log s))%nat ->
                    writer s = WFinished /\ queue s = []
                    /\ (main s = MJoined -> False)
                    /\ (main s = MStart -> False))).
  { unfold phase, drained in Hph. destruct (main s) eqn:Hm.
    - rewrite Hph. unfold indexings. simpl. split; [lia|].
      intros H. inversion H.
    - destruct Hph as (_ & _ & _ & ->). split; [lia|]. intros H. inversion H.
    - destruct Hph as (_ & _ & _ & -> & _). split; [lia|].
      intros H. inversion H.
    - destruct Hph as (_ & _ & ->). split; [lia|]. intros H. inversion H.
    - destruct Hph as (_ & (_ & _ & Hq & Hwr) & [[-> _]|[-> _]]);
        (split; [lia|]); intros H; try solve [inversion H];
        repeat split; auto; discriminate.
    - destruct Hph as [(_ & _ & -> & _)
                      |(_ & (_ & _ & Hq & Hwr) & [[-> _]|[-> _]] & _)];
        unfold indexings; simpl; (split; [lia|]); intros H;
        try solve [inversion H]; repeat split; auto; discriminate.
    - destruct Hph as [(_ & _ & _ & -> & _)
                      |(_ & (_ & _ & Hq & Hwr) & -> & _)];
        unfold indexings; simpl; (split; [lia|]); intros H;
        try solve [inversion H]; repeat split; auto; discriminate. }
  destruct Hix as [Hle Hafter].
  split; [exact Hle|]. split; [|split; [|split; [|split; [|split; [|split]]]]].
  - intros t s' Hstep Hdiff.
    inversion Hstep; subst; clear Hstep;
      try (destruct (write_unit env (ends (log s)) fid ds (store s)));
      simpl in Hdiff; autorewrite with run in Hdiff; simpl in Hdiff;
      try (exfalso; apply Hdiff; lia).
    unfold phase in Hph. rewrite H in Hph.
    destruct Hph as (_ & Hdr & _). pose proof Hdr as (Hpe & Hru & Hq & Hwr).
    rewrite Hq, Hwr in *. unfold datas in Hw. simpl in *.
    repeat split; auto; lia.
  - intros Hpos t s' Hstep.
    destruct (Hafter Hpos) as (Hwr & Hq & Hnj & Hns).
    inversion Hstep; subst; clear Hstep;
      try (destruct (write_unit env (ends (log s)) fid ds (store s)));
      simpl; autorewrite with run; simpl;
      try congruence; try (split; [reflexivity|lia]);
      try (exfalso; auto; fail).
  - intros Hterm. unfold terminal, phase in *.
    destruct (main s); try contradiction.
    + destruct Hph as [(_ & _ & -> & _ & ->)|(_ & _ & [[-> H]|[-> ->]] & _)];
        simpl; split; intros; try lia; try discriminate.
    + destruct Hph as [(_ & _ & _ & Hlog & _)|(_ & _ & -> & H & _)].
      * rewrite Hlog in *. unfold indexings, ends in *. simpl in *.
        split; intros; [discriminate | lia].
      * split; auto.
  - intros Hterm Hfl Hsc. unfold terminal, phase in *.
    destruct (main s); try contradiction.
    + split; [reflexivity|].
      destruct Hph as [(Hfl' & _)|(_ & _ & _ & l & Hl)]; [contradiction|].
      exists l. now rewrite Hsc in Hl.
    + destruct Hph as [(_ & Hfl' & _)|(_ & _ & _ & H & _)];
        [contradiction|lia].
  - intros Hsc e Hm. unfold phase in Hph. rewrite Hm in Hph.
    destruct Hph as [(Hl & _)|(_ & _ & _ & H & _)]; [|lia].
    destruct (list_units_ok env) as [fs Hfs]. congruence.
  - exists (run env (remaining env s) s). split.
    + apply run_steps.
    + apply run_terminal; auto.
  - intros Hnone.
    assert (Hfl : floats s = []).
    { destruct Hlisted as [Hfl|Hfl]; [exact Hfl | congruence]. }
    unfold phase in Hph. destruct (main s) eqn:Hm.
    + rewrite Hph. split; [now left|]. split; [intros a b []|].
      split; reflexivity.
    + now destruct Hph as (Hne & _).
    + now destruct Hph as (Hne & _).
    + now destruct Hph as (Hne & _).
    + now destruct Hph as (Hne & _).
    + destruct Hph as [(_ & _ & Hlog & Hst & Hsc)|(Hne & _)];
        [|contradiction].
      split; [now right|]. split; [|now split].
      rewrite Hlog. intros a b [H|[]]. discriminate.
    + destruct Hph as [(Hraise & _)|(Hne & _)]; [congruence | contradiction].
Qed.

Lemma indexes_built_once_witness :
  main (run env_no_storage 28 init_state) = MReturned
  /\ (exists l, log (run env_no_storage 28 init_state)
                = l ++ [EReport 0 2])
  /\ indexings (log (run env_two 28 init_state)) = 1%nat.
Proof.
  destruct (indexes_built_once env_no_storage (run env_no_storage 28 init_state))
    as (_ & _ & _ & _ & Hzero & _).
  { apply run_reachable, reach_init. }
  destruct Hzero as [Hmain Hlog].
  { vm_compute. exact I. }
  { vm_compute. discriminate. }
  { vm_compute. reflexivity. }
  split; [exact Hmain|]. split; [exact Hlog|].
  destruct (indexes_built_once env_two (run env_two 28 init_state))
    as (_ & _ & _ & Hiff & _).
  { apply run_reachable, reach_init. }
  apply Hiff.
  - vm_compute. exact I.
  - vm_compute. lia.
Defined.

(** C8 as stated fails: when no unit is listed the run returns at once;
    no unit succeeded, yet nothing is reported but the error. *)
Lemma no_report_without_units :
  reachable env_down (run env_down 1 init_state)
  /\ terminal (run env_down 1 init_state)
  /\ success_count (run env_down 1 init_state) = 0%nat
  /\ log (run env_down 1 init_state) = [ENoFloats]
  /\ (forall a b, ~ In (EReport a b) (log (run env_down 1 init_state))).
Proof.
  split; [apply run_reachable, reach_init|].
  split; [vm_compute; exact I|]. split; [vm_compute; reflexivity|].
  assert (Hlog : log (run env_down 1 init_state) = [ENoFloats])
    by (vm_compute; reflexivity).
  split; [exact Hlog|]. rewrite Hlog. intros a b [H|[]]. discriminate.
Qed.

(** ** Further properties of the extractor *)

(** A loop whose iterations each append, to a list read off the state,
    some of what they are allowed to, appends a sublist of the whole. *)
Lemma for_in_sublist {A S K} (key : S -> list K) (g : A -> list K)
    (xs : list A) (body : A -> S -> result S) :
  (forall x t t', In x xs -> body x t = Ok t' ->
     exists k, key t' = key t ++ k /\ sublist k (g x)) ->
  forall s s', for_in xs body s = Ok s' ->
    exists k, key s' = key s ++ k /\ sublist k (flat_map g xs).
Proof.
  induction xs as [|x xs IH]; simpl; intros Hbody s s' Hrun.
  - injection Hrun as <-. exists []. rewrite app_nil_r. split; constructor.
  - bind_inv Hrun.
    destruct (Hbody x s v (or_introl eq_refl) E) as (k1 & Hk1 & Hs1).
    destruct (IH (fun y t t' Hy => Hbody y t t' (or_intror Hy)) v s' Hrun)
      as (k2 & Hk2 & Hs2).
    exists (k1 ++ k2). rewrite Hk2, Hk1, <- app_assoc. split; auto.
    now apply sublist_app.
Qed.

Lemma build_measurement_key ds fid p l acc acc' :
  build_measurement ds fid p l acc = Ok acc' ->
  exists k, map row_key acc' = map row_key acc ++ k /\ sublist k [(p, l)].
Proof.
  intros H. unfold build_measurement in H.
  bind_inv H. bind_inv H. bind_inv H. bind_inv H.
  destruct v2; injection H as <-.
  - exists [(p, l)]. rewrite map_app. split; [reflexivity|]. reflexivity.
  - exists []. rewrite app_nil_r. split; [reflexivity|]. apply sublist_nil_l.
Qed.

Lemma flat_map_singleton {A B} (f : A -> B) (xs : list A) :
  flat_map (fun x => [f x]) xs = map f xs.
Proof. induction xs; simpl; congruence. Qed.

Lemma filter_sublist {A} (f : A -> bool) (l : list A) :
  sublist (List.filter f l) l.
Proof.
  induction l as [|x l IH]; simpl; [constructor|].
  destruct (f x); now constructor.
Qed.

Lemma dropna_all_sublist df : sublist (dropna_all df) df.
Proof. apply filter_sublist. Qed.

Lemma sublist_map {A B} (f : A -> B) (l1 l2 : list A) :
  sublist l1 l2 -> sublist (map f l1) (map f l2).
Proof. induction 1; simpl; now constructor. Qed.

Lemma build_measurement_tagged ds fid p l acc acc' :
  Forall (fun m => meas_float_id m = fid) acc ->
  build_measurement ds fid p l acc = Ok acc' ->
  Forall (fun m => meas_float_id m = fid) acc'.
Proof.
  intros Hacc H. unfold build_measurement in H.
  bind_inv H. bind_inv H. bind_inv H. bind_inv H.
  destruct v2; injection H as <-; auto.
  apply Forall_app. split; auto.
Qed.

Lemma length_cross n_prof n_levels :
  length (cross n_prof n_levels) = (n_prof * n_levels)%nat.
Proof.
  unfold cross. generalize 0%nat at 2.
  induction n_prof as [|n IH]; simpl; intros a; [reflexivity|].
  rewrite length_app, length_map, length_seq, IH. reflexivity.
Qed.

Lemma NoDup_cross n_prof n_levels : NoDup (cross n_prof n_levels).
Proof.
  unfold cross. generalize 0%nat at 2.
  induction n_prof as [|n IH]; simpl; intros a; [constructor|].
  apply NoDup_app. split; [|split].
  - apply NoDup_fmap_2; [intros x y [= ->]; reflexivity|]. apply NoDup_seq.
  - intros [p l] Hin Hin'.
    apply list_elem_of_In, in_map_iff in Hin as (l0 & [= <- <-] & _).
    apply list_elem_of_In, in_flat_map in Hin' as (p' & Hp' & Hin').
    apply in_map_iff in Hin' as (l1 & [= -> _] & _).
    apply in_seq in Hp'. lia.
  - apply IH.
Qed.

Lemma level_loop_keys ds fid p ls acc acc' :
  for_in ls (fun l => build_measurement ds fid p l) acc = Ok acc' ->
  exists k, map row_key acc' = map row_key acc ++ k
            /\ sublist k (map (pair p) ls).
Proof.
  intros H. rewrite <- (flat_map_singleton (pair p)).
  revert acc acc' H. apply for_in_sublist.
  intros l u u' _. apply build_measurement_key.
Qed.

(** X1. The rows that [extract_measurements] returns are in the order of
    the two loops and each (profile, level) pair occurs at most once: their
    keys form a sublist of the pairs visited. So no row lies outside the
    dimensions, there are at most N_PROF * N_LEVELS rows, and every row
    carries the float id the function was given. *)
Theorem extract_measurements_rows (ds : Dataset) (fid : pystr)
    (rows : list Measurement) :
  extract_measurements ds fid = Ok rows ->
  sublist (map row_key rows) (cross (n_prof_of ds) (n_levels_of ds))
  /\ NoDup (map row_key rows)
  /\ (length rows <= n_prof_of ds * n_levels_of ds)%nat
  /\ (forall m, In m rows ->
        (meas_profile_id m < n_prof_of ds)%nat
        /\ (level m < n_levels_of ds)%nat /\ meas_float_id m = fid).
Proof.
  intros Hrun. unfold extract_measurements in Hrun. bind_inv Hrun.
  assert (Hsub : sublist (map row_key v)
                   (cross (n_prof_of ds) (n_levels_of ds))).
  { destruct (for_in_sublist (map row_key)
                (fun p => map (pair p) (seq 0 (n_levels_of ds)))
                (seq 0 (n_prof_of ds)) _
                (fun p t t' _ => level_loop_keys ds fid p _ t t')
                [] v E) as (k & Hk & Hs).
    simpl in Hk. now rewrite Hk. }
  assert (Htag : Forall (fun m => meas_float_id m = fid) v).
  { revert E. apply for_in_invariant; [|constructor].
    intros p s s' _ Hs. apply for_in_invariant; auto.
    intros l t t' _. apply build_measurement_tagged. }
  assert (Hrows : sublist rows v).
  { destruct v as [|m v]; injection Hrun as <-; [constructor|].
    exact (dropna_all_sublist (m :: v)). }
  assert (Hkeys : sublist (map row_key rows)
                    (cross (n_prof_of ds) (n_levels_of ds))).
  { etransitivity; [apply sublist_map; exact Hrows | exact Hsub]. }
  split; [exact Hkeys|]. split; [|split].
  - exact (sublist_NoDup _ _ (NoDup_cross _ _) Hkeys).
  - apply sublist_length in Hkeys.
    now rewrite length_map, length_cross in Hkeys.
  - intros m Hm.
    assert (Hin : In (row_key m) (cross (n_prof_of ds) (n_levels_of ds))).
    { apply list_elem_of_In. eapply sublist_subseteq; [exact Hkeys|].
      apply list_elem_of_In, in_map. exact Hm. }
    unfold cross in Hin. apply in_flat_map in Hin as (p & Hp & Hin).
    apply in_map_iff in Hin as (l & [= <- <-] & Hl).
    apply in_seq in Hp. apply in_seq in Hl.
    repeat split; try lia.
    apply (proj1 (List.Forall_forall _ _) Htag).
    apply list_elem_of_In. eapply sublist_subseteq; [exact Hrows|].
    now apply list_elem_of_In.
Qed.

Lemma extract_measurements_rows_witness :
  NoDup (map row_key ms_argo) /\ (length ms_argo <= 2 * 3)%nat.
Proof.
  destruct (extract_measurements_rows ds_argo fid0 ms_argo)
    as (_ & Hnodup & Hlen & _).
  - vm_compute. reflexivity.
  - split; [exact Hnodup | exact Hlen].
Defined.

(** X2. Without a PRES variable [extract_measurements] returns an empty
    frame, whatever the dimensions and the other variables are: every
    pressure reads as None and no row passes the test of line 75. *)
Theorem extract_measurements_no_pres (ds : Dataset) (fid : pystr) :
  variables ds !! "PRES" = None -> extract_measurements ds fid = Ok [].
Proof.
  intros Hp. unfold extract_measurements.
  assert (Hbody : forall p l acc, build_measurement ds fid p l acc = Ok acc).
  { intros p l acc. unfold build_measurement.
    unfold _get_value at 1. rewrite Hp. simpl.
    destruct (get_value_total ds "TEMP" (ITuple [p; l])) as [t ->].
    destruct (get_value_total ds "PSAL" (ITuple [p; l])) as [s ->].
    reflexivity. }
  assert (Hinner : forall p ls acc,
            for_in ls (fun l => build_measurement ds fid p l) acc = Ok acc).
  { intros p ls. induction ls as [|l ls IH]; simpl; intros acc; auto.
    rewrite Hbody. simpl. apply IH. }
  assert (Houter : forall ps acc,
            for_in ps (fun p => for_in (seq 0 (n_levels_of ds))
                                  (fun l => build_measurement ds fid p l)) acc
            = Ok acc).
  { induction ps as [|p ps IH]; simpl; intros acc; auto.
    rewrite Hinner. simpl. apply IH. }
  rewrite Houter. reflexivity.
Qed.

Lemma extract_measurements_no_pres_witness :
  extract_measurements ds_no_pres fid0 = Ok [].
Proof.
  apply extract_measurements_no_pres. vm_compute. reflexivity.
Defined.

(** *** Text cells *)

Lemma lstrip_head p s : head_ok p (lstrip_with p s).
Proof.
  induction s as [|c s IH]; simpl; [exact I|].
  destruct (p c) eqn:E; [exact IH | exact E].
Qed.

Lemma lstrip_suffix p s : exists pre, s = pre ++ lstrip_with p s.
Proof.
  induction s as [|c s [pre IH]]; simpl; [now exists []|].
  destruct (p c); [|now exists []].
  exists (c :: pre). simpl. now rewrite <- IH.
Qed.

Lemma strip_with_trimmed p s : trimmed p (strip_with p s).
Proof.
  unfold trimmed, strip_with. split.
  - destruct (lstrip_suffix p (rev (lstrip_with p s))) as [pre H].
    apply (f_equal (@rev N)) in H.
    rewrite rev_involutive, rev_app_distr in H.
    pose proof (lstrip_head p s) as Hh. rewrite H in Hh.
    destruct (rev (lstrip_with p (rev (lstrip_with p s)))); [exact I|].
    exact Hh.
  - rewrite rev_involutive. apply lstrip_head.
Qed.

Lemma lstrip_fixed p s : head_ok p s -> lstrip_with p s = s.
Proof. destruct s as [|c s]; simpl; [reflexivity|]. now intros ->. Qed.

Lemma strip_with_fixed p s : trimmed p s -> strip_with p s = s.
Proof.
  intros [H1 H2]. unfold strip_with.
  now rewrite (lstrip_fixed p s H1), (lstrip_fixed p (rev s) H2),
    rev_involutive.
Qed.

(** X4. A string that [_get_value] reads from a bytes variable is the
    UTF-8 decoding of the cell with the white space at both ends removed:
    it neither begins nor ends with a white-space character, and
    stripping it again changes nothing. *)
Theorem get_value_text_trimmed (ds : Dataset) (var_name : string)
    (ix : index) (a : ndarray pybytes) (s : pystr) :
  variables ds !! var_name = Some (BytesArray a) ->
  _get_value ds var_name ix = Ok (PStr s) ->
  trimmed isspace s /\ strip s = s
  /\ exists b raw, getitem a (index_list ix) = Ok (Item b)
                   /\ decode b = Ok raw /\ s = strip raw.
Proof.
  intros Hd H. unfold _get_value in H. rewrite Hd in H. simpl in H.
  destruct (getitem a (index_list ix)) as [[b|l]|e] eqn:Hg; simpl in H;
    try discriminate.
  destruct (decode b) as [raw|e] eqn:Hb; simpl in H; try discriminate.
  injection H as <-.
  pose proof (strip_with_trimmed isspace raw) as Ht.
  split; [exact Ht|]. split; [exact (strip_with_fixed _ _ Ht)|].
  now exists b, raw.
Qed.

Lemma get_value_text_trimmed_witness :
  trimmed isspace (lit "1900722").
Proof.
  apply (get_value_text_trimmed ds_argo "PLATFORM_NUMBER" (IInt 0)
           (Axis [Item (bytes_of "1900722 "); Item [Byte.xff]])).
  - vm_compute. reflexivity.
  - vm_compute. reflexivity.
Defined.

(** *** The profile frame *)

(** X5. The rows that [extract_profiles] returns are one per profile
    index, in the order of the indices 0, 1, ..., N_PROF - 1, and every
    row carries the float id and the data center that were passed. *)
Theorem extract_profiles_rows {lib : Installed} (ds : Dataset) (fid dc : pystr)
    (rows : list Profile) :
  extract_profiles ds fid dc = Ok rows ->
  map profile_id rows = seq 0 (n_prof_of ds)
  /\ length rows = n_prof_of ds
  /\ (forall p, In p rows -> float_id p = fid /\ data_center p = dc).
Proof.
  intros Hrun. pose proof (extract_profiles_ids _ _ _ _ Hrun) as Hids.
  split; [exact Hids|]. split.
  - rewrite <- (length_map profile_id), Hids. apply length_seq.
  - intros p Hin. apply extract_profiles_built in Hrun.
    apply (proj1 (List.Forall_forall _ _) Hrun) in Hin.
    destruct (build_profile_fields _ _ _ _ _ Hin) as (Hf & Hc & _).
    now split.
Qed.

Lemma extract_profiles_rows_witness :
  map profile_id ps_argo = [0; 1]%nat.
Proof.
  apply (extract_profiles_rows (lib := lib_narrow) ds_argo fid0 dc0 ps_argo).
  vm_compute. reflexivity.
Defined.

(** ** Storing one unit *)

Lemma extract_profiles_empty {lib : Installed} ds fid dc :
  sizes ds !! "N_PROF" = Some 0%nat -> extract_profiles ds fid dc = Ok [].
Proof.
  intros H. unfold extract_profiles, n_prof_of. now rewrite H.
Qed.

Lemma extract_measurements_empty ds fid :
  sizes ds !! "N_PROF" = Some 0%nat -> extract_measurements ds fid = Ok [].
Proof.
  intros H. unfold extract_measurements, n_prof_of. now rewrite H.
Qed.

(** X6. A dataset whose N_PROF dimension has size 0 yields two empty
    frames; [stream_to_sql] and [stream_to_parquet] then return without
    writing anything and without touching the back end, whatever its
    state, and the writer of the runner counts the unit as a success
    although nothing was stored. *)
Theorem no_profiles_nothing_stored {lib : Installed} (ds : Dataset) (fid dc : pystr)
    (be : Backend) (st : Store) (env : RunEnv) (n : nat) :
  sizes ds !! "N_PROF" = Some 0%nat ->
  extract_profiles ds fid dc = Ok []
  /\ extract_measurements ds fid = Ok []
  /\ stream_to_sql ds fid dc be st = (st, Ok tt)
  /\ stream_to_parquet ds fid dc be st = (st, Ok tt)
  /\ write_unit env n fid ds st = (st, true).
Proof.
  intros H.
  assert (Hsql : forall lib' dc' be',
            stream_to_sql (lib := lib') ds fid dc' be' st = (st, Ok tt)).
  { intros lib' dc' be'. unfold stream_to_sql.
    now rewrite (extract_profiles_empty (lib := lib') _ _ _ H),
      (extract_measurements_empty _ _ H). }
  assert (Hpq : forall lib' dc' be',
            stream_to_parquet (lib := lib') ds fid dc' be' st = (st, Ok tt)).
  { intros lib' dc' be'. unfold stream_to_parquet.
    now rewrite (extract_profiles_empty (lib := lib') _ _ _ H),
      (extract_measurements_empty _ _ H). }
  split; [now apply extract_profiles_empty|].
  split; [now apply extract_measurements_empty|].
  split; [apply Hsql|]. split; [apply Hpq|].
  unfold write_unit. rewrite Hsql.
  destruct (env_save_parquet env); [|reflexivity]. now rewrite Hpq.
Qed.

Lemma no_profiles_nothing_stored_witness :
  write_unit env_no_storage 0 fid0 ds_no_profiles empty_store
  = (empty_store, true).
Proof.
  apply (no_profiles_nothing_stored (lib := lib_narrow) ds_no_profiles fid0 dc0 healthy).
  vm_compute. reflexivity.
Defined.

Lemma extract_measurements_tagged ds fid rows m :
  extract_measurements ds fid = Ok rows -> In m rows -> meas_float_id m = fid.
Proof.
  intros Hrun Hin. unfold extract_measurements in Hrun. bind_inv Hrun.
  assert (Htag : Forall (fun m => meas_float_id m = fid) v).
  { revert E. apply for_in_invariant; [|constructor].
    intros p s s' _ Hs. apply for_in_invariant; auto.
    intros l t t' _. apply build_measurement_tagged. }
  apply (proj1 (List.Forall_forall _ _) Htag).
  destruct v as [|m0 v]; injection Hrun as <-; [exact Hin|].
  exact (dropna_all_incl (m0 :: v) m Hin).
Qed.

(** What [stream_to_sql] leaves, by the outcome of the two extractions and
    of the two writes. *)
Lemma stream_to_sql_cases {lib : Installed} ds fid dc be st :
  (stream_to_sql ds fid dc be st = (st, snd (stream_to_sql ds fid dc be st)))
  \/ (exists ps ms,
        extract_profiles ds fid dc = Ok ps /\ ps <> []
        /\ extract_measurements ds fid = Ok ms
        /\ sql_profiles be = Ok tt
        /\ ((stream_to_sql ds fid dc be st
             = (with_tables st (profiles st ++ ps) (measurements st), Ok tt)
             /\ ms = [])
            \/ (exists e,
                  stream_to_sql ds fid dc be st
                  = (with_tables st (profiles st ++ ps) (measurements st),
                     Raise e)
                  /\ ms <> [] /\ sql_measurements be = Raise e)
            \/ (stream_to_sql ds fid dc be st
                = (with_tables st (profiles st ++ ps) (measurements st ++ ms),
                   Ok tt)
                /\ ms <> [] /\ sql_measurements be = Ok tt))).
Proof.
  unfold stream_to_sql.
  destruct (extract_profiles ds fid dc) as [ps|e] eqn:Hp; [|now left].
  destruct (extract_measurements ds fid) as [ms|e] eqn:Hm; [|now left].
  destruct ps as [|p ps]; [now left|].
  destruct (sql_profiles be) as [[]|e] eqn:Hb; [|now left].
  right. exists (p :: ps), ms. do 4 (split; [easy|]).
  destruct ms as [|m ms]; [now left|].
  destruct (sql_measurements be) as [[]|e] eqn:Hb'; right.
  - right. easy.
  - left. exists e. easy.
Qed.

(** X7. [stream_to_sql] only ever appends: whatever the dataset and the
    back end do, the two tables it leaves are the tables it found followed
    by new rows, every new row carries the float id (and, for a profile,
    the data center) that was passed, measurements are never added without
    profiles, and no Parquet file is touched. *)
Theorem stream_to_sql_append_only {lib : Installed} (ds : Dataset) (fid dc : pystr)
    (be : Backend) (st : Store) :
  exists ps ms,
    profiles (fst (stream_to_sql ds fid dc be st)) = profiles st ++ ps
    /\ measurements (fst (stream_to_sql ds fid dc be st))
       = measurements st ++ ms
    /\ (forall p, In p ps -> float_id p = fid /\ data_center p = dc)
    /\ (forall m, In m ms -> meas_float_id m = fid)
    /\ (ms <> [] -> ps <> [])
    /\ profile_files (fst (stream_to_sql ds fid dc be st)) = profile_files st
    /\ measurement_files (fst (stream_to_sql ds fid dc be st))
       = measurement_files st.
Proof.
  assert (Hnone : forall ps0 : list Profile,
            (forall p, In p ps0 -> float_id p = fid /\ data_center p = dc) ->
            profiles st ++ ps0 = profiles st ++ ps0
            /\ measurements st = measurements st ++ []
            /\ (forall p, In p ps0 -> float_id p = fid /\ data_center p = dc)
            /\ (forall m : Measurement, In m [] -> meas_float_id m = fid)
            /\ (@nil Measurement <> [] -> ps0 <> [])
            /\ profile_files st = profile_files st
            /\ measurement_files st = measurement_files st).
  { intros ps0 Hps0. rewrite app_nil_r.
    split; [reflexivity|]. split; [reflexivity|]. split; [exact Hps0|].
    split; [intros m []|]. split; [congruence|]. split; reflexivity. }
  destruct (stream_to_sql_cases ds fid dc be st)
    as [->|(ps & ms & Hp & Hne & Hm & _ & Hcase)].
  - exists [], []. cbn [fst]. rewrite !app_nil_r.
    split; [reflexivity|]. split; [reflexivity|]. split; [intros p []|].
    split; [intros m []|]. split; [congruence|]. split; reflexivity.
  - assert (Hps : forall p, In p ps -> float_id p = fid /\ data_center p = dc).
    { intros p Hin. apply extract_profiles_built in Hp.
      apply (proj1 (List.Forall_forall _ _) Hp) in Hin.
      destruct (build_profile_fields _ _ _ _ _ Hin) as (Hf & Hc & _).
      now split. }
    destruct Hcase as [[-> ->]|[(e & -> & _)|(-> & _)]].
    + exists ps, []. simpl. now apply Hnone.
    + exists ps, []. simpl. now apply Hnone.
    + exists ps, ms. simpl.
      split; [reflexivity|]. split; [reflexivity|]. split; [exact Hps|].
      split; [intros m; exact (extract_measurements_tagged ds fid ms m Hm)|].
      split; [intros _; exact Hne|]. split; reflexivity.
Qed.

Lemma stream_to_sql_append_only_witness :
  exists (ps : list Profile) (ms : list Measurement),
    profiles (fst (stream_to_sql (lib := lib_narrow) ds_argo fid0 dc0 half_healthy empty_store))
    = [] ++ ps
    /\ (ms <> [] -> ps <> []).
Proof.
  destruct (stream_to_sql_append_only (lib := lib_narrow) ds_argo fid0 dc0 half_healthy
              empty_store) as (ps & ms & Hp & _ & _ & _ & Hne & _).
  exists ps, ms. split; [exact Hp | exact Hne].
Defined.

(** X8. [stream_to_sql] is not atomic: when the profiles write goes
    through and the measurements write raises, the exception leaves the
    function with the profile rows already in the table, and the writer
    of the runner reports the unit as failed with these rows stored. *)
Theorem stream_to_sql_partial_write (ds : Dataset) (fid : pystr)
    (env : RunEnv) (n : nat) (st : Store)
    (ps : list Profile) (ms : list Measurement) (e : exn) :
  extract_profiles (lib := env_installed env) ds fid (env_data_center env) = Ok ps -> ps <> [] ->
  extract_measurements ds fid = Ok ms -> ms <> [] ->
  sql_profiles (env_backend env n) = Ok tt ->
  sql_measurements (env_backend env n) = Raise e ->
  stream_to_sql (lib := env_installed env) ds fid (env_data_center env) (env_backend env n) st
  = (with_tables st (profiles st ++ ps) (measurements st), Raise e)
  /\ write_unit env n fid ds st
     = (with_tables st (profiles st ++ ps) (measurements st), false).
Proof.
  intros Hp Hne Hm Hne' Hb Hb'.
  assert (H : stream_to_sql (lib := env_installed env) ds fid
                (env_data_center env) (env_backend env n) st
              = (with_tables st (profiles st ++ ps) (measurements st),
                 Raise e)).
  { unfold stream_to_sql. rewrite Hp, Hm, Hb, Hb'.
    destruct ps as [|p ps]; [contradiction|].
    destruct ms as [|m ms]; [contradiction|]. reflexivity. }
  split; [exact H|]. unfold write_unit. now rewrite H.
Qed.

Lemma stream_to_sql_partial_write_witness :
  write_unit env_half 0 fid0 ds_argo empty_store
  = (with_tables empty_store ps_argo [], false).
Proof.
  apply (stream_to_sql_partial_write ds_argo fid0 env_half 0 empty_store
           ps_argo ms_argo OperationalError).
  - vm_compute. reflexivity.
  - discriminate.
  - vm_compute. reflexivity.
  - discriminate.
  - reflexivity.
  - reflexivity.
Defined.

Lemma stream_to_sql_healthy {lib : Installed} ds fid dc st ps ms :
  extract_profiles ds fid dc = Ok ps -> ps <> [] ->
  extract_measurements ds fid = Ok ms ->
  snd (stream_to_sql ds fid dc healthy st) = Ok tt
  /\ profiles (fst (stream_to_sql ds fid dc healthy st)) = profiles st ++ ps
  /\ measurements (fst (stream_to_sql ds fid dc healthy st))
     = measurements st ++ ms
  /\ profile_files (fst (stream_to_sql ds fid dc healthy st))
     = profile_files st
  /\ measurement_files (fst (stream_to_sql ds fid dc healthy st))
     = measurement_files st.
Proof.
  intros Hp Hne Hm. unfold stream_to_sql. rewrite Hp, Hm.
  destruct ps as [|p ps]; [contradiction|].
  destruct ms as [|m ms]; simpl; rewrite ?app_nil_r; repeat split.
Qed.

(** X9. [stream_to_sql] is not idempotent: streaming the same dataset a
    second time into a healthy database appends its rows a second time,
    so every row of the unit is then stored twice. *)
Theorem stream_to_sql_twice {lib : Installed} (ds : Dataset) (fid dc : pystr) (st : Store)
    (ps : list Profile) (ms : list Measurement) :
  extract_profiles ds fid dc = Ok ps -> ps <> [] ->
  extract_measurements ds fid = Ok ms ->
  profiles (fst (stream_to_sql ds fid dc healthy
                   (fst (stream_to_sql ds fid dc healthy st))))
  = profiles st ++ ps ++ ps
  /\ measurements (fst (stream_to_sql ds fid dc healthy
                          (fst (stream_to_sql ds fid dc healthy st))))
     = measurements st ++ ms ++ ms.
Proof.
  intros Hp Hne Hm.
  destruct (stream_to_sql_healthy ds fid dc st ps ms Hp Hne Hm)
    as (_ & Hp1 & Hm1 & _).
  destruct (stream_to_sql_healthy ds fid dc
              (fst (stream_to_sql ds fid dc healthy st)) ps ms Hp Hne Hm)
    as (_ & Hp2 & Hm2 & _).
  rewrite Hp2, Hm2, Hp1, Hm1, <- !app_assoc. split; reflexivity.
Qed.

Lemma stream_to_sql_twice_witness :
  profiles (fst (stream_to_sql (lib := lib_narrow) ds_argo fid0 dc0 healthy
                   (fst (stream_to_sql (lib := lib_narrow) ds_argo fid0 dc0 healthy empty_store))))
  = ps_argo ++ ps_argo.
Proof.
  apply (stream_to_sql_twice (lib := lib_narrow) ds_argo fid0 dc0 empty_store ps_argo ms_argo).
  - vm_compute. reflexivity.
  - discriminate.
  - vm_compute. reflexivity.
Defined.

(** X10. [stream_to_parquet] never touches the relational tables, and it
    replaces rather than appends: streaming the same dataset again, over
    the same back end, leaves the store and the outcome exactly as the
    first time. *)
Theorem stream_to_parquet_idempotent {lib : Installed} (ds : Dataset) (fid dc : pystr)
    (be : Backend) (st : Store) :
  profiles (fst (stream_to_parquet ds fid dc be st)) = profiles st
  /\ measurements (fst (stream_to_parquet ds fid dc be st)) = measurements st
  /\ stream_to_parquet ds fid dc be (fst (stream_to_parquet ds fid dc be st))
     = stream_to_parquet ds fid dc be st.
Proof.
  unfold stream_to_parquet.
  destruct (extract_profiles ds fid dc) as [ps|e]; [|easy].
  destruct (extract_measurements ds fid) as [ms|e]; [|easy].
  destruct ps as [|p ps], ms as [|m ms];
    destruct (parquet_profiles be) as [[]|e1];
    destruct (parquet_measurements be) as [[]|e2];
    cbn; rewrite ?insert_insert_eq; easy.
Qed.

(** X11. After a [stream_to_parquet] that returns, a frame that is not
    empty is the content of the file named after the data center and the
    float, whatever the file held before; for an empty frame no file is
    written, so a file of that name left by an earlier run stays as it
    was. No other file changes. *)
Theorem stream_to_parquet_files {lib : Installed} (ds : Dataset) (fid dc : pystr)
    (be : Backend) (st : Store) (ps : list Profile) (ms : list Measurement) :
  extract_profiles ds fid dc = Ok ps ->
  extract_measurements ds fid = Ok ms ->
  snd (stream_to_parquet ds fid dc be st) = Ok tt ->
  profile_files (fst (stream_to_parquet ds fid dc be st))
    !! parquet_name (lit "profiles") dc fid
  = match ps with
    | [] => profile_files st !! parquet_name (lit "profiles") dc fid
    | _ => Some ps
    end
  /\ measurement_files (fst (stream_to_parquet ds fid dc be st))
       !! parquet_name (lit "measurements") dc fid
     = match ms with
       | [] => measurement_files st !! parquet_name (lit "measurements") dc fid
       | _ => Some ms
       end
  /\ (forall name, name <> parquet_name (lit "profiles") dc fid ->
        profile_files (fst (stream_to_parquet ds fid dc be st)) !! name
        = profile_files st !! name)
  /\ (forall name, name <> parquet_name (lit "measurements") dc fid ->
        measurement_files (fst (stream_to_parquet ds fid dc be st)) !! name
        = measurement_files st !! name).
Proof.
  intros Hp Hm. unfold stream_to_parquet. rewrite Hp, Hm.
  destruct ps as [|p ps], ms as [|m ms];
    destruct (parquet_profiles be) as [[]|e1];
    destruct (parquet_measurements be) as [[]|e2];
    cbn; intros Hok; try discriminate;
    rewrite ?lookup_insert_eq;
    (split; [reflexivity|]); (split; [reflexivity|]);
    split; intros name Hne; rewrite ?lookup_insert_ne; congruence.
Qed.

Lemma stream_to_parquet_files_witness :
  profile_files (fst (stream_to_parquet (lib := lib_narrow) ds_argo fid0 dc0 healthy empty_store))
    !! parquet_name (lit "profiles") dc0 fid0
  = Some ps_argo.
Proof.
  apply (stream_to_parquet_files (lib := lib_narrow) ds_argo fid0 dc0 healthy empty_store
           ps_argo ms_argo).
  - vm_compute. reflexivity.
  - vm_compute. reflexivity.
  - vm_compute. reflexivity.
Defined.

(** X12. A unit whose extraction raises (as it does on a JULD variable
    that holds text) leaves the store exactly as it was, whatever the
    back end, and the writer does not count it. *)
Theorem write_unit_extraction_raises (env : RunEnv) (n : nat) (fid : pystr)
    (ds : Dataset) (st : Store) (e : exn) :
  extract_profiles (lib := env_installed env) ds fid (env_data_center env) = Raise e
  \/ extract_measurements ds fid = Raise e ->
  write_unit env n fid ds st = (st, false).
Proof.
  intros H. unfold write_unit, stream_to_sql.
  destruct (extract_profiles ds fid (env_data_center env)) as [ps|e1];
    [|reflexivity].
  destruct H as [H|H]; [discriminate|]. now rewrite H.
Qed.

Lemma write_unit_extraction_raises_witness :
  write_unit env_two 0 fid0 ds_text_juld empty_store = (empty_store, false).
Proof.
  apply (write_unit_extraction_raises env_two 0 fid0 ds_text_juld empty_store
           TypeError).
  left. vm_compute. reflexivity.
Defined.

(** ** What the extractor never does, and when it raises *)

(** X23. The [dropna] call at the end of [extract_measurements] never
    removes a row: a row is appended only when its pressure is present and
    not NaN, so no row has all three of its values null, and the frame
    returned is exactly the list the two loops built. *)
Theorem extract_measurements_dropna_keeps_all (ds : Dataset) (fid : pystr) :
  extract_measurements ds fid
  = for_in (seq 0 (n_prof_of ds))
      (fun prof_idx =>
         for_in (seq 0 (n_levels_of ds))
           (fun level_idx => build_measurement ds fid prof_idx level_idx))
      []
  /\ (forall rows, extract_measurements ds fid = Ok rows ->
        dropna_all rows = rows
        /\ forall m, In m rows -> isna (pressure m) = false).
Proof.
  assert (Hloops : forall v,
            for_in (seq 0 (n_prof_of ds))
              (fun prof_idx =>
                 for_in (seq 0 (n_levels_of ds))
                   (fun level_idx =>
                      build_measurement ds fid prof_idx level_idx)) [] = Ok v ->
            dropna_all v = v).
  { intros v Hv. apply (dropna_all_kept ds).
    eapply measurement_loops_kept; [constructor | exact Hv]. }
  split.
  - unfold extract_measurements.
    destruct (for_in _ _ _) as [v|e] eqn:Hv; simpl; [|reflexivity].
    destruct v as [|m v]; [reflexivity|]. now rewrite (Hloops _ eq_refl).
  - intros rows Hrun. pose proof (extract_measurements_kept _ _ _ Hrun) as Hk.
    split; [exact (dropna_all_kept ds rows Hk)|].
    intros m Hin. apply (proj1 (List.Forall_forall _ _) Hk) in Hin.
    destruct Hin as [_ Hm]. now apply present_not_nan_true in Hm.
Qed.

Lemma extract_measurements_dropna_keeps_all_witness :
  dropna_all ms_argo = ms_argo.
Proof.
  apply (proj2 (extract_measurements_dropna_keeps_all ds_argo fid0) ms_argo).
  vm_compute. reflexivity.
Defined.

(** X24. The test [not np.isnan(...)] of both extractors is outside any
    [try]: when it raises on the first value read (a TypeError on text, a
    ValueError on an array of several numbers), the exception leaves the
    extractor and no frame is returned. For [extract_profiles] this is
    the JULD of profile 0, for [extract_measurements] the PRES of profile
    0 at level 0. *)
Theorem extractor_test_raises {lib : Installed} (ds : Dataset) (fid dc : pystr) (v : pyvalue)
    (e : exn) :
  present_not_nan v = Raise e ->
  ((0 < n_prof_of ds)%nat ->
   _get_value ds "JULD" (IInt 0) = Ok v ->
   extract_profiles ds fid dc = Raise e)
  /\ ((0 < n_prof_of ds)%nat -> (0 < n_levels_of ds)%nat ->
      _get_value ds "PRES" (ITuple [0%nat; 0%nat]) = Ok v ->
      extract_measurements ds fid = Raise e).
Proof.
  intros Hv. split.
  - intros Hn Hj. unfold extract_profiles.
    destruct (n_prof_of ds) as [|n]; [lia|]. simpl.
    unfold build_profile. rewrite Hj.
    destruct (get_value_total ds "CYCLE_NUMBER" (IInt 0)) as [c ->].
    destruct (get_value_total ds "PLATFORM_NUMBER" (IInt 0)) as [p ->].
    destruct (get_value_total ds "LATITUDE" (IInt 0)) as [la ->].
    destruct (get_value_total ds "LONGITUDE" (IInt 0)) as [lo ->].
    simpl. unfold juld_to_datetime. rewrite Hv. reflexivity.
  - intros Hn Hl Hp. unfold extract_measurements.
    destruct (n_prof_of ds) as [|n]; [lia|].
    destruct (n_levels_of ds) as [|k]; [lia|]. simpl.
    unfold build_measurement at 1. rewrite Hp.
    destruct (get_value_total ds "TEMP" (ITuple [0%nat; 0%nat])) as [t ->].
    destruct (get_value_total ds "PSAL" (ITuple [0%nat; 0%nat])) as [s ->].
    simpl. rewrite Hv. reflexivity.
Qed.

Lemma extractor_test_raises_witness :
  extract_measurements ds_text_pres fid0 = Raise TypeError.
Proof.
  apply (proj2 (extractor_test_raises (lib := lib_narrow) ds_text_pres fid0 dc0
                  (PStr (lit "n/a")) TypeError eq_refl)).
  - vm_compute. lia.
  - vm_compute. lia.
  - vm_compute. reflexivity.
Defined.

(** ** Listings of the catalog client *)

Lemma str_leb_total a b : str_leb a b = false -> str_leb b a = true.
Proof.
  revert b. induction a as [|x a IH]; intros [|y b]; simpl; try easy.
  destruct (N.ltb_spec x y), (N.eqb_spec x y), (N.ltb_spec y x),
    (N.eqb_spec y x); simpl; try easy; try lia. apply IH.
Qed.

Lemma str_leb_trans a b c :
  str_leb a b = true -> str_leb b c = true -> str_leb a c = true.
Proof.
  revert b c. induction a as [|x a IH]; intros [|y b] [|z c]; simpl; try easy.
  destruct (N.ltb_spec x y), (N.eqb_spec x y), (N.ltb_spec y z),
    (N.eqb_spec y z), (N.ltb_spec x z), (N.eqb_spec x z);
    simpl; try easy; try lia.
  apply IH.
Qed.

Lemma insert_sorted_perm x xs : insert_sorted x xs ≡ₚ x :: xs.
Proof.
  induction xs as [|y ys IH]; simpl; [reflexivity|].
  destruct (str_leb x y); [reflexivity|].
  rewrite IH. apply Permutation_swap.
Qed.

Lemma sorted_perm xs : sorted xs ≡ₚ xs.
Proof.
  induction xs as [|x xs IH]; simpl; [reflexivity|].
  now rewrite insert_sorted_perm, IH.
Qed.

Lemma insert_sorted_ascending x xs :
  ascending xs -> ascending (insert_sorted x xs).
Proof.
  unfold ascending. induction 1 as [|y ys Hys IH Hy]; simpl.
  - repeat constructor.
  - destruct (str_leb x y) eqn:E.
    + constructor; [now constructor|]. constructor; [exact E|].
      eapply List.Forall_impl; [|exact Hy].
      intros z Hz. exact (str_leb_trans x y z E Hz).
    + constructor; [exact IH|].
      rewrite insert_sorted_perm.
      constructor; [now apply str_leb_total | exact Hy].
Qed.

Lemma sorted_ascending xs : ascending (sorted xs).
Proof.
  induction xs as [|x xs IH]; simpl; [constructor|].
  now apply insert_sorted_ascending.
Qed.

Lemma digit_ids_cons isdigit_char img l :
  digit_ids isdigit_char (img :: l)
  = match entry_name img with
    | Some name =>
      if isdigit isdigit_char name then name :: digit_ids isdigit_char l
      else digit_ids isdigit_char l
    | None => digit_ids isdigit_char l
    end.
Proof.
  unfold digit_ids, folder_names. simpl.
  destruct (entry_name img) as [name|]; simpl; reflexivity.
Qed.

(** The loop of [list_floats] appends the unit ids of the page in page
    order and stops at the limit. *)
Lemma scan_floats_upto isdigit_char max_floats l floats :
  scan_floats isdigit_char max_floats l floats
  = floats ++ upto (room max_floats (length floats))
                   (digit_ids isdigit_char l).
Proof.
  revert floats. induction l as [|img l IH]; intros floats.
  - simpl. unfold digit_ids. simpl.
    destruct (room max_floats (length floats)) as [k|]; simpl;
      rewrite ?firstn_nil, app_nil_r; reflexivity.
  - rewrite digit_ids_cons. simpl.
    destruct (entry_name img) as [name|]; [|apply IH].
    destruct (isdigit isdigit_char name); [|apply IH].
    unfold reached, room. destruct max_floats as [n|].
    + destruct (Z.eqb_spec n 0) as [->|Hn]; simpl.
      * rewrite IH. unfold room. simpl. now rewrite <- app_assoc.
      * rewrite length_app. simpl.
        destruct (Z.leb_spec n (Z.of_nat (length floats + 1))) as [Hle|Hgt].
        -- replace (Z.to_nat (Z.max 1 (n - Z.of_nat (length floats))))
             with 1%nat by lia.
           simpl. now rewrite firstn_0.
        -- rewrite IH. unfold room.
           destruct (Z.eqb_spec n 0) as [|_]; [contradiction|].
           rewrite length_app. simpl.
           replace (Z.to_nat (Z.max 1 (n - Z.of_nat (length floats))))
             with (S (Z.to_nat
                        (Z.max 1 (n - Z.of_nat (length floats + 1)))))
             by lia.
           simpl. now rewrite <- app_assoc.
    + rewrite IH. unfold room. simpl. now rewrite <- app_assoc.
Qed.

Lemma length_upto {A} r (l : list A) k : r = Some k -> (length (upto r l) <= k)%nat.
Proof. intros ->. simpl. rewrite length_firstn. lia. Qed.

Lemma upto_incl {A} r (l : list A) x : In x (upto r l) -> In x l.
Proof.
  destruct r as [k|]; simpl; auto.
  intros H. rewrite <- (firstn_skipn k l). apply in_or_app. now left.
Qed.

(** X13. When the page of a data center is fetched, [list_floats] returns
    the sorted list of the first [max_floats] unit ids of the page, in the
    order of the page: the directory rows whose name is all digits. It is
    the whole list of them without a limit or with a limit of 0, and a
    single id for a negative limit. With a limit, these are not in general
    the smallest ids of the page. *)
Theorem list_floats_page_order (isdigit_char : N -> bool)
    (self : ArgoAPIClient) (web : Web) (dc : pystr) (max_floats : option Z)
    (soup : Soup) :
  fetch_page web (catalog_base self ++ lit "/" ++ dc ++ lit "/catalog.html")
  = Ok soup ->
  list_floats isdigit_char self web dc max_floats
  = Ok (sorted
          match max_floats with
          | Some n =>
            if n =? 0 then digit_ids isdigit_char (imgs soup)
            else firstn (Z.to_nat (Z.max 1 n))
                   (digit_ids isdigit_char (imgs soup))
          | None => digit_ids isdigit_char (imgs soup)
          end).
Proof.
  intros Hpage. unfold list_floats. rewrite Hpage. simpl.
  rewrite scan_floats_upto. simpl. unfold room.
  destruct max_floats as [n|]; [|reflexivity].
  destruct (n =? 0); [reflexivity|]. simpl.
  now rewrite Z.sub_0_r.
Qed.

Lemma list_floats_page_order_witness :
  list_floats ascii_digit default_client web_unordered dc0 (Some 2)
  = Ok [lit "5900001"; lit "7900002"].
Proof.
  rewrite (list_floats_page_order ascii_digit default_client web_unordered
             dc0 (Some 2)
             {| imgs := match web_unordered [] with
                        | Ok {| parsed := Ok soup |} => imgs soup
                        | _ => []
                        end;
                anchors := [] |}).
  - vm_compute. reflexivity.
  - vm_compute. reflexivity.
Defined.

(** What [list_floats] returns, whatever the archive answers. *)
Lemma list_floats_listed (isdigit_char : N -> bool)
    (self : ArgoAPIClient) (web : Web) (dc : pystr) (max_floats : option Z) :
  exists floats,
    list_floats isdigit_char self web dc max_floats = Ok floats
    /\ ascending floats
    /\ (forall fid, In fid floats ->
          fid <> [] /\ forallb isdigit_char fid = true)
    /\ (forall n, max_floats = Some n -> 1 <= n ->
          Z.of_nat (length floats) <= n).
Proof.
  unfold list_floats.
  destruct (fetch_page web _) as [soup|e]; simpl.
  - eexists. split; [reflexivity|]. split; [apply sorted_ascending|]. split.
    + intros fid Hin.
      apply (Permutation_in _ (sorted_perm _)) in Hin.
      rewrite scan_floats_upto in Hin. simpl in Hin.
      apply upto_incl in Hin. unfold digit_ids in Hin.
      apply filter_In in Hin as [_ Hd]. unfold isdigit in Hd.
      apply andb_true_iff in Hd as [Hne Hall]. split; [|exact Hall].
      intros ->. discriminate.
    + intros n -> Hn.
      rewrite (Permutation_length (sorted_perm _)), scan_floats_upto.
      cbn [app length].
      assert (Hroom : room (Some n) 0 = Some (Z.to_nat n)).
      { unfold room. destruct (Z.eqb_spec n 0) as [|_]; [lia|].
        f_equal. lia. }
      pose proof (length_upto _ (digit_ids isdigit_char (imgs soup)) _ Hroom).
      lia.
  - exists []. split; [reflexivity|]. split; [constructor|].
    split; [intros fid []|]. intros n _ Hn. simpl. lia.
Qed.

(** X14. Whatever the archive answers, [list_floats] returns a list in
    ascending order of strings that are not empty and consist of digits
    only; with a limit of at least 1 the list is no longer than the
    limit. *)
Theorem list_floats_sorted_digits (isdigit_char : N -> bool)
    (self : ArgoAPIClient) (web : Web) (dc : pystr) (max_floats : option Z) :
  exists floats,
    list_floats isdigit_char self web dc max_floats = Ok floats
    /\ ascending floats
    /\ (forall fid, In fid floats ->
          fid <> [] /\ forallb isdigit_char fid = true)
    /\ (forall n, max_floats = Some n -> 1 <= n ->
          Z.of_nat (length floats) <= n).
Proof. apply list_floats_listed. Qed.

Lemma list_floats_sorted_digits_witness :
  exists floats,
    list_floats ascii_digit default_client web_unordered dc0 (Some 2)
    = Ok floats
    /\ Z.of_nat (length floats) <= 2.
Proof.
  destruct (list_floats_sorted_digits ascii_digit default_client
              web_unordered dc0 (Some 2)) as (floats & Hrun & _ & _ & Hlen).
  exists floats. split; [exact Hrun|]. apply Hlen; [reflexivity | lia].
Defined.

(** *** Data centers *)

Lemma str_in_In x xs : str_in x xs = true <-> In x xs.
Proof.
  unfold str_in. rewrite existsb_exists. split.
  - intros (y & Hy & H). destruct (decide (x = y)); [now subst | discriminate].
  - intros H. exists x. split; [exact H|].
    destruct (decide (x = x)); [reflexivity | contradiction].
Qed.

Lemma set_list_incl xs x : In x (set_list xs) -> In x xs.
Proof.
  induction xs as [|y xs IH]; simpl; [easy|].
  destruct (str_in y xs); simpl; intuition.
Qed.

Lemma set_list_NoDup xs : NoDup (set_list xs).
Proof.
  induction xs as [|y xs IH]; simpl; [constructor|].
  destruct (str_in y xs) eqn:E; [exact IH|].
  constructor; [|exact IH].
  intros Hin. apply list_elem_of_In, set_list_incl, str_in_In in Hin.
  congruence.
Qed.

Lemma scan_centers_names l centers :
  Forall (fun c => c <> []) centers ->
  Forall (fun c => c <> []) (scan_centers l centers).
Proof.
  revert centers. induction l as [|img l IH]; simpl; intros centers H; auto.
  destruct (entry_name img) as [name|]; [|now apply IH].
  destruct (bool_decide (name = [])) eqn:E; simpl; [now apply IH|].
  destruct (str_in name centers); simpl; [now apply IH|].
  apply IH. apply Forall_app. split; [exact H|].
  constructor; [|constructor]. intros ->. now rewrite bool_decide_eq_true_2 in E.
Qed.

Lemma known_centers_listed :
  ascending known_centers /\ NoDup known_centers
  /\ Forall (fun c => c <> []) known_centers.
Proof.
  split; [|split].
  - replace known_centers with (sorted known_centers)
      by (vm_compute; reflexivity).
    apply sorted_ascending.
  - replace known_centers with (set_list known_centers)
      by (vm_compute; reflexivity).
    apply set_list_NoDup.
  - unfold known_centers. simpl. repeat (constructor; [discriminate|]).
    constructor.
Qed.

(** X15. Whatever the archive answers, [list_data_centers] returns a list
    of names in ascending order, without duplicates and without an empty
    name. *)
Theorem list_data_centers_listed (self : ArgoAPIClient) (web : Web) :
  exists centers,
    list_data_centers self web = Ok centers
    /\ ascending centers /\ NoDup centers
    /\ (forall c, In c centers -> c <> []).
Proof.
  unfold list_data_centers.
  destruct (fetch_page web _) as [soup|e]; simpl.
  - eexists. split; [reflexivity|]. split; [apply sorted_ascending|]. split.
    + rewrite sorted_perm. apply set_list_NoDup.
    + intros c Hin. apply (Permutation_in _ (sorted_perm _)) in Hin.
      apply set_list_incl in Hin. revert c Hin. apply List.Forall_forall.
      apply scan_centers_names. constructor.
  - exists known_centers. split; [reflexivity|].
    destruct known_centers_listed as (Ha & Hn & Hf).
    split; [exact Ha|]. split; [exact Hn|].
    apply List.Forall_forall. exact Hf.
Qed.

Lemma list_data_centers_listed_witness :
  exists centers,
    list_data_centers default_client web_listing = Ok centers
    /\ NoDup centers /\ (In (lit "docs") centers -> lit "docs" <> []).
Proof.
  destruct (list_data_centers_listed default_client web_listing)
    as (centers & Hrun & _ & Hnd & Hne).
  exists centers. split; [exact Hrun|]. split; [exact Hnd|]. apply Hne.
Defined.

(** *** The URL of a unit *)

Lemma contains_partition p s :
  contains p s = true -> exists x, partition p s = Some x.
Proof.
  induction s as [|c s IH]; simpl.
  - intros ->. eauto.
  - destruct (startswith p (c :: s)); [eauto|]. simpl. intros H.
    destruct (IH H) as [[before after] ->]. eauto.
Qed.

Lemma split_second_returns p s :
  contains p s = true -> exists middle, split_second p s = Ok middle.
Proof.
  intros H. destruct (contains_partition p s H) as [[before after] Hp].
  unfold split_second. rewrite Hp.
  destruct (partition p after) as [[middle rest]|]; eauto.
Qed.

Lemma first_dataset_url_found self l :
  (exists link, In link l /\ dataset_link link = true) ->
  exists pre link post path,
    l = pre ++ link :: post
    /\ (forall k, In k pre -> dataset_link k = false)
    /\ dataset_link link = true
    /\ split_second (lit "dataset=") (href_of link) = Ok path
    /\ first_dataset_url self l
       = Ok (Some (base_url self ++ lit "/dodsC/" ++ path)).
Proof.
  induction l as [|link l IH]; intros (k & Hin & Hk); [destruct Hin|].
  simpl. destruct (dataset_link link) eqn:E.
  - assert (Hc : contains (lit "dataset=") (href_of link) = true).
    { unfold dataset_link in E. now apply andb_true_iff in E as [_ ?]. }
    destruct (split_second_returns _ _ Hc) as [path Hpath].
    exists [], link, l, path. rewrite Hpath. simpl.
    split; [reflexivity|]. split; [intros k' []|]. auto.
  - destruct Hin as [->|Hin]; [congruence|].
    destruct (IH (ex_intro _ k (conj Hin Hk)))
      as (pre & k' & post & path & -> & Hpre & Hk' & Hpath & Hfirst).
    exists (link :: pre), k', post, path.
    split; [reflexivity|]. split; [|auto].
    intros k0 [<-|Hk0]; [exact E | now apply Hpre].
Qed.

Lemma get_opendap_url_rooted (self : ArgoAPIClient) (web : Web)
    (dc fid : pystr) :
  exists path,
    get_opendap_url self web dc fid
    = Ok (base_url self ++ lit "/dodsC/" ++ path).
Proof.
  assert (Hbase : forall rest,
            opendap_base self ++ rest
            = base_url self ++ lit "/dodsC/" ++ lit "argo/gadr" ++ rest).
  { intros rest. unfold opendap_base. now rewrite <- app_assoc. }
  assert (Hstd : exists path,
            standard_url self dc fid = base_url self ++ lit "/dodsC/" ++ path).
  { unfold standard_url. rewrite Hbase. eauto. }
  unfold get_opendap_url, resolve_from_catalog.
  destruct (fetch_page web _) as [soup|e]; simpl;
    [|destruct Hstd as [path ->]; eauto].
  assert (Hfirst : forall l,
            first_dataset_url self l = Ok None
            \/ (exists path, first_dataset_url self l
                  = Ok (Some (base_url self ++ lit "/dodsC/" ++ path)))
            \/ exists e, first_dataset_url self l = Raise e).
  { induction l as [|link l IH]; simpl; [now left|].
    destruct (dataset_link link); [|exact IH].
    destruct (split_second _ _) as [path|e]; simpl; eauto. }
  destruct (Hfirst (anchors soup)) as [->|[[path ->]|[e ->]]]; simpl; eauto.
  - induction (anchors soup) as [|link l IH]; simpl.
    + destruct Hstd as [path ->]; eauto.
    + destruct (profile_text link); [|exact IH]. rewrite Hbase. eauto.
  - destruct Hstd as [path ->]; eauto.
Qed.

(** X16. The URL that [get_opendap_url] returns always lies under the
    OPeNDAP root of the client's own server: it is [base_url], then
    [/dodsC/], then a path, whatever the links of the unit's page hold.
    So it is never the empty string, and the test [if not url] of
    [fetch_float_data] and of the fallback in [fetch_worker] never
    fires. *)
Theorem get_opendap_url_under_root (self : ArgoAPIClient) (web : Web)
    (dc fid : pystr) :
  exists url path,
    get_opendap_url self web dc fid = Ok url
    /\ url = base_url self ++ lit "/dodsC/" ++ path
    /\ url <> [].
Proof.
  destruct (get_opendap_url_rooted self web dc fid) as [path Hurl].
  exists (base_url self ++ lit "/dodsC/" ++ path), path.
  split; [exact Hurl|]. split; [reflexivity|].
  intros H. apply app_eq_nil in H as [_ H]. discriminate.
Qed.

Lemma get_opendap_url_under_root_witness :
  exists url, get_opendap_url default_client web_both dc0 fid0 = Ok url
              /\ url <> [].
Proof.
  destruct (get_opendap_url_under_root default_client web_both dc0 fid0)
    as (url & path & Hrun & _ & Hne).
  exists url. split; [exact Hrun | exact Hne].
Defined.

(** X17. When the unit's page is fetched and one of its links is a
    THREDDS dataset link (its href holds [prof.nc], [catalog.html] and
    [dataset=]), [get_opendap_url] returns the dataset path of the first
    such link of the page under the OPeNDAP root, taking what lies between
    the first and the second [dataset=] of its href; the split cannot
    fail, and a link that only names a profile file in its text is not
    used, even when it comes first on the page. *)
Theorem get_opendap_url_dataset_link (self : ArgoAPIClient) (web : Web)
    (dc fid : pystr) (soup : Soup) :
  fetch_page web (unit_catalog_url self dc fid) = Ok soup ->
  (exists link, In link (anchors soup) /\ dataset_link link = true) ->
  exists pre link post path,
    anchors soup = pre ++ link :: post
    /\ (forall k, In k pre -> dataset_link k = false)
    /\ dataset_link link = true
    /\ split_second (lit "dataset=") (href_of link) = Ok path
    /\ get_opendap_url self web dc fid
       = Ok (base_url self ++ lit "/dodsC/" ++ path).
Proof.
  intros Hpage Hex.
  destruct (first_dataset_url_found self (anchors soup) Hex)
    as (pre & link & post & path & Hsplit & Hpre & Hd & Hpath & Hfirst).
  exists pre, link, post, path. do 4 (split; [assumption|]).
  unfold get_opendap_url, resolve_from_catalog.
  rewrite Hpage. simpl. rewrite Hfirst. reflexivity.
Qed.

Lemma get_opendap_url_dataset_link_witness :
  exists pre link post path,
    [ {| href := Some (lit "1900722_prof.nc");
         text := lit "1900722_prof.nc" |};
      {| href := Some (lit "catalog.html?dataset=argo/gadr/aoml/1900722/nodc_1900722_prof.nc");
         text := lit "nodc_1900722_prof.nc" |} ]
    = pre ++ link :: post
    /\ (forall k, In k pre -> dataset_link k = false)
    /\ dataset_link link = true
    /\ split_second (lit "dataset=") (href_of link) = Ok path
    /\ get_opendap_url default_client web_both dc0 fid0
       = Ok (base_url default_client ++ lit "/dodsC/" ++ path).
Proof.
  apply (get_opendap_url_dataset_link default_client web_both dc0 fid0
           {| imgs := []; anchors := _ |}).
  - reflexivity.
  - eexists. split; [right; left; reflexivity|]. vm_compute. reflexivity.
Defined.

(** ** Further properties of the runner *)

Lemma written_app l e : written (l ++ [e]) = written l ++ written [e].
Proof. unfold written. apply flat_map_app. Qed.

Lemma ended_app l e : ended (l ++ [e]) = ended l ++ ended [e].
Proof. unfold ended. apply flat_map_app. Qed.

Lemma queued_app q m : queued (q ++ [m]) = queued q ++ queued [m].
Proof. unfold queued. apply flat_map_app. Qed.

Ltac by_queue :=
  repeat match goal with
         | H : queue _ = _ |- _ => rewrite H in *; clear H
         | H : running _ = _ |- _ => rewrite H in *; clear H
         | H : pending _ = _ |- _ => rewrite H in *; clear H
         | H : writer _ = _ |- _ => rewrite H in *; clear H
         end.

(** A step leaves the order of the puts as it is, or a worker adds the
    unit it fetched at the end. *)
Lemma step_put_order env s t s' :
  step env s t s' ->
  put_order s' = put_order s
  \/ (t = TWorker
      /\ exists fid ds, fetched_by env fid ds
                        /\ put_order s' = put_order s ++ [fid]).
Proof.
  intros Hstep. inversion Hstep; subst; clear Hstep;
    try (destruct (write_unit env (ends (log s)) fid ds (store s))
           as [st' ok]);
    unfold put_order; cbn [main floats pending running fetched failed queue
                           writer store success_count log];
    rewrite ?written_app, ?queued_app; by_queue; simpl;
    rewrite ?app_nil_r; auto.
  - right. split; [reflexivity|]. exists fid, ds.
    split; [assumption|]. now rewrite app_assoc.
  - left. now rewrite <- app_assoc.
Qed.

(** X18. The writer takes the units in the order in which the workers put
    them (first in, first out): along any part of a run, the units whose
    write has begun followed by the units still on the queue form a list
    that only grows at its end, and only by units that a worker
    fetched. *)
Theorem writes_in_put_order (env : RunEnv) (s s' : RunState) :
  steps env s s' ->
  exists l,
    put_order s' = put_order s ++ l
    /\ Forall (fun fid => exists ds, fetched_by env fid ds) l.
Proof.
  induction 1 as [s|s t s1 s' Hstep _ (l & Hl & Hf)].
  - exists []. now rewrite app_nil_r.
  - destruct (step_put_order env s t s1 Hstep)
      as [Heq|(_ & fid & ds & Hfetch & Heq)]; rewrite Heq in Hl.
    + now exists l.
    + exists (fid :: l). rewrite <- app_assoc in Hl. split; [exact Hl|].
      constructor; [now exists ds | exact Hf].
Qed.

Lemma writes_in_put_order_witness :
  exists l, put_order (run env_two 28 init_state) = put_order init_state ++ l.
Proof.
  destruct (writes_in_put_order env_two init_state (run env_two 28 init_state))
    as (l & Hl & _).
  - apply run_steps.
  - now exists l.
Defined.

Lemma start_is_init env s : reachable env s -> main s = MStart -> s = init_state.
Proof.
  intros Hreach Hm.
  destruct (reachable_invariant env s Hreach) as (_ & _ & _ & _ & _ & _ & Hph).
  unfold phase in Hph. now rewrite Hm in Hph.
Qed.

Lemma reachable_units env s : reachable env s -> unit_invariant env s.
Proof.
  induction 1 as [|s t s' Hreach IH Hstep].
  - unfold unit_invariant. simpl. repeat split; constructor.
  - destruct IH as (Hsub & Hq & Hw & Hwe).
    inversion Hstep; subst; clear Hstep;
      try (destruct (write_unit env (ends (log s)) fid ds (store s))
             as [st' ok]);
      try (rewrite (start_is_init env s Hreach) in * by assumption);
      unfold unit_invariant, queue_fetched in *;
      cbn [main floats pending running fetched failed queue writer store
           success_count log] in *;
      rewrite ?written_app, ?ended_app, ?queued_app in *; by_queue;
      simpl in *; rewrite ?app_nil_r in *;
      try (split; [|split; [|split]]); auto.
    all: try solve_submseteq.
    all: try (etransitivity; [|exact Hsub]; solve_submseteq).
    all: try (apply Forall_app; split; auto).
    all: try (now inversion Hq).
    all: try (rewrite Hwe; now rewrite ?app_nil_r, <- ?app_assoc).
Qed.

(** X19. Only listed units are written, and none more often than it is
    listed: the units whose write has begun, those on the queue, those
    being fetched and those not yet picked together never exceed the
    listing, as multisets. The dataset the writer holds, and every dataset
    on the queue, is the one that the fetch of its unit returned. *)
Theorem units_written_once (env : RunEnv) (s : RunState) :
  reachable env s ->
  written (log s) ++ queued (queue s) ++ running s ++ pending s ⊆+ floats s
  /\ written (log s) ⊆+ floats s
  /\ (NoDup (floats s) -> NoDup (written (log s)))
  /\ (forall fid ds, In (DATA fid ds) (queue s) -> fetched_by env fid ds)
  /\ (forall active fid ds,
        writer s = WWriting active fid ds -> fetched_by env fid ds).
Proof.
  intros Hreach.
  destruct (reachable_units env s Hreach) as (Hsub & Hq & Hw & _).
  assert (Hwr : written (log s) ⊆+ floats s).
  { etransitivity; [|exact Hsub]. solve_submseteq. }
  split; [exact Hsub|]. split; [exact Hwr|]. split; [|split].
  - intros Hnd. destruct (submseteq_Permutation _ _ Hwr) as [k Hk].
    rewrite Hk in Hnd. now apply NoDup_app in Hnd as [? _].
  - intros fid ds Hin.
    exact (proj1 (List.Forall_forall _ _) Hq (DATA fid ds) Hin).
  - intros active fid ds Hws. unfold writer_fetched in Hw.
    now rewrite Hws in Hw.
Qed.

Lemma units_written_once_witness :
  written (log (run env_two 28 init_state))
    ⊆+ floats (run env_two 28 init_state).
Proof.
  destruct (units_written_once env_two (run env_two 28 init_state))
    as (_ & H & _).
  - apply run_reachable, reach_init.
  - exact H.
Defined.

(** *** The store along a run *)

Lemma stream_to_parquet_tables {lib : Installed} ds fid dc be st :
  profiles (fst (stream_to_parquet ds fid dc be st)) = profiles st
  /\ measurements (fst (stream_to_parquet ds fid dc be st)) = measurements st.
Proof.
  unfold stream_to_parquet.
  destruct (extract_profiles ds fid dc) as [ps|e]; [|easy].
  destruct (extract_measurements ds fid) as [ms|e]; [|easy].
  destruct ps as [|p ps], ms as [|m ms];
    destruct (parquet_profiles be) as [[]|e1];
    destruct (parquet_measurements be) as [[]|e2]; cbn; easy.
Qed.

Lemma stream_to_sql_extends {lib : Installed} ds fid dc be st :
  exists ps ms,
    profiles (fst (stream_to_sql ds fid dc be st)) = profiles st ++ ps
    /\ measurements (fst (stream_to_sql ds fid dc be st))
       = measurements st ++ ms.
Proof.
  destruct (stream_to_sql_cases ds fid dc be st)
    as [->|(ps & ms & _ & _ & _ & _ & Hcase)].
  - exists [], []. simpl. now rewrite !app_nil_r.
  - destruct Hcase as [[-> _]|[(e & -> & _)|(-> & _)]]; simpl.
    + exists ps, []. now rewrite app_nil_r.
    + exists ps, []. now rewrite app_nil_r.
    + now exists ps, ms.
Qed.

Lemma write_unit_extends env n fid ds st :
  exists ps ms,
    profiles (fst (write_unit env n fid ds st)) = profiles st ++ ps
    /\ measurements (fst (write_unit env n fid ds st)) = measurements st ++ ms.
Proof.
  destruct (stream_to_sql_extends (lib := env_installed env) ds fid (env_data_center env)
              (env_backend env n) st) as (ps & ms & Hp & Hm).
  exists ps, ms. unfold write_unit.
  destruct (stream_to_sql (lib := env_installed env) ds fid (env_data_center env) (env_backend env n) st)
    as [st1 [[]|e]]; simpl in *; [|now split].
  destruct (env_save_parquet env); [|now split].
  destruct (stream_to_parquet_tables (lib := env_installed env) ds fid (env_data_center env)
              (env_backend env n) st1) as [Hp' Hm'].
  destruct (stream_to_parquet (lib := env_installed env) ds fid (env_data_center env)
              (env_backend env n) st1) as [st2 [[]|e]]; simpl in *;
    rewrite Hp', Hm'; now split.
Qed.

Lemma step_store_extends env s t s' :
  step env s t s' ->
  exists ps ms,
    profiles (store s') = profiles (store s) ++ ps
    /\ measurements (store s') = measurements (store s) ++ ms.
Proof.
  intros Hstep. inversion Hstep; subst; clear Hstep;
    try (exists [], []; simpl; now rewrite !app_nil_r).
  destruct (write_unit_extends env (ends (log s)) fid ds (store s))
    as (ps & ms & Hp & Hm).
  exists ps, ms.
  destruct (write_unit env (ends (log s)) fid ds (store s)) as [st' ok].
  now split.
Qed.

(** X20. The run only ever appends to the relational tables: along any
    part of a run, whichever threads step and whatever the storage does,
    the two tables are the tables at the start followed by new rows; no
    row is removed, changed or reordered. *)
Theorem run_store_append_only (env : RunEnv) (s s' : RunState) :
  steps env s s' ->
  exists ps ms,
    profiles (store s') = profiles (store s) ++ ps
    /\ measurements (store s') = measurements (store s) ++ ms.
Proof.
  induction 1 as [s|s t s1 s' Hstep _ (ps2 & ms2 & Hp2 & Hm2)].
  - exists [], []. now rewrite !app_nil_r.
  - destruct (step_store_extends env s t s1 Hstep) as (ps1 & ms1 & Hp1 & Hm1).
    exists (ps1 ++ ps2), (ms1 ++ ms2).
    rewrite Hp2, Hm2, Hp1, Hm1, <- !app_assoc. now split.
Qed.

Lemma run_store_append_only_witness :
  exists ps ms,
    profiles (store (run env_two 28 init_state)) = [] ++ ps
    /\ measurements (store (run env_two 28 init_state)) = [] ++ ms.
Proof.
  apply (run_store_append_only env_two init_state (run env_two 28 init_state)).
  apply run_steps.
Defined.

(** *** The report *)

Lemma terminal_quiet env s :
  reachable env s -> terminal s ->
  pending s = [] /\ running s = []
  /\ (writer s = WFinished \/ writer s = WNotStarted).
Proof.
  intros Hreach Hterm.
  destruct (reachable_invariant env s Hreach)
    as (Hu & _ & _ & _ & _ & _ & Hph).
  unfold terminal, phase, drained in *.
  destruct (main s); try contradiction.
  - destruct Hph as [(Hfl & Hw & _)|(_ & (Hp & Hr & _ & Hw) & _)]; auto.
    rewrite Hfl in Hu. simpl in Hu.
    destruct (pending s), (running s); simpl in Hu; try lia. auto.
  - destruct Hph as [(_ & Hfl & Hw & _)|(_ & (Hp & Hr & _ & Hw) & _)]; auto.
    rewrite Hfl in Hu. simpl in Hu.
    destruct (pending s), (running s); simpl in Hu; try lia. auto.
Qed.

Lemma terminal_stuck env s t s' :
  reachable env s -> terminal s -> step env s t s' -> False.
Proof.
  intros Hreach Hterm Hstep.
  destruct (terminal_quiet env s Hreach Hterm) as (Hp & Hr & Hw).
  unfold terminal in Hterm.
  inversion Hstep; subst; clear Hstep;
    try (match goal with H : main _ = _ |- _ => rewrite H in Hterm end;
         contradiction);
    try congruence;
    try (match goal with H : running _ = _ ++ _ :: _ |- _ =>
           rewrite Hr in H; symmetry in H; now apply app_cons_nil in H end);
    destruct Hw; congruence.
Qed.

Lemma successes_app l e : successes (l ++ [e]) = (successes l + successes [e])%nat.
Proof. unfold successes. now rewrite List.filter_app, length_app. Qed.

Lemma successes_one e :
  successes [e] = match e with EWriteEnd _ true => 1%nat | _ => 0%nat end.
Proof. now destruct e as [| | ? []| |]. Qed.

(** The count the writer keeps is the number of writes that ended well,
    and a report is the last act of a run that returns. *)
Lemma reachable_report env s :
  reachable env s ->
  success_count s = successes (log s)
  /\ (forall a b, In (EReport a b) (log s) ->
        main s = MReturned /\ a = success_count s /\ b = length (floats s)).
Proof.
  induction 1 as [|s t s' Hreach [IHc IHr] Hstep].
  - split; [reflexivity|]. intros a b [].
  - assert (Hold : forall a b, In (EReport a b) (log s) -> False).
    { intros a b Hin. destruct (IHr a b Hin) as (Hm & _).
      apply (terminal_stuck env s t s' Hreach); [|exact Hstep].
      unfold terminal. now rewrite Hm. }
    inversion Hstep; subst; clear Hstep;
      try (destruct (write_unit env (ends (log s)) fid ds (store s))
             as [st' ok]);
      cbn [main floats pending running fetched failed queue writer store
           success_count log];
      rewrite ?successes_app, ?successes_one;
      (split; [try destruct ok; simpl; lia|]);
      intros a b Hin; try apply in_app_or in Hin;
      try (destruct Hin as [Hin|[Hin|[]]]; try discriminate);
      try (exfalso; exact (Hold a b Hin)).
    injection Hin as <- <-. auto.
Qed.

(** X21. The report of a run is accurate: when the run logs that [a] of
    [b] units succeeded, the run has returned, [b] is the number of units
    listed, [a] is the number of writes that ended well, and [a] is at
    most the number of units whose fetch did not fail. The count the
    writer keeps always equals the number of writes that ended well. *)
Theorem report_is_accurate (env : RunEnv) (s : RunState) :
  reachable env s ->
  success_count s = successes (log s)
  /\ (forall a b, In (EReport a b) (log s) ->
        main s = MReturned
        /\ a = successes (log s) /\ b = length (floats s)
        /\ (a + failed s <= b)%nat).
Proof.
  intros Hreach. destruct (reachable_report env s Hreach) as [Hc Hr].
  split; [exact Hc|]. intros a b Hin.
  destruct (Hr a b Hin) as (Hm & -> & ->).
  split; [exact Hm|]. split; [exact Hc|]. split; [reflexivity|].
  destruct (reachable_invariant env s Hreach)
    as (Hu & _ & Hw & Ho & Hs & _ & _).
  lia.
Qed.

Lemma report_is_accurate_witness :
  success_count (run env_two 28 init_state)
  = successes (log (run env_two 28 init_state)).
Proof.
  apply (report_is_accurate env_two (run env_two 28 init_state)).
  apply run_reachable, reach_init.
Defined.

(** *** A run over a healthy storage *)

Lemma write_unit_healthy env n fid ds st :
  env_backend env n = healthy -> fetched_by env fid ds ->
  profiles (fst (write_unit env n fid ds st))
  = profiles st ++ fst (unit_rows env fid)
  /\ measurements (fst (write_unit env n fid ds st))
     = measurements st ++ snd (unit_rows env fid)
  /\ snd (write_unit env n fid ds st) = extracts env fid.
Proof.
  intros Hbe Hfetch. unfold fetched_by in Hfetch.
  unfold write_unit, unit_rows, extracts, stream_to_sql, stream_to_parquet.
  rewrite Hbe, Hfetch.
  destruct (extract_profiles ds fid (env_data_center env)) as [[|p ps]|e];
    destruct (extract_measurements ds fid) as [[|m ms]|e'];
    destruct (env_save_parquet env); cbn; rewrite ?app_nil_r; easy.
Qed.

Lemma ended_one e :
  ended [e] = match e with EWriteEnd fid _ => [fid] | _ => [] end.
Proof. unfold ended. simpl. now rewrite app_nil_r. Qed.

Lemma datas_queued q : datas q = length (queued q).
Proof.
  unfold datas, queued. induction q as [|[fid ds|] q IH]; simpl; congruence.
Qed.

Lemma terminal_no_data env s :
  reachable env s -> terminal s -> queued (queue s) = [].
Proof.
  intros Hreach Hterm.
  destruct (reachable_invariant env s Hreach)
    as (Hu & _ & Hw & _ & _ & _ & Hph).
  apply length_zero_iff_nil. rewrite <- datas_queued.
  unfold terminal, phase, drained in *.
  destruct (main s); try contradiction.
  - destruct Hph as [(Hfl & _)|(_ & (_ & _ & Hq & _) & _)].
    + rewrite Hfl in Hu. simpl in Hu. lia.
    + now rewrite Hq.
  - destruct Hph as [(_ & Hfl & _)|(_ & (_ & _ & Hq & _) & _)].
    + rewrite Hfl in Hu. simpl in Hu. lia.
    + now rewrite Hq.
Qed.

(** Over a healthy storage a step that keeps the datasets on their way
    fetched ones adds to the tables the rows of the unit whose write it
    ends, if it ends one. *)
Lemma step_healthy env s t s' :
  (forall n, env_backend env n = healthy) ->
  queue_fetched env (queue s) -> writer_fetched env (writer s) ->
  step env s t s' ->
  queue_fetched env (queue s') /\ writer_fetched env (writer s')
  /\ exists l,
       ended (log s') = ended (log s) ++ l
       /\ profiles (store s')
          = profiles (store s) ++ flat_map (fun fid => fst (unit_rows env fid)) l
       /\ measurements (store s')
          = measurements (store s)
            ++ flat_map (fun fid => snd (unit_rows env fid)) l
       /\ success_count s'
          = (success_count s + length (List.filter (extracts env) l))%nat.
Proof.
  intros Hbe Hq Hw Hstep.
  assert (Hnil : forall (sc : nat) ps ms (el : list pystr),
            exists l : list pystr,
              el = el ++ l
              /\ ps = ps ++ flat_map (fun fid => fst (unit_rows env fid)) l
              /\ ms = ms ++ flat_map (fun fid => snd (unit_rows env fid)) l
              /\ sc = (sc + length (List.filter (extracts env) l))%nat).
  { intros sc ps ms el. exists []. simpl. rewrite !app_nil_r.
    repeat split; lia. }
  unfold queue_fetched in *.
  inversion Hstep; subst; clear Hstep;
    try (pose proof (write_unit_healthy env (ends (log s)) fid ds (store s)
                       (Hbe _)) as Hwu;
         destruct (write_unit env (ends (log s)) fid ds (store s))
           as [st' ok]);
    cbn [main floats pending running fetched failed queue writer store
         success_count log];
    rewrite ?ended_app, ?ended_one, ?app_nil_r; by_queue;
    try (split; [|split; [|apply Hnil]]); simpl; auto.
  - apply Forall_app. split; [exact Hq | repeat constructor].
  - apply Forall_app. split; [exact Hq|]. constructor; [assumption|constructor].
  - now inversion Hq.
  - now inversion Hq.
  - now inversion Hq.
  - split; [exact Hq|]. split; [exact I|].
    simpl in Hw, Hwu. destruct (Hwu Hw) as (Hp & Hm & Hok).
    exists [fid]. simpl. rewrite !app_nil_r, Hok.
    split; [reflexivity|]. split; [exact Hp|]. split; [exact Hm|].
    destruct (extracts env fid); simpl; lia.
Qed.

Lemma steps_healthy env s s' :
  (forall n, env_backend env n = healthy) ->
  steps env s s' ->
  queue_fetched env (queue s) -> writer_fetched env (writer s) ->
  exists l,
    ended (log s') = ended (log s) ++ l
    /\ profiles (store s')
       = profiles (store s) ++ flat_map (fun fid => fst (unit_rows env fid)) l
    /\ measurements (store s')
       = measurements (store s)
         ++ flat_map (fun fid => snd (unit_rows env fid)) l
    /\ success_count s'
       = (success_count s + length (List.filter (extracts env) l))%nat.
Proof.
  intros Hbe. induction 1 as [s|s t s1 s' Hstep _ IH]; intros Hq Hw.
  - exists []. simpl. rewrite !app_nil_r. repeat split; lia.
  - destruct (step_healthy env s t s1 Hbe Hq Hw Hstep)
      as (Hq1 & Hw1 & l1 & He1 & Hp1 & Hm1 & Hs1).
    destruct (IH Hq1 Hw1) as (l2 & He2 & Hp2 & Hm2 & Hs2).
    exists (l1 ++ l2).
    rewrite He2, He1, Hp2, Hp1, Hm2, Hm1, Hs2, Hs1, !flat_map_app,
      List.filter_app, length_app, <- !app_assoc.
    repeat split; lia.
Qed.

(** *** The store does not steer the run *)

Lemma write_unit_flag env n fid ds st st' :
  snd (write_unit env n fid ds st) = snd (write_unit env n fid ds st').
Proof.
  unfold write_unit, stream_to_sql, stream_to_parquet.
  destruct (extract_profiles ds fid (env_data_center env)) as [[|p ps]|e];
    destruct (extract_measurements ds fid) as [[|m ms]|e'];
    destruct (sql_profiles (env_backend env n)) as [[]|e1];
    destruct (sql_measurements (env_backend env n)) as [[]|e2];
    destruct (env_save_parquet env);
    destruct (parquet_profiles (env_backend env n)) as [[]|e3];
    destruct (parquet_measurements (env_backend env n)) as [[]|e4];
    reflexivity.
Qed.

(** Every step of a run is a step of the run over any other store. *)
Lemma step_set_store env s t s' st :
  step env s t s' -> exists st', step env (set_store s st) t (set_store s' st').
Proof.
  intros Hstep. inversion Hstep; subst; clear Hstep.
  16: { pose proof (write_unit_flag env (ends (log s)) fid ds (store s) st)
          as Hflag.
        pose proof (writer_write env (set_store s st) active fid ds) as Hs.
        cbn [set_store main floats pending running fetched failed queue
             writer store success_count log] in Hs.
        destruct (write_unit env (ends (log s)) fid ds (store s))
          as [st1 ok1].
        destruct (write_unit env (ends (log s)) fid ds st) as [st2 ok2].
        simpl in Hflag. subst ok2. exists st2. now apply Hs. }
  all: exists st.
  - now apply (main_no_floats env (set_store s st)).
  - now apply (main_list_raises env (set_store s st)).
  - now apply (main_dispatch env (set_store s st)).
  - now apply (main_signal env (set_store s st)).
  - now apply (main_join env (set_store s st)).
  - now apply (main_index env (set_store s st)).
  - now apply (main_no_index env (set_store s st)).
  - now apply (main_report env (set_store s st)).
  - now apply (worker_start env (set_store s st) fid rest).
  - now apply (worker_put env (set_store s st) r1 fid r2 ds).
  - now apply (worker_fail env (set_store s st) r1 fid r2).
  - now apply (writer_timeout env (set_store s' st)).
  - now apply (writer_exit env (set_store s st)).
  - now apply (writer_done env (set_store s st) active q).
  - now apply (writer_take env (set_store s st) active fid ds q).
Qed.

Lemma steps_set_store env s s' :
  steps env s s' ->
  forall st, exists st', steps env (set_store s st) (set_store s' st').
Proof.
  induction 1 as [s|s t s1 s' Hstep _ IH]; intros st.
  - exists st. constructor.
  - destruct (step_set_store env s t s1 st Hstep) as [st1 Hs1].
    destruct (IH st1) as [st' Hs'].
    exists st'. exact (steps_cons env _ t _ _ Hs1 Hs').
Qed.

Lemma steps_reachable env s s' :
  reachable env s -> steps env s s' -> reachable env s'.
Proof.
  intros Hreach Hsteps. induction Hsteps as [s|s t s1 s' Hstep _ IH]; auto.
  apply IH. exact (reach_step env s t s1 Hreach Hstep).
Qed.

(** A state of a run started over any store is, but for its store, a
    state of the run started over the empty one. *)
Lemma started_reachable env st0 s :
  steps env (start_state st0) s ->
  exists st', reachable env (set_store s st').
Proof.
  intros Hsteps.
  destruct (steps_set_store env _ _ Hsteps empty_store) as [st' Hs].
  exists st'. apply (steps_reachable env init_state); [constructor|].
  exact Hs.
Qed.

(** X22. Over a storage that accepts every write, a run started on a
    database that already holds rows leaves them in place and adds, at
    every point, exactly the rows of the units whose write has ended,
    unit after unit in the order of the writes: for each unit the rows
    that the two extractions give for the dataset fetched for it, and
    nothing for a unit whose extraction raises or yields no profile. The
    units counted as successes are those whose two extractions return.
    When the run is over, the writes ended are all the units that were
    put, in the order of the puts. *)
Theorem healthy_run_store (env : RunEnv) (st0 : Store) (s : RunState) :
  (forall n, env_backend env n = healthy) ->
  steps env (start_state st0) s ->
  profiles (store s)
  = profiles st0
    ++ flat_map (fun fid => fst (unit_rows env fid)) (ended (log s))
  /\ measurements (store s)
     = measurements st0
       ++ flat_map (fun fid => snd (unit_rows env fid)) (ended (log s))
  /\ success_count s = length (List.filter (extracts env) (ended (log s)))
  /\ (terminal s -> ended (log s) = put_order s).
Proof.
  intros Hbe Hsteps.
  destruct (steps_healthy env _ _ Hbe Hsteps) as (l & He & Hp & Hm & Hs).
  { constructor. }
  { exact I. }
  simpl in He, Hp, Hm, Hs. subst l.
  split; [exact Hp|]. split; [exact Hm|]. split; [exact Hs|].
  intros Hterm.
  destruct (started_reachable env st0 s Hsteps) as [st' Hreach].
  destruct (reachable_units env _ Hreach) as (_ & _ & _ & Hwe).
  destruct (terminal_quiet env _ Hreach Hterm) as (_ & _ & Hw).
  pose proof (terminal_no_data env _ Hreach Hterm) as Hq.
  simpl in Hwe, Hw, Hq. unfold put_order. rewrite Hq, Hwe.
  destruct Hw as [-> | ->]; simpl; now rewrite !app_nil_r.
Qed.

Lemma healthy_run_store_witness :
  profiles (store (run env_two 28 (start_state st_argo)))
  = ps_argo
    ++ flat_map (fun fid => fst (unit_rows env_two fid))
         (ended (log (run env_two 28 (start_state st_argo)))).
Proof.
  apply (healthy_run_store env_two st_argo
           (run env_two 28 (start_state st_argo))).
  - intros n. reflexivity.
  - apply run_steps.
Defined.

(** *** The units of a run *)

(** X25. The units of a run are those that [list_floats] returned for
    the run's data center and limit: the list is in ascending order,
    every unit the run writes is a listed id that is not empty and all
    digits, and with a limit of at least 1 no more than [num_floats]
    units are listed or written. *)
Theorem run_units_listed (env : RunEnv) (s : RunState) :
  reachable env s ->
  (floats s = [] \/ list_units env = Ok (floats s))
  /\ ascending (floats s)
  /\ (forall fid, In fid (written (log s)) ->
        In fid (floats s) /\ fid <> []
        /\ forallb (env_isdigit env) fid = true)
  /\ (1 <= env_num_floats env ->
      Z.of_nat (length (floats s)) <= env_num_floats env
      /\ Z.of_nat (length (written (log s))) <= env_num_floats env).
Proof.
  intros Hreach. pose proof (reachable_listing env s Hreach) as Hl.
  destruct (reachable_units env s Hreach) as (Hsub & _).
  assert (Hwr : written (log s) ⊆+ floats s).
  { etransitivity; [|exact Hsub]. solve_submseteq. }
  destruct (list_floats_listed (env_isdigit env) default_client (env_web env)
              (env_data_center env) (Some (env_num_floats env)))
    as (fs & Hfs & Hasc & Hdig & Hlen).
  fold (list_units env) in Hfs.
  assert (Hfl : floats s = [] \/ floats s = fs).
  { destruct Hl as [Hl|Hl]; [now left|]. right. congruence. }
  split; [exact Hl|]. split; [|split].
  - destruct Hfl as [-> | ->]; [constructor | exact Hasc].
  - intros fid Hin.
    assert (Hin' : In fid (floats s)).
    { apply list_elem_of_In. eapply elem_of_submseteq; [|exact Hwr].
      now apply list_elem_of_In. }
    split; [exact Hin'|].
    destruct Hfl as [Hfl|Hfl]; rewrite Hfl in Hin'; [destruct Hin'|].
    now apply Hdig.
  - intros Hn. specialize (Hlen _ eq_refl Hn).
    assert (Hf : Z.of_nat (length (floats s)) <= env_num_floats env).
    { destruct Hfl as [-> | ->]; simpl; lia. }
    split; [exact Hf|]. apply submseteq_length in Hwr. lia.
Qed.

Lemma run_units_listed_witness :
  Z.of_nat (length (floats (run env_two 28 init_state))) <= 10.
Proof.
  destruct (run_units_listed env_two (run env_two 28 init_state))
    as (_ & _ & _ & H).
  - apply run_reachable, reach_init.
  - apply H. simpl. lia.
Defined.
